(** * tools/mcp_installer.py: the MCP server installer for Cursor

    A shallow embedding of the installer script and the properties its
    specification states about it.

    Modelling conventions.
    - Python values that travel through [json] are the inductive [pyval];
      a [dict] is an association list in insertion order with unique keys.
      The one dictionary that can get a key that is no string, the
      servers of the registry under a manifest name that is a number, a
      truth value or [null], is listed as [json.dump] writes it (see
      [set_server_value]).
    - Text is [string]; each character stands for a code point below 256.
    - Numbers are integers.  JSON texts that hold a fractional or exponent
      part, [NaN], [Infinity], or an escape of a code point above 255 lie
      outside this fragment: the parser answers [BeyondModel] on them,
      [json_loads] turns that into [Unmodelled], and [Unmodelled] is never
      caught by an [except] clause of the model.
    - The process environment (home directory, files, the answers of the
      external programs) is the record [world]; every function of the
      script that touches it becomes a function in the monad [M].  The
      logger is observed through the level and the format text of each
      record it emits (placeholders left as written), the clock through
      the [time.sleep] calls, the external programs through the command
      lines run.
    - [node], [npm view] and [curl] are read through their exit status and
      output.  What [git clone] and [npm install] write is a parameter
      ([writes]) of the functions that run them. *)

From Stdlib Require Import List String Ascii ZArith Lia Bool Arith.
From Stdlib Require Decimal DecimalString DecimalZ DecimalN DecimalPos DecimalFacts.
Import ListNotations.
Open Scope string_scope.
Set Warnings "-register-all".

(* ================================================================== *)
(** * Python values *)

Inductive pyval : Type :=
| PNone
| PBool (b : bool)
| PInt (z : Z)
| PStr (s : string)
| PList (items : list pyval)
| PDict (entries : list (string * pyval)).

(** ** Dictionaries as insertion-ordered association lists *)

Fixpoint dict_get {V : Type} (k : string) (d : list (string * V)) : option V :=
  match d with
  | [] => None
  | (k', v) :: d' => if String.eqb k k' then Some v else dict_get k d'
  end.

(** [d[k] = v]: an existing key keeps its position, a new one goes last. *)
Fixpoint dict_set {V : Type} (k : string) (v : V) (d : list (string * V))
  : list (string * V) :=
  match d with
  | [] => [(k, v)]
  | (k', v') :: d' =>
      if String.eqb k k' then (k, v) :: d' else (k', v') :: dict_set k v d'
  end.

Definition dict_keys {V : Type} (d : list (string * V)) : list string :=
  map fst d.

Definition dict_mem {V : Type} (k : string) (d : list (string * V)) : bool :=
  match dict_get k d with Some _ => true | None => false end.

(** [dict(pairs)]: later pairs overwrite earlier ones. *)
Definition dict_of_pairs {V : Type} (ps : list (string * V)) : list (string * V) :=
  fold_left (fun d kv => dict_set (fst kv) (snd kv) d) ps [].

(** ** Strings *)

(** [pat in s] for strings. *)
Fixpoint contains (pat s : string) : bool :=
  String.prefix pat s ||
  match s with
  | EmptyString => false
  | String _ s' => contains pat s'
  end.

(** [s.split(sep, 1)] when [sep] occurs in [s]; [None] when it does not. *)
Fixpoint split_once (sep : ascii) (s : string) : option (string * string) :=
  match s with
  | EmptyString => None
  | String c s' =>
      if Ascii.eqb c sep then Some (EmptyString, s')
      else match split_once sep s' with
           | Some (a, b) => Some (String c a, b)
           | None => None
           end
  end.

Fixpoint concat_with (sep : string) (l : list string) : string :=
  match l with
  | [] => ""
  | [x] => x
  | x :: rest => x ++ sep ++ concat_with sep rest
  end.

(** Split at the last ["/"]. *)
Fixpoint rsplit_slash (s : string) : option (string * string) :=
  match s with
  | EmptyString => None
  | String c s' =>
      match rsplit_slash s' with
      | Some (a, b) => Some (String c a, b)
      | None => if Ascii.eqb c "/" then Some (EmptyString, s') else None
      end
  end.

Definition ends_with_slash (s : string) : bool :=
  match rsplit_slash s with
  | Some (_, EmptyString) => true
  | _ => false
  end.

(** [os.path.join(a, b)] on POSIX. *)
Definition path_join (a b : string) : string :=
  if String.prefix "/" b then b
  else if String.eqb a "" || ends_with_slash a then a ++ b
  else a ++ "/" ++ b.

(** [os.path.basename(p)]. *)
Definition basename (p : string) : string :=
  match rsplit_slash p with
  | Some (_, b) => b
  | None => p
  end.

(** [os.path.dirname(p)] for paths without doubled slashes. *)
Definition dirname (p : string) : string :=
  match rsplit_slash p with
  | Some (EmptyString, _) => "/"
  | Some (a, _) => a
  | None => ""
  end.

(** The prefixes of a path that name its ancestors and itself, outermost
    first: what [mkdir(parents=True)] walks through. *)
Fixpoint path_prefixes_from (done : string) (s : string) : list string :=
  match s with
  | EmptyString => if String.eqb done "" then [] else [done]
  | String c s' =>
      if Ascii.eqb c "/" && negb (String.eqb done "")
      then done :: path_prefixes_from (done ++ "/") s'
      else path_prefixes_from (done ++ String c "") s'
  end.

Definition path_prefixes (p : string) : list string :=
  path_prefixes_from "" p.

(** ** Characters *)

Definition code (c : ascii) : N := N_of_ascii c.

Definition dquote : ascii := "034"%char.
Definition squote : ascii := "039"%char.
Definition backslash : ascii := "092"%char.
Definition char_tab : ascii := "009"%char.
Definition char_lf : ascii := "010"%char.
Definition char_cr : ascii := "013"%char.
Definition char_bs : ascii := "008"%char.
Definition char_ff : ascii := "012"%char.

Definition str1 (c : ascii) : string := String c EmptyString.

Definition hex_digit (n : N) : ascii :=
  if (n <? 10)%N then ascii_of_N (48 + n) else ascii_of_N (87 + n).

(** The two lowercase hexadecimal digits of a character's code. *)
Definition hex2 (c : ascii) : string :=
  String (hex_digit (code c / 16)) (String (hex_digit (code c mod 16)) EmptyString).

Definition string_of_Z (z : Z) : string :=
  DecimalString.NilZero.string_of_int (Z.to_int z).

Fixpoint string_mem (c : ascii) (s : string) : bool :=
  match s with
  | EmptyString => false
  | String c' s' => Ascii.eqb c c' || string_mem c s'
  end.

Fixpoint string_flat_map (f : ascii -> string) (s : string) : string :=
  match s with
  | EmptyString => EmptyString
  | String c s' => f c ++ string_flat_map f s'
  end.

(** ** [str(v)]: the text Python prints for a value *)

(** [c.isprintable()] for a code point below 256. *)
Definition isprintable (c : ascii) : bool :=
  let n := code c in
  ((32 <=? n) && (n <? 127) || (161 <=? n) && negb (n =? 173))%N.

Definition repr_char (quote : ascii) (c : ascii) : string :=
  if Ascii.eqb c backslash then String backslash (str1 backslash)
  else if Ascii.eqb c quote then String backslash (str1 quote)
  else if Ascii.eqb c char_tab then String backslash "t"
  else if Ascii.eqb c char_lf then String backslash "n"
  else if Ascii.eqb c char_cr then String backslash "r"
  else if isprintable c then str1 c
  else String backslash (String "x" (hex2 c)).

(** [repr(s)]: single quotes unless the text holds one and no double quote. *)
Definition repr_str (s : string) : string :=
  let quote :=
    if string_mem squote s && negb (string_mem dquote s) then dquote else squote in
  String quote (string_flat_map (repr_char quote) s ++ str1 quote).

Fixpoint py_repr (v : pyval) : string :=
  match v with
  | PNone => "None"
  | PBool true => "True"
  | PBool false => "False"
  | PInt z => string_of_Z z
  | PStr s => repr_str s
  | PList items => "[" ++ concat_with ", " (map py_repr items) ++ "]"
  | PDict entries =>
      "{" ++ concat_with ", "
               (map (fun kv => repr_str (fst kv) ++ ": " ++ py_repr (snd kv)) entries)
          ++ "}"
  end.

Definition py_str (v : pyval) : string :=
  match v with
  | PStr s => s
  | _ => py_repr v
  end.

(** ** [json.dumps] *)

(** One character of a string under [ensure_ascii]. *)
Definition json_escape_char (c : ascii) : string :=
  if Ascii.eqb c dquote then String backslash (str1 dquote)
  else if Ascii.eqb c backslash then String backslash (str1 backslash)
  else if Ascii.eqb c char_lf then String backslash "n"
  else if Ascii.eqb c char_cr then String backslash "r"
  else if Ascii.eqb c char_tab then String backslash "t"
  else if Ascii.eqb c char_bs then String backslash "b"
  else if Ascii.eqb c char_ff then String backslash "f"
  else if ((32 <=? code c) && (code c <? 127))%N then str1 c
  else String backslash ("u00" ++ hex2 c).

Definition json_string (s : string) : string :=
  String dquote (string_flat_map json_escape_char s ++ str1 dquote).

Fixpoint spaces (n : nat) : string :=
  match n with
  | O => EmptyString
  | S n' => String " " (spaces n')
  end.

(** [json.dumps(v)] with the default separators [", "] and [": "]. *)
Fixpoint json_dumps (v : pyval) : string :=
  match v with
  | PNone => "null"
  | PBool true => "true"
  | PBool false => "false"
  | PInt z => string_of_Z z
  | PStr s => json_string s
  | PList items => "[" ++ concat_with ", " (map json_dumps items) ++ "]"
  | PDict entries =>
      "{" ++ concat_with ", "
               (map (fun kv => json_string (fst kv) ++ ": " ++ json_dumps (snd kv)) entries)
          ++ "}"
  end.

(** A line break and the indentation of nesting depth [level]. *)
Definition newline_indent (level : nat) : string :=
  String char_lf (spaces (2 * level)).

(** [json.dumps(v, indent=2)] for a value that starts at nesting depth
    [level]: one item per line, [","] between items, empty containers
    closed at once. *)
Fixpoint json_dumps_indent (level : nat) (v : pyval) : string :=
  match v with
  | PNone => "null"
  | PBool true => "true"
  | PBool false => "false"
  | PInt z => string_of_Z z
  | PStr s => json_string s
  | PList [] => "[]"
  | PList items =>
      "[" ++ newline_indent (S level)
          ++ concat_with ("," ++ newline_indent (S level))
               (map (json_dumps_indent (S level)) items)
          ++ newline_indent level ++ "]"
  | PDict [] => "{}"
  | PDict entries =>
      "{" ++ newline_indent (S level)
          ++ concat_with ("," ++ newline_indent (S level))
               (map (fun kv => json_string (fst kv) ++ ": "
                                 ++ json_dumps_indent (S level) (snd kv)) entries)
          ++ newline_indent level ++ "}"
  end.

(** ** [json.loads] *)

(** A parser's answer: a value and the text left, a syntax error
    ([JSONDecodeError]), or a text outside the modelled fragment. *)
Inductive parsed (A : Type) : Type :=
| Parsed (a : A) (rest : string)
| BadSyntax
| BeyondModel.
Arguments Parsed {A} a rest.
Arguments BadSyntax {A}.
Arguments BeyondModel {A}.

Definition parsed_map {A B : Type} (f : A -> B) (p : parsed A) : parsed B :=
  match p with
  | Parsed a r => Parsed (f a) r
  | BadSyntax => BadSyntax
  | BeyondModel => BeyondModel
  end.

Definition is_ws (c : ascii) : bool :=
  Ascii.eqb c " " || Ascii.eqb c char_tab || Ascii.eqb c char_lf || Ascii.eqb c char_cr.

Fixpoint skip_ws (s : string) : string :=
  match s with
  | EmptyString => EmptyString
  | String c s' => if is_ws c then skip_ws s' else s
  end.

Definition hex_value (c : ascii) : option N :=
  let n := code c in
  if ((48 <=? n) && (n <=? 57))%N then Some (n - 48)%N
  else if ((97 <=? n) && (n <=? 102))%N then Some (n - 87)%N
  else if ((65 <=? n) && (n <=? 70))%N then Some (n - 55)%N
  else None.

(** The character a one-letter escape stands for. *)
Definition unescape (e : ascii) : option ascii :=
  if Ascii.eqb e dquote then Some dquote
  else if Ascii.eqb e backslash then Some backslash
  else if Ascii.eqb e "/" then Some "/"%char
  else if Ascii.eqb e "b" then Some char_bs
  else if Ascii.eqb e "f" then Some char_ff
  else if Ascii.eqb e "n" then Some char_lf
  else if Ascii.eqb e "r" then Some char_cr
  else if Ascii.eqb e "t" then Some char_tab
  else None.

(** The text of a string literal after its opening quote, up to and
    including the closing one. *)
Fixpoint parse_string_body (s : string) : parsed string :=
  match s with
  | EmptyString => BadSyntax
  | String c s' =>
      if Ascii.eqb c dquote then Parsed EmptyString s'
      else if Ascii.eqb c backslash then
        match s' with
        | EmptyString => BadSyntax
        | String e s'' =>
            if Ascii.eqb e "u" then
              match s'' with
              | String h1 (String h2 (String h3 (String h4 r))) =>
                  match hex_value h1, hex_value h2, hex_value h3, hex_value h4 with
                  | Some a, Some b, Some x, Some y =>
                      if ((a =? 0) && (b =? 0))%N
                      then parsed_map (String (ascii_of_N (16 * x + y)))
                                      (parse_string_body r)
                      else BeyondModel
                  | _, _, _, _ => BadSyntax
                  end
              | _ => BadSyntax
              end
            else
              match unescape e with
              | Some c' => parsed_map (String c') (parse_string_body s'')
              | None => BadSyntax
              end
        end
      else if (code c <? 32)%N then BadSyntax
      else parsed_map (String c) (parse_string_body s')
  end.

Definition digit_of_char (c : ascii) : option (Decimal.uint -> Decimal.uint) :=
  if Ascii.eqb c "0" then Some Decimal.D0 else if Ascii.eqb c "1" then Some Decimal.D1
  else if Ascii.eqb c "2" then Some Decimal.D2 else if Ascii.eqb c "3" then Some Decimal.D3
  else if Ascii.eqb c "4" then Some Decimal.D4 else if Ascii.eqb c "5" then Some Decimal.D5
  else if Ascii.eqb c "6" then Some Decimal.D6 else if Ascii.eqb c "7" then Some Decimal.D7
  else if Ascii.eqb c "8" then Some Decimal.D8 else if Ascii.eqb c "9" then Some Decimal.D9
  else None.

(** The longest run of decimal digits at the head of a text. *)
Fixpoint scan_uint (s : string) : Decimal.uint * string :=
  match s with
  | EmptyString => (Decimal.Nil, s)
  | String c s' =>
      match digit_of_char c with
      | Some d => let (u, r) := scan_uint s' in (d u, r)
      | None => (Decimal.Nil, s)
      end
  end.

Definition starts_fraction (s : string) : bool :=
  match s with
  | String c _ => Ascii.eqb c "." || Ascii.eqb c "e" || Ascii.eqb c "E"
  | EmptyString => false
  end.

(** The digits of a number: ["0"] alone or a run that starts with a
    non-zero digit; a fraction or an exponent after them is outside the
    model. *)
Definition parse_digits (s : string) : parsed Z :=
  let (u, r) := scan_uint s in
  match u with
  | Decimal.Nil => BadSyntax
  | Decimal.D0 Decimal.Nil =>
      if starts_fraction r then BeyondModel else Parsed 0%Z r
  | Decimal.D0 _ => BadSyntax
  | _ => if starts_fraction r then BeyondModel else Parsed (Z.of_uint u) r
  end.

Definition parse_number (s : string) : parsed Z :=
  match s with
  | String c r =>
      if Ascii.eqb c "-" then
        match r with
        | String c' _ =>
            if Ascii.eqb c' "I" then BeyondModel
            else parsed_map Z.opp (parse_digits r)
        | EmptyString => BadSyntax
        end
      else parse_digits s
  | EmptyString => BadSyntax
  end.

Fixpoint strip_prefix (p s : string) : option string :=
  match p, s with
  | EmptyString, _ => Some s
  | String a p', String b s' => if Ascii.eqb a b then strip_prefix p' s' else None
  | String _ _, EmptyString => None
  end.

Definition parse_keyword (kw : string) (v : pyval) (s : string) : parsed pyval :=
  match strip_prefix kw s with
  | Some r => Parsed v r
  | None => BadSyntax
  end.

(** One JSON value at the head of a text, white space before it skipped.
    [fuel] bounds the nesting and the number of items. *)
Fixpoint parse_value (fuel : nat) (s : string) : parsed pyval :=
  match fuel with
  | O => BeyondModel
  | S fuel' =>
      match skip_ws s with
      | EmptyString => BadSyntax
      | String c r =>
          if Ascii.eqb c "{" then
            match skip_ws r with
            | String c' r' =>
                if Ascii.eqb c' "}" then Parsed (PDict []) r'
                else parsed_map (fun ps => PDict (dict_of_pairs ps))
                                (parse_members fuel' r)
            | EmptyString => BadSyntax
            end
          else if Ascii.eqb c "[" then
            match skip_ws r with
            | String c' r' =>
                if Ascii.eqb c' "]" then Parsed (PList []) r'
                else parsed_map PList (parse_elements fuel' r)
            | EmptyString => BadSyntax
            end
          else if Ascii.eqb c dquote then parsed_map PStr (parse_string_body r)
          else if Ascii.eqb c "t" then parse_keyword "rue" (PBool true) r
          else if Ascii.eqb c "f" then parse_keyword "alse" (PBool false) r
          else if Ascii.eqb c "n" then parse_keyword "ull" PNone r
          else if Ascii.eqb c "N" || Ascii.eqb c "I" then BeyondModel
          else parsed_map PInt (parse_number (String c r))
      end
  end

(** The items of an array after ["["] or [","], up to the closing ["]"]. *)
with parse_elements (fuel : nat) (s : string) : parsed (list pyval) :=
  match fuel with
  | O => BeyondModel
  | S fuel' =>
      match parse_value fuel' s with
      | Parsed v r =>
          match skip_ws r with
          | String c r' =>
              if Ascii.eqb c "," then parsed_map (cons v) (parse_elements fuel' r')
              else if Ascii.eqb c "]" then Parsed [v] r'
              else BadSyntax
          | EmptyString => BadSyntax
          end
      | BadSyntax => BadSyntax
      | BeyondModel => BeyondModel
      end
  end

(** The members of an object after ["{"] or [","], up to the closing ["}"]. *)
with parse_members (fuel : nat) (s : string) : parsed (list (string * pyval)) :=
  match fuel with
  | O => BeyondModel
  | S fuel' =>
      match skip_ws s with
      | EmptyString => BadSyntax
      | String q r =>
          if Ascii.eqb q dquote then
            match parse_string_body r with
            | Parsed k r1 =>
                match skip_ws r1 with
                | String c r2 =>
                    if Ascii.eqb c ":" then
                      match parse_value fuel' r2 with
                      | Parsed v r3 =>
                          match skip_ws r3 with
                          | String c' r4 =>
                              if Ascii.eqb c' ","
                              then parsed_map (cons (k, v)) (parse_members fuel' r4)
                              else if Ascii.eqb c' "}" then Parsed [(k, v)] r4
                              else BadSyntax
                          | EmptyString => BadSyntax
                          end
                      | BadSyntax => BadSyntax
                      | BeyondModel => BeyondModel
                      end
                    else BadSyntax
                | EmptyString => BadSyntax
                end
            | BadSyntax => BadSyntax
            | BeyondModel => BeyondModel
            end
          else BadSyntax
      end
  end.

(* ================================================================== *)
(** * The process and its environment *)

(** The exceptions the script can meet; all derive from [Exception]. *)
Inductive exn : Type :=
| FileNotFoundError
| IsADirectoryError
| NotADirectoryError
| FileExistsError
| CalledProcessError (returncode : Z)
| JSONDecodeError
| AttributeError
| TypeError
| IndexError
| KeyError (key : string).

(** What running a piece of the script yields: a value, a raised
    exception, or [Unmodelled] where the run leaves the modelled fragment
    of Python. *)
Inductive outcome (A : Type) : Type :=
| Ok (a : A)
| Raise (e : exn)
| Unmodelled.
Arguments Ok {A} a.
Arguments Raise {A} e.
Arguments Unmodelled {A}.

Inductive fs_node : Type :=
| Missing
| File (content : string)
| Dir.

(** How an external program ended: its exit status and captured standard
    output, or no such executable on the search path. *)
Inductive proc_outcome : Type :=
| Exited (returncode : Z) (stdout : string)
| NoSuchProgram.

Inductive level : Type := INFO | WARNING | ERROR.

Inductive event : Type :=
| Log (lvl : level) (msg : string)
| Sleep (seconds : Z)
| Run (argv : list string)
| PrintHelp.

Record world : Type := mkWorld {
  home : string;                              (* os.path.expanduser("~") *)
  fs : string -> fs_node;                     (* the file system, by path *)
  exec : nat -> list string -> proc_outcome;  (* answer to the n-th program run *)
  ticks : nat;                                (* programs run so far *)
  trace : list event                          (* what was observed, oldest first *)
}.

Definition add_event (e : event) (w : world) : world :=
  mkWorld (home w) (fs w) (exec w) (ticks w) (trace w ++ [e]).

Definition set_fs (f : string -> fs_node) (w : world) : world :=
  mkWorld (home w) f (exec w) (ticks w) (trace w).

Definition fs_update (p : string) (n : fs_node) (f : string -> fs_node)
  : string -> fs_node :=
  fun q => if String.eqb q p then n else f q.

(** ** The monad of the script: state and exceptions *)

Definition M (A : Type) : Type := world -> outcome A * world.

Definition ret {A : Type} (a : A) : M A := fun w => (Ok a, w).

Definition bind {A B : Type} (m : M A) (k : A -> M B) : M B :=
  fun w =>
    match m w with
    | (Ok a, w') => k a w'
    | (Raise e, w') => (Raise e, w')
    | (Unmodelled, w') => (Unmodelled, w')
    end.

Definition raise {A : Type} (e : exn) : M A := fun w => (Raise e, w).

Definition lift {A : Type} (o : outcome A) : M A := fun w => (o, w).

(** [try: m  except Exception as e: handler e]. *)
Definition try_except {A : Type} (m : M A) (handler : exn -> M A) : M A :=
  fun w =>
    match m w with
    | (Raise e, w') => handler e w'
    | r => r
    end.

Notation "x <- m ;; k" := (bind m (fun x => k))
  (at level 61, m at next level, right associativity).
Notation "m ;; k" := (bind m (fun _ => k))
  (at level 61, right associativity).

(** ** Primitive effects *)

Definition log (lvl : level) (msg : string) : M unit :=
  fun w => (Ok tt, add_event (Log lvl msg) w).

Definition sleep (seconds : Z) : M unit :=
  fun w => (Ok tt, add_event (Sleep seconds) w).

Definition print_help : M unit :=
  fun w => (Ok tt, add_event PrintHelp w).

(** [subprocess.run(argv, capture_output=True, check=True).stdout]. *)
Definition subprocess_run (argv : list string) : M string :=
  fun w =>
    let w' := mkWorld (home w) (fs w) (exec w) (S (ticks w)) (trace w ++ [Run argv]) in
    match exec w (ticks w) argv with
    | Exited rc out =>
        if (rc =? 0)%Z then (Ok out, w') else (Raise (CalledProcessError rc), w')
    | NoSuchProgram => (Raise FileNotFoundError, w')
    end.

(** [os.path.exists(p)]. *)
Definition path_exists (p : string) : M bool :=
  fun w => (Ok (match fs w p with Missing => false | _ => true end), w).

(** Why the directory that should hold [p] cannot be entered, if so. *)
Definition parent_error (f : string -> fs_node) (p : string) : option exn :=
  if String.eqb (dirname p) "" then None
  else match f (dirname p) with
       | Dir => None
       | File _ => Some NotADirectoryError
       | Missing => Some FileNotFoundError
       end.

(** [open(p, 'r').read()]. *)
Definition read_file (p : string) : M string :=
  fun w =>
    match fs w p with
    | File content => (Ok content, w)
    | Dir => (Raise IsADirectoryError, w)
    | Missing =>
        match parent_error (fs w) p with
        | Some NotADirectoryError => (Raise NotADirectoryError, w)
        | _ => (Raise FileNotFoundError, w)
        end
    end.

(** [open(p, 'w').write(content)]: the file is created or overwritten. *)
Definition write_file (p : string) (content : string) : M unit :=
  fun w =>
    match parent_error (fs w) p with
    | Some e => (Raise e, w)
    | None =>
        match fs w p with
        | Dir => (Raise IsADirectoryError, w)
        | _ => (Ok tt, set_fs (fs_update p (File content) (fs w)) w)
        end
    end.

Fixpoint mkdir_chain (ps : list string) (f : string -> fs_node)
  : outcome unit * (string -> fs_node) :=
  match ps with
  | [] => (Ok tt, f)
  | p :: rest =>
      match f p with
      | Dir => mkdir_chain rest f
      | Missing => mkdir_chain rest (fs_update p Dir f)
      | File _ =>
          (Raise (match rest with [] => FileExistsError | _ => NotADirectoryError end), f)
      end
  end.

(** [Path(d).mkdir(parents=True, exist_ok=True)]. *)
Definition mkdir_parents (d : string) : M unit :=
  fun w =>
    let (r, f) := mkdir_chain (path_prefixes d) (fs w) in (r, set_fs f w).

(** [json.loads(text)]. *)
Definition json_loads (text : string) : outcome pyval :=
  match parse_value (S (String.length text)) text with
  | Parsed v rest =>
      match skip_ws rest with
      | EmptyString => Ok v
      | String _ _ => Raise JSONDecodeError
      end
  | BadSyntax => Raise JSONDecodeError
  | BeyondModel => Unmodelled
  end.

(* ================================================================== *)
(** * ConfigStore *)

Definition get_config_path : M string :=
  fun w => (Ok (path_join (path_join (home w) ".cursor") "mcp.json"), w).

Definition empty_config : pyval := PDict [("mcpServers", PDict [])].

Definition load_config : M pyval :=
  config_path <- get_config_path ;;
  present <- path_exists config_path ;;
  if negb present then
    mkdir_parents (dirname config_path) ;;
    ret empty_config
  else
    text <- read_file config_path ;;
    lift (json_loads text).

Definition save_config (config : pyval) : M unit :=
  config_path <- get_config_path ;;
  write_file config_path (json_dumps_indent 0 config).

(* ================================================================== *)
(** * EnvironmentProbe *)

Record env_status : Type := mkEnvStatus {
  st_node : bool;
  st_npm : bool;
  st_uvx : bool
}.

(** One [try: subprocess.run([tool, "--version"], ...)] block. *)
Definition probe (tool label : string) : M bool :=
  try_except
    (subprocess_run [tool; "--version"] ;;
     log INFO (label ++ " is available") ;;
     ret true)
    (fun e =>
       match e with
       | CalledProcessError _ | FileNotFoundError =>
           log WARNING (label ++ " is not available") ;;
           ret false
       | _ => raise e
       end).

Definition check_environment : M env_status :=
  node <- probe "node" "Node.js" ;;
  npm <- probe "npm" "npm" ;;
  uvx <- probe "uvx" "uvx" ;;
  ret (mkEnvStatus node npm uvx).

(* ================================================================== *)
(** * ComplianceChecker *)

Definition check_package_json (path : string) : M pyval :=
  try_except
    (text <- read_file (path_join path "package.json") ;;
     lift (json_loads text))
    (fun e =>
       match e with
       | FileNotFoundError =>
           log ERROR "package.json not found in {path}" ;; ret (PDict [])
       | JSONDecodeError =>
           log ERROR "Invalid package.json in {path}" ;; ret (PDict [])
       | _ => raise e
       end).

(** [v.get(key, default)], a method of dictionaries only. *)
Definition py_get (v : pyval) (key : string) (default : pyval) : outcome pyval :=
  match v with
  | PDict d => Ok (match dict_get key d with Some x => x | None => default end)
  | _ => Raise AttributeError
  end.

(** [v.keys()]. *)
Definition py_keys (v : pyval) : outcome (list string) :=
  match v with
  | PDict d => Ok (dict_keys d)
  | _ => Raise AttributeError
  end.

(** [key in v] for a string [key]: a key of a dictionary, an item of a
    list, a piece of a string; other values are not containers. *)
Definition py_in (key : string) (v : pyval) : outcome bool :=
  match v with
  | PDict d => Ok (dict_mem key d)
  | PList items =>
      Ok (existsb (fun x => match x with PStr s => String.eqb s key | _ => false end)
                  items)
  | PStr s => Ok (contains key s)
  | _ => Raise TypeError
  end.

(** A truth value as [if] reads it; [None] stands for Python's [None]. *)
Definition truthy (b : option bool) : bool :=
  match b with Some true => true | _ => false end.

(** The three compliance indicators and their disjunction. *)
Definition compliance_indicators (package_info : pyval) : M bool :=
  deps <- lift (py_get package_info "dependencies" (PDict [])) ;;
  keys <- lift (py_keys deps) ;;
  let has_mcp_deps := existsb (String.prefix "@modelcontextprotocol/") keys in
  let has_mcp_schema := contains "modelcontextprotocol" (py_str package_info) in
  has_capabilities <- lift (py_in "capabilities" package_info) ;;
  has_mcp_fields <-
    (if has_capabilities
     then caps <- lift (py_get package_info "capabilities" (PDict [])) ;;
          lift (py_in "tools" caps)
     else ret false) ;;
  ret (has_mcp_deps || has_mcp_schema || has_mcp_fields).

(** The manifest of one attempt: the local [package.json] when a
    non-empty path is given, else the answer of [npm view]. *)
Definition resolve_manifest (package_name : string) (local_path : option string)
  : M pyval :=
  match local_path with
  | Some (String c p) => check_package_json (String c p)
  | _ =>
      out <- subprocess_run ["npm"; "view"; package_name; "--json"] ;;
      lift (json_loads out)
  end.

Definition msg_checking : string :=
  "Checking MCP compliance for {package_name} (attempt {attempt + 1}/{max_retries})".
Definition msg_attempt_failed : string :=
  "Attempt {attempt + 1}/{max_retries} failed: {str(e)}".
Definition msg_waiting : string := "Waiting 1 second before retry...".
Definition msg_all_failed : string := "All {max_retries} attempts failed".

(** The body of the [try] block of one attempt. *)
Definition compliance_attempt (package_name : string) (local_path : option string)
  : M bool :=
  log INFO msg_checking ;;
  package_info <- resolve_manifest package_name local_path ;;
  is_compliant <- compliance_indicators package_info ;;
  (if is_compliant
   then log INFO "Package {package_name} is MCP-compliant"
   else log WARNING "Package {package_name} is not MCP-compliant") ;;
  ret is_compliant.

(** The retry loop the script writes twice, around the compliance check
    and around the install:
    [for attempt in range(max_retries): try: body  except Exception: ...],
    from iteration [attempt] on with [remaining] iterations left.  A loop
    that runs out of iterations falls off the end of the function, which
    then returns [None]. *)
Fixpoint retry_loop (body : M (option bool)) (max_retries : Z) (attempt : Z)
    (remaining : nat) : M (option bool) :=
  match remaining with
  | O => ret None
  | S remaining' =>
      try_except body
        (fun _ =>
           log ERROR msg_attempt_failed ;;
           if (attempt <? max_retries - 1)%Z then
             log INFO msg_waiting ;;
             sleep 1 ;;
             retry_loop body max_retries (attempt + 1) remaining'
           else
             log ERROR msg_all_failed ;;
             ret (Some false))
  end.

Definition is_mcp_compliant (package_name : string) (local_path : option string)
    (max_retries : Z) : M (option bool) :=
  retry_loop
    (is_compliant <- compliance_attempt package_name local_path ;;
     ret (Some is_compliant))
    max_retries 0 (Z.to_nat max_retries).

(* ================================================================== *)
(** * ManifestEmitter *)

Definition envmap : Type := list (string * string).

Definition pydict_of_env (env : envmap) : pyval :=
  PDict (map (fun kv => (fst kv, PStr (snd kv))) env).

Definition pylist_of_strings (l : list string) : pyval :=
  PList (map PStr l).

(** [x if x else default] and [x or default] for an optional list. *)
Definition list_or_empty {A : Type} (l : option (list A)) : list A :=
  match l with Some l' => l' | None => [] end.

(** [if env:] holds for a dictionary with at least one key. *)
Definition env_given (env : option envmap) : option envmap :=
  match env with
  | Some (kv :: rest) => Some (kv :: rest)
  | _ => None
  end.

(** [text.split(sep)] on one character. *)
Fixpoint split_char (sep : ascii) (s : string) : list string :=
  match s with
  | EmptyString => [EmptyString]
  | String c s' =>
      if Ascii.eqb c sep then EmptyString :: split_char sep s'
      else match split_char sep s' with
           | [] => [str1 c]
           | x :: rest => String c x :: rest
           end
  end.

(** The three [replace] calls that spread a JSON text over lines. *)
Definition yaml_spread (c : ascii) : string :=
  if Ascii.eqb c "{" then String "{" (str1 char_lf)
  else if Ascii.eqb c "}" then String char_lf "}"
  else if Ascii.eqb c "," then String "," (str1 char_lf)
  else str1 c.

Definition nl : string := str1 char_lf.

Definition yaml_block (v : pyval) : string :=
  String.concat EmptyString
    (map (fun line => "  " ++ line ++ nl)
         (split_char char_lf (string_flat_map yaml_spread (json_dumps_indent 0 v)))).

Definition config_schema (env : option envmap) : pyval :=
  match env_given env with
  | Some e =>
      PDict [("type", PStr "object");
             ("properties",
              PDict (dict_of_pairs
                (map (fun kv =>
                        (fst kv,
                         PDict [("type", PStr "string");
                                ("description",
                                 PStr ("Environment variable: " ++ fst kv))]))
                     e)));
             ("required", pylist_of_strings (dict_keys e))]
  | None => PDict [("type", PStr "object"); ("properties", PDict [])]
  end.

Definition command_function (command : string) (args : option (list string)) : string :=
  "(config) => { command: '" ++ command ++ "', args: "
    ++ json_dumps (pylist_of_strings (list_or_empty args)) ++ " }".

(** The text written to [smithery.yaml]. *)
Definition smithery_yaml (command : string) (args : option (list string))
    (env : option envmap) : string :=
  "# Smithery configuration file: https://smithery.ai/docs/config#smitheryyaml" ++ nl
  ++ "startCommand:" ++ nl
  ++ yaml_block (PDict [("type", PStr "stdio")])
  ++ "configSchema:" ++ nl
  ++ "# JSON Schema defining the configuration options for the MCP." ++ nl
  ++ yaml_block (config_schema env)
  ++ "commandFunction:" ++ nl
  ++ "# A JS function that produces the CLI command based on the given config to start the MCP on stdio."
  ++ nl
  ++ "|-" ++ nl
  ++ command_function command args ++ nl
  ++ "exampleConfig:" ++ nl
  ++ yaml_block (PDict []).

Definition generate_smithery_yaml (package_name : string) (command : string)
    (args : option (list string)) (env : option envmap) : M bool :=
  try_except
    (log INFO "Generating smithery.yaml for {package_name}" ;;
     write_file "smithery.yaml" (smithery_yaml command args env) ;;
     log INFO "Successfully generated smithery.yaml for {package_name}" ;;
     ret true)
    (fun _ => log ERROR "Failed to generate smithery.yaml: {str(e)}" ;; ret false).

(* ================================================================== *)
(** * Installer *)

(** [v[key]] for a string [key]. *)
Definition py_subscript (v : pyval) (key : string) : outcome pyval :=
  match v with
  | PDict d =>
      match dict_get key d with
      | Some x => Ok x
      | None => Raise (KeyError key)
      end
  | _ => Raise TypeError
  end.

(** [config["mcpServers"][name] = server_config] for a string [name]. *)
Definition set_server (config : pyval) (name : string) (server_config : pyval)
  : outcome pyval :=
  match config with
  | PDict d =>
      match dict_get "mcpServers" d with
      | Some (PDict servers) =>
          Ok (PDict (dict_set "mcpServers"
                              (PDict (dict_set name server_config servers)) d))
      | Some _ => Raise TypeError
      | None => Raise (KeyError "mcpServers")
      end
  | _ => Raise TypeError
  end.

(** The text [json.dump] writes for a key of a dictionary: a string as
    it is, a number, a truth value and [None] as their JSON text; a list
    or a dictionary cannot be a key. *)
Definition key_text (key : pyval) : option string :=
  match key with
  | PStr s => Some s
  | PInt z => Some (string_of_Z z)
  | PBool true => Some "true"
  | PBool false => Some "false"
  | PNone => Some "null"
  | PList _ | PDict _ => None
  end.

(** What a list takes as an index: an integer, [True] and [False]
    counting as 1 and 0. *)
Definition list_index (key : pyval) : option Z :=
  match key with
  | PInt z => Some z
  | PBool true => Some 1%Z
  | PBool false => Some 0%Z
  | _ => None
  end.

(** The position an index names in a list of [n] items, a negative index
    counting from the end; [None] outside the list. *)
Definition list_position (index : Z) (n : nat) : option nat :=
  let i := if (index <? 0)%Z then (index + Z.of_nat n)%Z else index in
  if (0 <=? i)%Z && (i <? Z.of_nat n)%Z then Some (Z.to_nat i) else None.

Fixpoint replace_nth (i : nat) (v : pyval) (items : list pyval) : list pyval :=
  match items, i with
  | [], _ => []
  | _ :: rest, O => v :: rest
  | x :: rest, S i' => x :: replace_nth i' v rest
  end.

(** [items[index] = v]. *)
Definition list_set (index : Z) (v : pyval) (items : list pyval)
  : outcome (list pyval) :=
  match list_position index (List.length items) with
  | Some i => Ok (replace_nth i v items)
  | None => Raise IndexError
  end.

(** The same assignment when [name] is whatever the manifest declares.
    A string is set as [set_server] sets it.  A dictionary takes a
    number, a truth value or [None] as a key of its own, equal to none of
    its string keys, so the entry goes last; [json.dump] writes such a
    key as its JSON text, also when a string key with that text is there,
    and the value returned lists the entries as [json.dump] writes them.
    A list takes an integer inside its bounds.  A list or a dictionary is
    no key and no index. *)
Definition set_server_value (config : pyval) (name : pyval) (server_config : pyval)
  : outcome pyval :=
  match name with
  | PStr s => set_server config s server_config
  | _ =>
      match config with
      | PDict d =>
          match dict_get "mcpServers" d with
          | Some (PDict servers) =>
              match key_text name with
              | Some text =>
                  Ok (PDict (dict_set "mcpServers"
                                      (PDict (servers ++ [(text, server_config)])) d))
              | None => Raise TypeError
              end
          | Some (PList items) =>
              match list_index name with
              | Some index =>
                  match list_set index server_config items with
                  | Ok items' => Ok (PDict (dict_set "mcpServers" (PList items') d))
                  | Raise e => Raise e
                  | Unmodelled => Unmodelled
                  end
              | None => Raise TypeError
              end
          | Some _ => Raise TypeError
          | None => Raise (KeyError "mcpServers")
          end
      | _ => Raise TypeError
      end
  end.

(** The dictionary stored for a server; [env] is set last, when given. *)
Definition server_entry (command : string) (args : list string)
    (env : option envmap) : pyval :=
  PDict ([("command", PStr command);
          ("args", pylist_of_strings args);
          ("type", PStr "stdio")]
         ++ match env_given env with
            | Some e => [("env", pydict_of_env e)]
            | None => []
            end).

Definition msg_installing_local : string :=
  "Installing local MCP server from {path}".
Definition msg_installing : string :=
  "Installing MCP server {name} (attempt {attempt + 1}/{max_retries})".

(** The body of the [try] block of [install_local_mcp_server]. *)
Definition install_local_body (path : string) (args : option (list string))
    (env : option envmap) : M (option bool) :=
  log INFO msg_installing_local ;;
  present <- path_exists path ;;
  if negb present then
    log ERROR "Path does not exist: {path}" ;;
    ret (Some false)
  else
    compliant <- is_mcp_compliant (basename path) (Some path) 3 ;;
    if negb (truthy compliant) then
      log ERROR "Local package at {path} is not MCP-compliant" ;;
      ret (Some false)
    else
      config <- load_config ;;
      package_info <- check_package_json path ;;
      name <- lift (py_get package_info "name" (PStr (basename path))) ;;
      let server_args := path_join path "index.js" :: list_or_empty args in
      let server_config := server_entry "node" server_args env in
      config' <- lift (set_server_value config name server_config) ;;
      save_config config' ;;
      generate_smithery_yaml (py_str name) "node" (Some server_args) env ;;
      log INFO "Successfully installed local MCP server: {name}" ;;
      ret (Some true).

Definition install_local_mcp_server (path : string) (args : option (list string))
    (env : option envmap) (max_retries : Z) : M (option bool) :=
  try_except
    (install_local_body path args env)
    (fun _ =>
       log ERROR "Failed to install local MCP server: {str(e)}" ;;
       ret (Some false)).

(** The body of the [try] block of one attempt of [install_mcp_server]. *)
Definition install_attempt (name : string) (args : option (list string))
    (env : option envmap) : M (option bool) :=
  log INFO msg_installing ;;
  status <- check_environment ;;
  if negb (st_node status) || negb (st_npm status) then
    log ERROR "Node.js and npm are required" ;;
    ret (Some false)
  else
    compliant <- is_mcp_compliant name None 3 ;;
    if negb (truthy compliant) then
      log ERROR "Package {name} is not MCP-compliant" ;;
      ret (Some false)
    else
      config <- load_config ;;
      let cmd := if st_npm status then "npx" else "uvx" in
      let server_args := "-y" :: name :: list_or_empty args in
      let server_config := server_entry cmd server_args env in
      config' <- lift (set_server config name server_config) ;;
      save_config config' ;;
      generate_smithery_yaml name cmd (Some server_args) env ;;
      log INFO "Successfully installed MCP server: {name}" ;;
      ret (Some true).

Definition install_mcp_server (name : string) (args : option (list string))
    (env : option envmap) (max_retries : Z) : M (option bool) :=
  retry_loop (install_attempt name args env) max_retries 0 (Z.to_nat max_retries).

(* ================================================================== *)
(** * The command line *)

(** What the user typed, as the grammar of the five subparsers reads it.
    [--args] and [--env] take one or more words when present. *)
Inductive invocation : Type :=
| RunInstall (name : string) (args env : option (list string))
| RunLocal (path : string) (args env : option (list string))
| RunUrl (url : string) (args env : option (list string)) (auto_detect : bool)
| RunSupabase (url key : string) (ref api_url : option string)
| RunSmithery (name : string) (command : option string)
              (args env : option (list string))
| RunBare.

(** The [argparse.Namespace]: an attribute is [None] here when the
    namespace does not have it. *)
Record namespace : Type := mkNamespace {
  ns_command : option string;              (* always set; [None] is Python's None *)
  ns_name : option string;
  ns_path : option string;
  ns_url : option string;
  ns_key : option string;
  ns_ref : option (option string);
  ns_api_url : option (option string);
  ns_args : option (option (list string));
  ns_env : option (option (list string));
  ns_auto_detect : option bool
}.

(** [parser.parse_args()].  The subparser action first stores the name
    of the subcommand under [dest="command"], then copies every attribute
    of the subparser's own namespace over it; [smithery] declares an
    option [--command] (default ["npx"]) whose attribute has that same
    name. *)
Definition parse_args (inv : invocation) : namespace :=
  match inv with
  | RunInstall name args env =>
      mkNamespace (Some "install") (Some name) None None None None None
                  (Some args) (Some env) None
  | RunLocal path args env =>
      mkNamespace (Some "local") None (Some path) None None None None
                  (Some args) (Some env) None
  | RunUrl url args env auto_detect =>
      mkNamespace (Some "url") None None (Some url) None None None
                  (Some args) (Some env) (Some auto_detect)
  | RunSupabase url key ref api_url =>
      mkNamespace (Some "supabase") None None (Some url) (Some key)
                  (Some ref) (Some api_url) None None None
  | RunSmithery name command args env =>
      mkNamespace (Some (match command with Some c => c | None => "npx" end))
                  (Some name) None None None None None
                  (Some args) (Some env) None
  | RunBare =>
      mkNamespace None None None None None None None None None None
  end.

(** Reading an attribute of the namespace. *)
Definition getattr {A : Type} (a : option A) : M A :=
  match a with
  | Some x => ret x
  | None => raise AttributeError
  end.

Definition msg_ignoring : string :=
  "Ignoring invalid environment variable format: {env_var}".

(** The loop over [args.env]: [KEY=VALUE] words fill the dictionary,
    other words are reported and skipped. *)
Fixpoint collect_env (tokens : list string) (env_dict : envmap) : M envmap :=
  match tokens with
  | [] => ret env_dict
  | env_var :: rest =>
      match split_once "=" env_var with
      | Some (key, value) => collect_env rest (dict_set key value env_dict)
      | None => log WARNING msg_ignoring ;; collect_env rest env_dict
      end
  end.

Definition process_env (ns : namespace) : M envmap :=
  match ns_env ns with
  | Some (Some tokens) => collect_env tokens []
  | _ => ret []
  end.

(** [0 if success else 1]. *)
Definition exit_code (success : option bool) : Z :=
  if truthy success then 0%Z else 1%Z.

Section CommandLine.

(** Two branches of [main] rest on functions that run programs which
    write files: the [--auto-detect] mode of [url] ([fetch_package_metadata],
    [git clone]) and [install_supabase_mcp].  [main] takes them as given;
    they are defined after it, and [main_program] is [main] with them. *)
Variable url_auto_detect : namespace -> envmap -> M (option bool).
Variable install_supabase_mcp :
  string -> string -> option string -> option string -> M bool.

(** [main()] after [parse_args]: the result is the status given to
    [sys.exit]; an exception that escapes ends the process. *)
Definition main_dispatch (ns : namespace) : M Z :=
  env_dict <- process_env ns ;;
  match ns_command ns with
  | None => print_help ;; ret 1%Z
  | Some command =>
      if String.eqb command "install" then
        name <- getattr (ns_name ns) ;;
        args <- getattr (ns_args ns) ;;
        success <- install_mcp_server name args (Some env_dict) 3 ;;
        ret (exit_code success)
      else if String.eqb command "local" then
        path <- getattr (ns_path ns) ;;
        args <- getattr (ns_args ns) ;;
        success <- install_local_mcp_server path args (Some env_dict) 3 ;;
        ret (exit_code success)
      else if String.eqb command "url" then
        auto_detect <- getattr (ns_auto_detect ns) ;;
        if auto_detect then
          success <- url_auto_detect ns env_dict ;;
          ret (exit_code success)
        else
          url <- getattr (ns_url ns) ;;
          args <- getattr (ns_args ns) ;;
          success <- install_mcp_server url args (Some env_dict) 3 ;;
          ret (exit_code success)
      else if String.eqb command "supabase" then
        url <- getattr (ns_url ns) ;;
        key <- getattr (ns_key ns) ;;
        ref <- getattr (ns_ref ns) ;;
        api_url <- getattr (ns_api_url ns) ;;
        success <- install_supabase_mcp url key ref api_url ;;
        ret (if success then 0%Z else 1%Z)
      else if String.eqb command "smithery" then
        name <- getattr (ns_name ns) ;;
        args <- getattr (ns_args ns) ;;
        success <- generate_smithery_yaml name command args (Some env_dict) ;;
        ret (if success then 0%Z else 1%Z)
      else
        print_help ;; ret 1%Z
  end.

Definition main (inv : invocation) : M Z :=
  main_dispatch (parse_args inv).

End CommandLine.

(* ================================================================== *)
(** * More of Python's strings and dictionaries *)

(** [s.replace(old, new)] for a non-empty [old]: occurrences are taken
    from the left and do not overlap; [skip] characters of an occurrence
    already replaced are still to be dropped. *)
Fixpoint replace_from (old new : string) (skip : nat) (s : string) : string :=
  match s with
  | EmptyString => EmptyString
  | String c s' =>
      match skip with
      | S k => replace_from old new k s'
      | O =>
          if String.prefix old s
          then new ++ replace_from old new (String.length old - 1) s'
          else String c (replace_from old new O s')
      end
  end.

Definition str_replace (old new s : string) : string :=
  replace_from old new 0 s.

(** [s.endswith(suffix)]. *)
Fixpoint ends_with (suffix s : string) : bool :=
  String.eqb s suffix ||
  match s with
  | EmptyString => false
  | String _ s' => ends_with suffix s'
  end.

(** [c.isspace()] for a code point below 256. *)
Definition is_space (c : ascii) : bool :=
  let n := code c in
  ((9 <=? n) && (n <=? 13) || (28 <=? n) && (n <=? 32)
   || (n =? 133) || (n =? 160))%N.

(** [s.split()]: the maximal runs of characters that are not white
    space; [word] is the run being read. *)
Fixpoint split_ws_from (word : string) (s : string) : list string :=
  match s with
  | EmptyString => if String.eqb word "" then [] else [word]
  | String c s' =>
      if is_space c then
        if String.eqb word "" then split_ws_from "" s'
        else word :: split_ws_from "" s'
      else split_ws_from (word ++ str1 c) s'
  end.

Definition split_ws (s : string) : list string := split_ws_from "" s.

(** [s.strip(chars)] and [s.strip()]. *)
Fixpoint lstrip (drop : ascii -> bool) (s : string) : string :=
  match s with
  | EmptyString => EmptyString
  | String c s' => if drop c then lstrip drop s' else s
  end.

Fixpoint rstrip (drop : ascii -> bool) (s : string) : string :=
  match s with
  | EmptyString => EmptyString
  | String c s' =>
      match rstrip drop s' with
      | EmptyString => if drop c then EmptyString else str1 c
      | String c' r => String c (String c' r)
      end
  end.

Definition strip (drop : ascii -> bool) (s : string) : string :=
  rstrip drop (lstrip drop s).

Definition strip_chars (chars : string) : string -> string :=
  strip (fun c => string_mem c chars).

Definition strip_ws : string -> string := strip is_space.

(** [c.upper()] for a code point below 256; [None] for the two letters
    whose capital lies above 255. *)
Definition upper_char (c : ascii) : option string :=
  let n := code c in
  if ((97 <=? n) && (n <=? 122))%N then Some (str1 (ascii_of_N (n - 32)))
  else if (n =? 223)%N then Some "SS"
  else if ((224 <=? n) && (n <=? 254) && negb (n =? 247))%N
       then Some (str1 (ascii_of_N (n - 32)))
  else if ((n =? 181) || (n =? 255))%N then None
  else Some (str1 c).

Fixpoint str_upper (s : string) : option string :=
  match s with
  | EmptyString => Some EmptyString
  | String c s' =>
      match upper_char c, str_upper s' with
      | Some u, Some r => Some (u ++ r)
      | _, _ => None
      end
  end.

(** [d.update(other)]. *)
Definition dict_update {V : Type} (d other : list (string * V)) : list (string * V) :=
  fold_left (fun acc kv => dict_set (fst kv) (snd kv) acc) other d.

(** [v.items()], [v.values()] and [v.split()]: methods of dictionaries
    and of strings only. *)
Definition py_items (v : pyval) : outcome (list (string * pyval)) :=
  match v with
  | PDict d => Ok d
  | _ => Raise AttributeError
  end.

Definition py_values (v : pyval) : outcome (list pyval) :=
  match v with
  | PDict d => Ok (map snd d)
  | _ => Raise AttributeError
  end.

Definition py_split (v : pyval) : outcome (list string) :=
  match v with
  | PStr s => Ok (split_ws s)
  | _ => Raise AttributeError
  end.

(** The truth value of a value, as [or] and [if] read it. *)
Definition py_truthy (v : pyval) : bool :=
  match v with
  | PNone => false
  | PBool b => b
  | PInt z => negb (z =? 0)%Z
  | PStr s => negb (String.eqb s "")
  | PList items => match items with [] => false | _ => true end
  | PDict entries => match entries with [] => false | _ => true end
  end.

(* ================================================================== *)
(** * MetadataFetcher *)

Definition placeholder : pyval := PStr "<YOUR_VALUE>".

(** [if key not in env_vars: env_vars[key] = value]. *)
Definition set_default (key : string) (value : pyval)
    (env_vars : list (string * pyval)) : list (string * pyval) :=
  if dict_mem key env_vars then env_vars else dict_set key value env_vars.

(** The loop over [package_info["engines"].items()]. *)
Fixpoint engine_variables (items : list (string * pyval))
    (env_vars : list (string * pyval)) : outcome (list (string * pyval)) :=
  match items with
  | [] => Ok env_vars
  | (engine, version) :: rest =>
      match str_upper engine with
      | Some upper =>
          engine_variables rest (set_default (upper ++ "_VERSION") version env_vars)
      | None => Unmodelled
      end
  end.

(** The words of a script that look like a shell variable. *)
Definition env_matches (words : list string) : list string :=
  filter (fun var => String.prefix "$" var && negb (String.prefix "$(" var)) words.

Definition clean_script_var (var : string) : string :=
  strip_ws (strip_chars "{}" (strip_chars "$" var)).

Definition add_placeholders (clean : string -> string) (vars : list string)
    (env_vars : list (string * pyval)) : list (string * pyval) :=
  fold_left (fun acc var => set_default (clean var) placeholder acc) vars env_vars.

(** The loop over [package_info["scripts"].values()]. *)
Fixpoint script_variables (scripts : list pyval)
    (env_vars : list (string * pyval)) : outcome (list (string * pyval)) :=
  match scripts with
  | [] => Ok env_vars
  | script_content :: rest =>
      match py_split script_content with
      | Ok words =>
          script_variables rest
            (add_placeholders clean_script_var (env_matches words) env_vars)
      | Raise e => Raise e
      | Unmodelled => Unmodelled
      end
  end.

Definition env_patterns : list string :=
  ["API_KEY"; "TOKEN"; "SECRET"; "PASSWORD"; "USERNAME";
   "ENDPOINT"; "URL"; "HOST"; "PORT"; "DATABASE"].

(** The punctuation stripped from a word of a description. *)
Definition description_punctuation : string :=
  "'" ++ str1 dquote ++ ",.;:()[]{}".

Definition clean_described_var (var : string) : string :=
  strip_ws (strip_chars description_punctuation var).

(** The words of a description that hold [pattern] and an underscore. *)
Definition compound_patterns (pattern : string) (words : list string) : list string :=
  filter (fun p => contains pattern p && contains "_" p) words.

(** One pattern against one description. *)
Definition pattern_variables (description : pyval) (pattern : string)
    (env_vars : list (string * pyval)) : outcome (list (string * pyval)) :=
  match py_in pattern description with
  | Ok true =>
      match py_split description with
      | Ok words =>
          Ok (add_placeholders clean_described_var
                (compound_patterns pattern words) env_vars)
      | Raise e => Raise e
      | Unmodelled => Unmodelled
      end
  | Ok false => Ok env_vars
  | Raise e => Raise e
  | Unmodelled => Unmodelled
  end.

Fixpoint scan_patterns (description : pyval) (patterns : list string)
    (env_vars : list (string * pyval)) : outcome (list (string * pyval)) :=
  match patterns with
  | [] => Ok env_vars
  | pattern :: rest =>
      match pattern_variables description pattern env_vars with
      | Ok env_vars' => scan_patterns description rest env_vars'
      | Raise e => Raise e
      | Unmodelled => Unmodelled
      end
  end.

Fixpoint scan_descriptions (descriptions : list pyval)
    (env_vars : list (string * pyval)) : outcome (list (string * pyval)) :=
  match descriptions with
  | [] => Ok env_vars
  | description :: rest =>
      match scan_patterns description env_patterns env_vars with
      | Ok env_vars' => scan_descriptions rest env_vars'
      | Raise e => Raise e
      | Unmodelled => Unmodelled
      end
  end.

(** The dictionary [fetch_package_metadata] returns. *)
Definition metadata (name : pyval) (env_vars : list (string * pyval)) : pyval :=
  PDict [("name", name); ("args", PList []); ("env", PDict env_vars)].

(** The address [curl] is sent to for a GitHub URL. *)
Definition raw_url_of (url : string) : string :=
  let raw_url := str_replace "github.com" "raw.githubusercontent.com" url in
  if ends_with "package.json" raw_url then raw_url
  else path_join raw_url "package.json".

(** What is read off the [package.json] of a GitHub repository. *)
Definition github_metadata (url : string) (package_info : pyval) : M pyval :=
  has_engines <- lift (py_in "engines" package_info) ;;
  env_vars <-
    (if has_engines
     then engines <- lift (py_subscript package_info "engines") ;;
          items <- lift (py_items engines) ;;
          lift (engine_variables items [])
     else ret []) ;;
  has_scripts <- lift (py_in "scripts" package_info) ;;
  env_vars <-
    (if has_scripts
     then scripts <- lift (py_subscript package_info "scripts") ;;
          values <- lift (py_values scripts) ;;
          lift (script_variables values env_vars)
     else ret env_vars) ;;
  name <- lift (py_get package_info "name" (PStr (basename url))) ;;
  ret (metadata name env_vars).

(** What is read off the answer of [npm view] for a package name. *)
Definition npm_metadata (url : string) (package_info : pyval) : M pyval :=
  description <- lift (py_get package_info "description" (PStr "")) ;;
  readme <- lift (py_get package_info "readme" (PStr "")) ;;
  env_vars <- lift (scan_descriptions [description; readme] []) ;;
  name <- lift (py_get package_info "name" (PStr url)) ;;
  ret (metadata name env_vars).

(** [fetch_package_metadata(url)]; a branch that ends without [return]
    yields [None] here and falls through to the default. *)
Definition fetch_package_metadata (url : string) : M pyval :=
  try_except
    (log INFO "Fetching package metadata from {url}" ;;
     found <-
       (if contains "github.com" url then
          out <- subprocess_run ["curl"; "-s"; raw_url_of url] ;;
          try_except
            (package_info <- lift (json_loads out) ;;
             result <- github_metadata url package_info ;;
             ret (Some result))
            (fun e =>
               match e with
               | JSONDecodeError =>
                   log WARNING "Could not parse package.json from {raw_url}" ;;
                   ret None
               | _ => raise e
               end)
        else if negb (String.prefix "http" url) then
          try_except
            (out <- subprocess_run ["npm"; "view"; url; "--json"] ;;
             package_info <- lift (json_loads out) ;;
             result <- npm_metadata url package_info ;;
             ret (Some result))
            (fun _ =>
               log WARNING "Could not fetch npm package info for {url}: {str(e)}" ;;
               ret None)
        else ret None) ;;
     match found with
     | Some result => ret result
     | None => ret (metadata (PStr (basename url)) [])
     end)
    (fun _ =>
       log ERROR "Failed to fetch package metadata: {str(e)}" ;;
       ret (metadata (PStr "") [])).

(* ================================================================== *)
(** * Programs that write files, the Supabase installer, [url --auto-detect] *)

(** [shutil.rmtree(d)]: the directory and all that lies under it. *)
Definition rmtree (d : string) : M unit :=
  fun w =>
    match fs w d with
    | Dir =>
        (Ok tt,
         set_fs (fun p => if String.eqb p d || String.prefix (d ++ "/") p
                          then Missing else fs w p) w)
    | File _ => (Raise NotADirectoryError, w)
    | Missing => (Raise FileNotFoundError, w)
    end.

(** The variables handed to the Supabase server: the two optional ones
    only when they are given and not empty. *)
Definition supabase_env (url api_key : string) (ref api_url : option string)
  : envmap :=
  ([("SUPABASE_URL", url); ("SUPABASE_API_KEY", api_key)]
   ++ match ref with
      | Some (String c r) => [("SUPABASE_PROJECT_REF", String c r)]
      | _ => []
      end
   ++ match api_url with
      | Some (String c r) => [("SUPABASE_MANAGEMENT_API", String c r)]
      | _ => []
      end)%list.

Definition github_url : string := "https://github.com/Deploya-labs/mcp-supabase".
Definition temp_dir : string := "temp-supabase-mcp".

Definition msg_manual : string :=
  nl ++ "To install Supabase MCP manually:" ++ nl
  ++ "1. Clone the repository: git clone https://github.com/Deploya-labs/mcp-supabase" ++ nl
  ++ "2. Install dependencies: cd mcp-supabase && npm install" ++ nl
  ++ "3. Install in Cursor: python3 tools/mcp_installer.py local ./mcp-supabase --env SUPABASE_URL=<your-url> SUPABASE_API_KEY=<your-key>"
  ++ nl ++ "            ".

(** A list of strings and a dictionary of strings read back from a value;
    other items and values are outside the model of the installers. *)
Fixpoint strings_of (items : list pyval) : outcome (list string) :=
  match items with
  | [] => Ok []
  | PStr s :: rest =>
      match strings_of rest with
      | Ok l => Ok (s :: l)
      | r => r
      end
  | _ :: _ => Unmodelled
  end.

Fixpoint env_of (entries : list (string * pyval)) : outcome envmap :=
  match entries with
  | [] => Ok []
  | (k, PStr s) :: rest =>
      match env_of rest with
      | Ok l => Ok ((k, s) :: l)
      | r => r
      end
  | _ :: _ => Unmodelled
  end.

Section ExternalWrites.

(** [git clone] and [npm install] write files.  What the [n]-th program
    run, called as [argv], makes of the file system is given. *)
Variable writes : nat -> list string -> (string -> fs_node) -> (string -> fs_node).

(** [subprocess.run(argv, cwd=cwd, check=True)]: the program cannot
    start in a directory that is not there. *)
Definition subprocess_call (cwd : option string) (argv : list string) : M unit :=
  fun w =>
    match match cwd with Some d => fs w d | None => Dir end with
    | Missing => (Raise FileNotFoundError, w)
    | File _ => (Raise NotADirectoryError, w)
    | Dir =>
        match exec w (ticks w) argv with
        | Exited rc _ =>
            let w' := mkWorld (home w) (writes (ticks w) argv (fs w)) (exec w)
                              (S (ticks w)) (trace w ++ [Run argv]) in
            if (rc =? 0)%Z then (Ok tt, w') else (Raise (CalledProcessError rc), w')
        | NoSuchProgram =>
            (Raise FileNotFoundError,
             mkWorld (home w) (fs w) (exec w) (S (ticks w)) (trace w ++ [Run argv]))
        end
    end.

(** The [except subprocess.CalledProcessError] branch of
    [install_supabase_mcp]: the server is cloned and installed from its
    directory. *)
Definition install_supabase_from_github (url api_key : string)
    (ref api_url : option string) : M bool :=
  log ERROR "Supabase MCP server package not found in npm registry" ;;
  log INFO "Installing from GitHub instead..." ;;
  try_except
    (log INFO "Cloning from {github_url}..." ;;
     present <- path_exists temp_dir ;;
     (if present then rmtree temp_dir else ret tt) ;;
     subprocess_call None ["git"; "clone"; github_url; temp_dir] ;;
     log INFO "Installing dependencies..." ;;
     subprocess_call (Some temp_dir) ["npm"; "install"] ;;
     success <- install_local_mcp_server temp_dir None
                  (Some (supabase_env url api_key ref api_url)) 3 ;;
     ret (truthy success))
    (fun _ =>
       log ERROR "Failed to install from GitHub: {str(e)}" ;;
       log INFO msg_manual ;;
       ret false).

(** [install_supabase_mcp(url, api_key, ref, api_url)]; the result is
    read as a truth value, which is all its caller does with it. *)
Definition install_supabase_mcp (url api_key : string)
    (ref api_url : option string) : M bool :=
  log INFO "Installing and configuring Supabase MCP server" ;;
  in_registry <-
    try_except
      (subprocess_run ["npm"; "view"; "supabase-mcp-server"; "version"] ;;
       ret true)
      (fun e =>
         match e with
         | CalledProcessError _ => ret false
         | _ => raise e
         end) ;;
  if negb in_registry then
    install_supabase_from_github url api_key ref api_url
  else
    try_except
      (success <- install_mcp_server "supabase-mcp-server" None
                    (Some (supabase_env url api_key ref api_url)) 3 ;;
       if truthy success then
         log INFO "Supabase MCP server installed and configured successfully" ;;
         log INFO "Restart Cursor for the changes to take effect" ;;
         ret true
       else
         log ERROR "Failed to install Supabase MCP server" ;;
         ret false)
      (fun _ =>
         log ERROR "Error installing Supabase MCP server: {str(e)}" ;;
         ret false).

(** The [if args.auto_detect:] branch of [main].  The installers of the
    model take a package name and variables that are strings: a detected
    name or value of another type leaves the model. *)
Definition url_auto_detect (ns : namespace) (env_dict : envmap) : M (option bool) :=
  url <- getattr (ns_url ns) ;;
  found <- fetch_package_metadata url ;;
  args <- getattr (ns_args ns) ;;
  args_to_use <-
    (match args with
     | Some (a :: rest) => ret (a :: rest)
     | _ =>
         detected <- lift (py_subscript found "args") ;;
         match detected with
         | PList items => lift (strings_of items)
         | _ => lift Unmodelled
         end
     end) ;;
  detected_env <- lift (py_subscript found "env") ;;
  entries <- lift (py_items detected_env) ;;
  env_strings <- lift (env_of entries) ;;
  let env_to_use := dict_update env_strings env_dict in
  if contains "github.com" url then
    let repo_name := basename url in
    subprocess_call None ["git"; "clone"; url; repo_name] ;;
    install_local_mcp_server repo_name (Some args_to_use) (Some env_to_use) 3
  else
    name <- lift (py_subscript found "name") ;;
    package <-
      (if py_truthy name
       then match name with
            | PStr s => ret s
            | _ => lift Unmodelled
            end
       else ret url) ;;
    install_mcp_server package (Some args_to_use) (Some env_to_use) 3.

(** The whole program: [main] with its two remaining branches. *)
Definition main_program (inv : invocation) : M Z :=
  main url_auto_detect install_supabase_mcp inv.

End ExternalWrites.

(* ================================================================== *)
(** * Notions used to state the properties *)

Definition add_events (es : list event) (w : world) : world :=
  mkWorld (home w) (fs w) (exec w) (ticks w) (trace w ++ es).

(** The path of the registry file under a home directory, and in a world. *)
Definition config_path_of (h : string) : string :=
  path_join (path_join h ".cursor") "mcp.json".

Definition config_path (w : world) : string := config_path_of (home w).

(** The registry a world holds: what [load_config] would read from its
    file, the empty registry when there is no file. *)
Definition registry_before (w : world) (config : pyval) : Prop :=
  match fs w (config_path w) with
  | Missing => config = empty_config
  | File text => json_loads text = Ok config
  | Dir => False
  end.

(** The entry stored under a server name, if the registry has one. *)
Definition server_of (config : pyval) (name : string) : option pyval :=
  match config with
  | PDict d =>
      match dict_get "mcpServers" d with
      | Some (PDict servers) => dict_get name servers
      | _ => None
      end
  | _ => None
  end.

(** The names under which a registry holds servers, in order. *)
Definition server_names (config : pyval) : list string :=
  match config with
  | PDict d =>
      match dict_get "mcpServers" d with
      | Some (PDict servers) => dict_keys servers
      | _ => []
      end
  | _ => []
  end.

(** A top-level entry of the registry document. *)
Definition top_level (config : pyval) (key : string) : option pyval :=
  match config with
  | PDict d => dict_get key d
  | _ => None
  end.

(** A word of [--env] without ["="]. *)
Definition malformed (env_var : string) : bool :=
  match split_once "=" env_var with
  | Some _ => false
  | None => true
  end.

(** The specification's reading of the environment map: a key is bound
    to the value of the last [KEY=VALUE] word that names it. *)
Fixpoint last_binding (key : string) (tokens : list string) : option string :=
  match tokens with
  | [] => None
  | env_var :: rest =>
      match last_binding key rest with
      | Some v => Some v
      | None =>
          match split_once "=" env_var with
          | Some (k, v) => if String.eqb key k then Some v else None
          | None => None
          end
      end
  end.

(** How many times an event occurs in a trace. *)
Definition event_eqb (a b : event) : bool :=
  match a, b with
  | Log INFO m, Log INFO m' => String.eqb m m'
  | Log WARNING m, Log WARNING m' => String.eqb m m'
  | Log ERROR m, Log ERROR m' => String.eqb m m'
  | Sleep s, Sleep s' => (s =? s')%Z
  | Run argv, Run argv' =>
      if list_eq_dec string_dec argv argv' then true else false
  | PrintHelp, PrintHelp => true
  | _, _ => false
  end.

Definition occurrences (e : event) (t : list event) : nat :=
  List.length (filter (event_eqb e) t).

Definition is_sleep (e : event) : bool :=
  match e with Sleep _ => true | _ => false end.

(** ** Well-formed values and their size *)

(** A value as Python holds it: no key occurs twice in a dictionary, at
    any depth. *)
Fixpoint wf_pyval (v : pyval) : Prop :=
  match v with
  | PList items =>
      (fix all (l : list pyval) : Prop :=
         match l with
         | [] => True
         | x :: l' => wf_pyval x /\ all l'
         end) items
  | PDict entries =>
      NoDup (dict_keys entries)
      /\ (fix all (l : list (string * pyval)) : Prop :=
            match l with
            | [] => True
            | kv :: l' => wf_pyval (snd kv) /\ all l'
            end) entries
  | _ => True
  end.

(** Fuel that suffices to parse the text of a value. *)
Fixpoint pyval_size (v : pyval) : nat :=
  match v with
  | PList items =>
      S ((fix sum (l : list pyval) : nat :=
            match l with
            | [] => O
            | x :: l' => S (pyval_size x + sum l')
            end) items)
  | PDict entries =>
      S ((fix sum (l : list (string * pyval)) : nat :=
            match l with
            | [] => O
            | kv :: l' => S (pyval_size (snd kv) + sum l')
            end) entries)
  | _ => 1
  end.

(** Induction on values, the items of lists and dictionaries included. *)
Section PyvalInduction.

Variable P : pyval -> Prop.
Hypothesis HNone : P PNone.
Hypothesis HBool : forall b, P (PBool b).
Hypothesis HInt : forall z, P (PInt z).
Hypothesis HStr : forall s, P (PStr s).
Hypothesis HList : forall items, Forall P items -> P (PList items).
Hypothesis HDict :
  forall entries, Forall (fun kv => P (snd kv)) entries -> P (PDict entries).

Fixpoint pyval_induction (v : pyval) : P v :=
  match v with
  | PNone => HNone
  | PBool b => HBool b
  | PInt z => HInt z
  | PStr s => HStr s
  | PList items =>
      HList items
        ((fix go (l : list pyval) : Forall P l :=
            match l with
            | [] => Forall_nil P
            | x :: l' => Forall_cons x (pyval_induction x) (go l')
            end) items)
  | PDict entries =>
      HDict entries
        ((fix go (l : list (string * pyval)) : Forall (fun kv => P (snd kv)) l :=
            match l with
            | [] => Forall_nil _
            | kv :: l' => Forall_cons kv (pyval_induction (snd kv)) (go l')
            end) entries)
  end.

End PyvalInduction.

(** What may follow the text of a value: not a character that would
    extend a number. *)
Definition tail_ok (rest : string) : bool :=
  match rest with
  | EmptyString => true
  | String c _ =>
      match digit_of_char c with
      | Some _ => false
      | None => negb (starts_fraction rest)
      end
  end.

Definition items_size (items : list pyval) : nat :=
  fold_right (fun x n => S (pyval_size x + n)) O items.

Definition entries_size (entries : list (string * pyval)) : nat :=
  fold_right (fun kv n => S (pyval_size (snd kv) + n)) O entries.

(** The first character of a number's text. *)
Definition number_start (c : ascii) : bool :=
  match digit_of_char c with
  | Some _ => true
  | None => Ascii.eqb c "-"
  end.

(** The first character of a value's text: no white space, no ["]"]. *)
Definition value_start (c : ascii) : bool :=
  negb (is_ws c) && negb (Ascii.eqb c "]").

(** The lines of the items of a list, and of the members of an object,
    written at depth [level]. *)
Definition elements_text (level : nat) (items : list pyval) : string :=
  concat_with ("," ++ newline_indent level) (map (json_dumps_indent level) items).

Definition members_text (level : nat) (entries : list (string * pyval)) : string :=
  concat_with ("," ++ newline_indent level)
    (map (fun kv => json_string (fst kv) ++ ": " ++ json_dumps_indent level (snd kv))
         entries).

(** What the round trip asks of one value: its text, at any depth and
    before any admissible rest, is parsed back to it with enough fuel. *)
Definition reads_back (v : pyval) : Prop :=
  wf_pyval v ->
  forall level fuel rest,
    (pyval_size v <= fuel)%nat ->
    tail_ok rest = true ->
    parse_value fuel (json_dumps_indent level v ++ rest) = Parsed v rest.

(** Two registries that differ at most in the server called [name]. *)
Definition only_differs_at (name : string) (config config' : pyval) : Prop :=
  (forall other, other <> name -> server_of config' other = server_of config other)
  /\ (forall key, key <> "mcpServers" -> top_level config' key = top_level config key).

(** The entry the specification expects after a registry-package install:
    [env] is there exactly when a map with at least one key was given. *)
Definition expected_entry (name : string) (args : option (list string))
    (env : option envmap) : pyval :=
  PDict ([("command", PStr "npx");
          ("args", PList (map PStr ("-y" :: name :: list_or_empty args)));
          ("type", PStr "stdio")]
         ++ match env with
            | Some (kv :: rest) =>
                [("env", PDict (map (fun b => (fst b, PStr (snd b))) (kv :: rest)))]
            | _ => []
            end).

(** An [env] argument that is a dictionary: no key twice. *)
Definition env_is_dict (env : option envmap) : Prop :=
  match env with
  | Some e => NoDup (dict_keys e)
  | None => True
  end.

(** ** Footprints: what a run may change *)

(** The two records that open an install. *)
Definition opens_install (e : event) : bool :=
  event_eqb (Log INFO msg_installing) e || event_eqb (Log INFO msg_installing_local) e.

Definition quiet (e : event) : bool := negb (opens_install e).

Definition touch_nothing (h p : string) : bool := false.

(** The paths an install may write under home [h]: the registry file, the
    directories above it, and [smithery.yaml]. *)
Definition touch_registry (h p : string) : bool :=
  String.eqb p (config_path_of h).

Definition touch_manifest (h p : string) : bool :=
  String.eqb p "smithery.yaml".

Definition touch_dirs (h p : string) : bool :=
  existsb (String.eqb p) (path_prefixes (dirname (config_path_of h))).

Definition touch_install (h p : string) : bool :=
  touch_registry h p || touch_manifest h p || touch_dirs h p.

(** [footprint touch emits m]: a run of [m] keeps the home directory and
    the external programs, changes files only at paths [touch] allows,
    and adds to the trace only events [emits] allows. *)
Definition footprint {A : Type} (touch : string -> string -> bool)
    (emits : event -> bool) (m : M A) : Prop :=
  forall w r w',
    m w = (r, w') ->
    home w' = home w
    /\ exec w' = exec w
    /\ (forall p, touch (home w) p = false -> fs w' p = fs w p)
    /\ exists new, trace w' = (trace w ++ new)%list /\ forallb emits new = true.

(** Two worlds of one environment: same home, files and programs. *)
Definition same_environment (w w' : world) : Prop :=
  home w' = home w
  /\ (forall p, fs w' p = fs w p)
  /\ (forall n argv, exec w' n argv = exec w n argv).

(** What an attempt of the compliance check leaves in the trace while it
    resolves a manifest and fails: the [npm view] run, or nothing for a
    local path. *)
Definition resolve_events (package_name : string) (local_path : option string)
  : list event :=
  match local_path with
  | Some (String _ _) => []
  | _ => [Run ["npm"; "view"; package_name; "--json"]]
  end.

(** The trace of [n] attempts in a row that all raise. *)
Fixpoint failed_attempts_trace (resolve : list event) (n : nat) : list event :=
  match n with
  | O => []
  | S n' =>
      ([Log INFO msg_checking] ++ resolve ++ [Log ERROR msg_attempt_failed]
       ++ match n' with
          | O => [Log ERROR msg_all_failed]
          | S _ => [Log INFO msg_waiting; Sleep 1]
          end
       ++ failed_attempts_trace resolve n')%list
  end.


(** The three compliance markers, in the specification's words. *)
Definition has_vendor_dependency (manifest : pyval) : Prop :=
  exists entries deps key,
    manifest = PDict entries
    /\ dict_get "dependencies" entries = Some (PDict deps)
    /\ In key (dict_keys deps)
    /\ String.prefix "@modelcontextprotocol/" key = true.

Definition mentions_protocol (manifest : pyval) : Prop :=
  contains "modelcontextprotocol" (py_str manifest) = true.

Definition has_tools_capability (manifest : pyval) : Prop :=
  exists entries caps,
    manifest = PDict entries
    /\ dict_get "capabilities" entries = Some (PDict caps)
    /\ dict_mem "tools" caps = true.

Definition marked (manifest : pyval) : Prop :=
  has_vendor_dependency manifest
  \/ mentions_protocol manifest
  \/ has_tools_capability manifest.

(** A manifest that is an object whose [dependencies] and [capabilities],
    when present, are objects too. *)
Definition object_shaped (manifest : pyval) : Prop :=
  exists entries,
    manifest = PDict entries
    /\ (forall v, dict_get "dependencies" entries = Some v -> exists d, v = PDict d)
    /\ (forall v, dict_get "capabilities" entries = Some v -> exists d, v = PDict d).

(** ** Notions of the further properties *)

(** Whether the [n]-th program run, called as [argv], ends with status 0. *)
Definition succeeds (w : world) (n : nat) (argv : list string) : bool :=
  match exec w n argv with
  | Exited rc _ => (rc =? 0)%Z
  | NoSuchProgram => false
  end.

(** What probing one tool leaves in the trace. *)
Definition probe_events (tool label : string) (available : bool) : list event :=
  [Run [tool; "--version"];
   if available then Log INFO (label ++ " is available")
   else Log WARNING (label ++ " is not available")].

(** [spends runs sleeps m]: a run of [m] keeps the home directory, the
    files and the external programs, starts at most [runs] programs and
    sleeps at most [sleeps] times. *)
Definition spends {A : Type} (runs sleeps : nat) (m : M A) : Prop :=
  forall w r w',
    m w = (r, w') ->
    home w' = home w
    /\ fs w' = fs w
    /\ exec w' = exec w
    /\ (ticks w <= ticks w' <= ticks w + runs)%nat
    /\ exists new, trace w' = (trace w ++ new)%list
                   /\ (List.length (filter is_sleep new) <= sleeps)%nat.

(** [yields P m]: whatever [m] returns satisfies [P]. *)
Definition yields {A : Type} (P : A -> Prop) (m : M A) : Prop :=
  forall w a w', m w = (Ok a, w') -> P a.

(** A value of the shape [fetch_package_metadata] returns. *)
Definition is_metadata (v : pyval) : Prop :=
  exists name env_vars, v = metadata name env_vars.

(** What [fetch_package_metadata] may end with: such a dictionary, or a
    run that left the modelled fragment; never an exception. *)
Definition is_metadata_result (r : outcome pyval) : Prop :=
  match r with
  | Ok v => is_metadata v
  | Raise _ => False
  | Unmodelled => True
  end.

(** What holds of every variable detected in a description: it has an
    underscore and one of the patterns in its name, and the placeholder
    as its value. *)
Definition described (kv : string * pyval) : Prop :=
  snd kv = placeholder
  /\ contains "_" (fst kv) = true
  /\ existsb (fun pattern => contains pattern (fst kv)) env_patterns = true.

(** [never_raises m]: no run of [m] ends in an exception. *)
Definition never_raises {A : Type} (m : M A) : Prop :=
  forall w e, fst (m w) <> Raise e.

(** The invocations for which [main] always comes to [sys.exit]: all but
    [supabase], [url --auto-detect] with a GitHub URL, and [smithery]
    with a [--command] that sends [main] into the branch of [local],
    [url] or [supabase], whose attributes the namespace then lacks. *)
Definition returns_status (inv : invocation) : bool :=
  match inv with
  | RunSupabase _ _ _ _ => false
  | RunUrl url _ _ true => negb (contains "github.com" url)
  | RunSmithery _ (Some c) _ _ =>
      negb (String.eqb c "local" || String.eqb c "url" || String.eqb c "supabase")
  | _ => true
  end.

(** An exit status of [main]: 0 or 1, or a run that left the modelled
    fragment; never an exception. *)
Definition is_exit_status (r : outcome Z) : Prop :=
  match r with
  | Ok z => z = 0%Z \/ z = 1%Z
  | Raise _ => False
  | Unmodelled => True
  end.

(** [costs runs sleeps m]: a run of [m] starts at most [runs] programs
    and sleeps at most [sleeps] times; it may write files. *)
Definition costs {A : Type} (runs sleeps : nat) (m : M A) : Prop :=
  forall w r w',
    m w = (r, w') ->
    (ticks w <= ticks w' <= ticks w + runs)%nat
    /\ exists new, trace w' = (trace w ++ new)%list
                   /\ (List.length (filter is_sleep new) <= sleeps)%nat.

(* ================================================================== *)
(** * Sample worlds *)

(** A home directory [/home/u] with nothing in it. *)
Definition sample_fs (p : string) : fs_node :=
  if String.eqb p "/" || String.eqb p "/home" || String.eqb p "/home/u"
  then Dir else Missing.

(** A machine on which no external program is installed. *)
Definition offline (n : nat) (argv : list string) : proc_outcome := NoSuchProgram.

Definition w_offline : world := mkWorld "/home/u" sample_fs offline 0 [].

(** A local package whose manifest names the protocol and sets
    [capabilities] to [null]. *)
Definition manifest_null_capabilities : pyval :=
  PDict [("name", PStr "demo-server");
         ("description", PStr "A modelcontextprotocol server");
         ("capabilities", PNone)].

(** A local package whose [capabilities] is a list of names. *)
Definition manifest_listed_capabilities : pyval :=
  PDict [("name", PStr "demo-server");
         ("capabilities", PList [PStr "tools"; PStr "prompts"])].

Definition local_fs (manifest : pyval) (p : string) : fs_node :=
  if String.eqb p "/srv/demo/package.json" then File (json_dumps manifest)
  else if String.eqb p "/srv/demo" || String.eqb p "/srv" then Dir
  else sample_fs p.

Definition w_local (manifest : pyval) : world :=
  mkWorld "/home/u" (local_fs manifest) offline 0 [].

(** A home directory that already has its [.cursor] directory. *)
Definition cursor_fs (p : string) : fs_node :=
  if String.eqb p "/home/u/.cursor" then Dir else sample_fs p.

Definition w_cursor : world := mkWorld "/home/u" cursor_fs offline 0 [].

(** A registry with one server. *)
Definition sample_registry : pyval :=
  PDict [("mcpServers",
          PDict [("files",
                  PDict [("command", PStr "npx");
                         ("args", PList [PStr "-y"; PStr "files-server"]);
                         ("type", PStr "stdio")])])].

(** A machine with [node], [npm] and [uvx], on which [npm view] answers
    with a manifest that depends on the protocol's SDK. *)
Definition compliant_manifest : pyval :=
  PDict [("name", PStr "example-pkg");
         ("dependencies", PDict [("@modelcontextprotocol/sdk", PStr "1.0")])].

Definition npm_machine (n : nat) (argv : list string) : proc_outcome :=
  match argv with
  | [_; "--version"] => Exited 0 "1.0.0"
  | ["npm"; "view"; _; "--json"] => Exited 0 (json_dumps compliant_manifest)
  | _ => NoSuchProgram
  end.

(** The home directory with a registry file of a given content. *)
Definition registry_fs (text : string) (p : string) : fs_node :=
  if String.eqb p "/home/u/.cursor/mcp.json" then File text else cursor_fs p.

Definition w_registry (text : string) : world :=
  mkWorld "/home/u" (registry_fs text) npm_machine 0 [].

(** The registry file holds [sample_registry]; holds the empty object,
    which has no [mcpServers]; holds text that is not JSON. *)
Definition w_installed : world := w_registry (json_dumps_indent 0 sample_registry).
Definition w_no_servers : world := w_registry (json_dumps (PDict [])).



(** [sample_registry] after [example-pkg] is installed with one extra
    argument and one environment variable. *)
Definition sample_registry_after : pyval :=
  PDict [("mcpServers",
          PDict [("files",
                  PDict [("command", PStr "npx");
                         ("args", PList [PStr "-y"; PStr "files-server"]);
                         ("type", PStr "stdio")]);
                 ("example-pkg",
                  PDict [("command", PStr "npx");
                         ("args", PList [PStr "-y"; PStr "example-pkg";
                                         PStr "--verbose"]);
                         ("type", PStr "stdio");
                         ("env", PDict [("X", PStr "1")])])])].

(** ** Further sample worlds *)

(** The world [w_installed] with a directory where [smithery.yaml]
    should be written. *)
Definition w_blocked : world :=
  mkWorld "/home/u"
          (fun p => if String.eqb p "smithery.yaml" then Dir
                    else registry_fs (json_dumps_indent 0 sample_registry) p)
          npm_machine 0 [].

(** [sample_registry] after [example-pkg] is installed with no argument
    and no variable, and the world [w_blocked] once that registry is
    saved. *)
Definition sample_registry_added : pyval :=
  PDict [("mcpServers",
          PDict [("files",
                  PDict [("command", PStr "npx");
                         ("args", PList [PStr "-y"; PStr "files-server"]);
                         ("type", PStr "stdio")]);
                 ("example-pkg",
                  PDict [("command", PStr "npx");
                         ("args", PList [PStr "-y"; PStr "example-pkg"]);
                         ("type", PStr "stdio")])])].

Definition w_blocked_saved : world :=
  snd (save_config sample_registry_added
         (snd (load_config
                 (snd (is_mcp_compliant "example-pkg" None 3
                         (snd (check_environment
                                 (add_event (Log INFO msg_installing) w_blocked)))))))).

(** A local package whose manifest gives the number 5 as its name, in a
    world whose registry has a server called ["5"]. *)
Definition manifest_numbered : pyval :=
  PDict [("name", PInt 5);
         ("dependencies", PDict [("@modelcontextprotocol/sdk", PStr "1.0")])].

Definition registry_five : pyval :=
  PDict [("mcpServers", PDict [("5", PDict [("command", PStr "old")])])].

Definition w_numbered : world :=
  mkWorld "/home/u"
          (fun p => if String.eqb p "/srv/demo/package.json"
                    then File (json_dumps manifest_numbered)
                    else if String.eqb p "/srv/demo" || String.eqb p "/srv" then Dir
                    else registry_fs (json_dumps_indent 0 registry_five) p)
          offline 0 [].

(** A manifest that names an engine and whose script mentions a variable
    with the name that engine gives. *)
Definition manifest_with_engine : list (string * pyval) :=
  [("engines", PDict [("node", PStr ">=18")]);
   ("scripts", PDict [("start", PStr "node $NODE_VERSION --port $PORT")])].

(** An answer of [npm view] whose description names two variables. *)
Definition described_manifest : pyval :=
  PDict [("name", PStr "weather-server");
         ("description",
          PStr "Set WEATHER_API_KEY and the PORT, or (SERVICE_TOKEN).")].

(** Programs that write nothing. *)
Definition no_writes (n : nat) (argv : list string) (f : string -> fs_node)
  : string -> fs_node := f.

(** The machine [npm_machine] on which [npm view <package> version]
    answers too, and the world [w_installed] on that machine. *)
Definition supabase_machine (n : nat) (argv : list string) : proc_outcome :=
  match argv with
  | ["npm"; "view"; _; "version"] => Exited 0 "1.0.0"
  | _ => npm_machine n argv
  end.

Definition w_supabase : world :=
  mkWorld "/home/u" (registry_fs (json_dumps_indent 0 sample_registry))
          supabase_machine 0 [].

(** A machine on which [npm] answers with an error and nothing else is
    installed, and a world on it that holds an old clone of the server. *)
Definition npm_fails (n : nat) (argv : list string) : proc_outcome :=
  match argv with
  | "npm" :: _ => Exited 1 ""
  | _ => NoSuchProgram
  end.

Definition w_old_clone : world :=
  mkWorld "/home/u"
          (fun p => if String.eqb p "temp-supabase-mcp" then Dir
                    else if String.eqb p "temp-supabase-mcp/notes.txt" then File "notes"
                    else cursor_fs p)
          npm_fails 0 [].

(** A machine on which [git] ends with an error and nothing else is
    installed. *)
Definition git_fails (n : nat) (argv : list string) : proc_outcome :=
  match argv with
  | "git" :: _ => Exited 128 ""
  | _ => NoSuchProgram
  end.

Definition w_git_fails : world := mkWorld "/home/u" cursor_fs git_fails 0 [].

(* ================================================================== *)
(** * Properties *)

(** ** Dictionaries *)

Lemma dict_get_set_same {V : Type} (k : string) (v : V) (d : list (string * V)) :
  dict_get k (dict_set k v d) = Some v.
Proof.
  induction d as [|[k' v'] d IH]; simpl.
  - now rewrite String.eqb_refl.
  - destruct (String.eqb k k') eqn:E; simpl.
    + now rewrite String.eqb_refl.
    + now rewrite E.
Qed.

Lemma dict_get_set_other {V : Type} (k k0 : string) (v : V) (d : list (string * V)) :
  k <> k0 -> dict_get k (dict_set k0 v d) = dict_get k d.
Proof.
  intros Hne. induction d as [|[k' v'] d IH]; simpl.
  - destruct (String.eqb k k0) eqn:E; [apply String.eqb_eq in E; contradiction | reflexivity].
  - destruct (String.eqb k0 k') eqn:E0; simpl.
    + apply String.eqb_eq in E0; subst k'.
      destruct (String.eqb k k0) eqn:E; [apply String.eqb_eq in E; contradiction | reflexivity].
    + destruct (String.eqb k k'); [reflexivity | apply IH].
Qed.

Lemma dict_keys_set {V : Type} (k : string) (v : V) (d : list (string * V)) :
  dict_keys (dict_set k v d)
  = if dict_mem k d then dict_keys d else (dict_keys d ++ [k])%list.
Proof.
  unfold dict_mem. induction d as [|[k' v'] d IH]; simpl; [reflexivity|].
  destruct (String.eqb k k') eqn:E; simpl.
  - apply String.eqb_eq in E; now subst.
  - rewrite IH. now destruct (dict_get k d).
Qed.

Lemma dict_get_none_not_in {V : Type} (k : string) (d : list (string * V)) :
  dict_get k d = None <-> ~ In k (dict_keys d).
Proof.
  induction d as [|[k' v'] d IH]; simpl.
  - tauto.
  - destruct (String.eqb k k') eqn:E.
    + apply String.eqb_eq in E. subst. split; [discriminate | intros H; exfalso; apply H; now left].
    + apply String.eqb_neq in E. rewrite IH. split.
      * intros H [H1 | H1]; [now subst | auto].
      * intros H H1. apply H. now right.
Qed.

Lemma dict_set_NoDup {V : Type} (k : string) (v : V) (d : list (string * V)) :
  NoDup (dict_keys d) -> NoDup (dict_keys (dict_set k v d)).
Proof.
  intros Hd. rewrite dict_keys_set. unfold dict_mem.
  destruct (dict_get k d) eqn:E; [assumption|].
  apply dict_get_none_not_in in E.
  apply NoDup_app; [assumption | constructor; [intros [] | constructor] |].
  intros x Hx [Hk | []]. now subst.
Qed.

(** ** Worlds *)

Lemma add_events_nil (w : world) : add_events [] w = w.
Proof. destruct w; unfold add_events; simpl. now rewrite List.app_nil_r. Qed.

Lemma add_event_events (e : event) (w : world) : add_event e w = add_events [e] w.
Proof. reflexivity. Qed.

Lemma add_events_app (es es' : list event) (w : world) :
  add_events es' (add_events es w) = add_events (es ++ es')%list w.
Proof. unfold add_events; simpl. now rewrite List.app_assoc. Qed.

(** ** Splitting at the first ["="] *)

Lemma split_once_none (sep : ascii) (s : string) :
  split_once sep s = None <-> string_mem sep s = false.
Proof.
  induction s as [|c s IH]; simpl; [tauto|].
  rewrite (Ascii.eqb_sym sep c).
  destruct (Ascii.eqb c sep); simpl.
  - split; discriminate.
  - destruct (split_once sep s) as [[a b]|]; rewrite <- IH; split; try discriminate; auto.
Qed.

Lemma split_once_some (sep : ascii) (s a b : string) :
  split_once sep s = Some (a, b) ->
  s = a ++ String sep b /\ string_mem sep a = false.
Proof.
  revert a b. induction s as [|c s IH]; simpl; intros a b H; [discriminate|].
  destruct (Ascii.eqb c sep) eqn:E.
  - apply Ascii.eqb_eq in E. inversion H; subst. now split.
  - destruct (split_once sep s) as [[a' b']|]; [|discriminate].
    inversion H; subst. destruct (IH a' b eq_refl) as [-> Hm].
    split; [reflexivity|]. simpl. rewrite Ascii.eqb_sym, E. exact Hm.
Qed.

(** ** The environment map of the command line *)

Lemma collect_env_spec (tokens : list string) :
  forall (acc : envmap) (w : world),
  exists env_dict,
    collect_env tokens acc w
    = (Ok env_dict,
       add_events (repeat (Log WARNING msg_ignoring)
                          (List.length (filter malformed tokens))) w)
    /\ (forall key,
          dict_get key env_dict
          = match last_binding key tokens with
            | Some v => Some v
            | None => dict_get key acc
            end)
    /\ (NoDup (dict_keys acc) -> NoDup (dict_keys env_dict)).
Proof.
  induction tokens as [|tok rest IH]; intros acc w; simpl.
  - exists acc. rewrite add_events_nil. auto.
  - unfold malformed at 1. destruct (split_once "=" tok) as [[k v]|] eqn:E.
    + destruct (IH (dict_set k v acc) w) as (env_dict & Hrun & Hget & Hnd).
      exists env_dict. split; [exact Hrun|]. split.
      * intros key. rewrite Hget.
        destruct (last_binding key rest); [reflexivity|].
        destruct (String.eqb key k) eqn:Ek.
        -- apply String.eqb_eq in Ek. subst. apply dict_get_set_same.
        -- apply String.eqb_neq in Ek. now apply dict_get_set_other.
      * intros Hacc. apply Hnd. now apply dict_set_NoDup.
    + destruct (IH acc (add_event (Log WARNING msg_ignoring) w))
        as (env_dict & Hrun & Hget & Hnd).
      exists env_dict. split.
      * unfold bind, log. rewrite Hrun. rewrite add_event_events, add_events_app.
        reflexivity.
      * split; [|exact Hnd].
        intros key. rewrite Hget. now destruct (last_binding key rest).
Qed.

(** C7.  The environment map is built from the [--env] words from left to
    right: every key is bound to the value of the last [KEY=VALUE] word
    that names it, a word without ["="] is dropped and costs one warning
    record and no error, and the words [A=1 B=2 bad A=3] give the map
    [{A: 3, B: 2}]. *)
Theorem env_map_last_write_wins (tokens : list string) (w : world) :
  (exists env_dict,
     collect_env tokens [] w
     = (Ok env_dict,
        add_events (repeat (Log WARNING msg_ignoring)
                           (List.length (filter malformed tokens))) w)
     /\ (forall key, dict_get key env_dict = last_binding key tokens)
     /\ NoDup (dict_keys env_dict))
  /\ (forall env_var, malformed env_var = true <-> string_mem "=" env_var = false)
  /\ (forall name path url command args auto_detect,
        process_env (parse_args (RunInstall name args (Some tokens)))
        = collect_env tokens []
        /\ process_env (parse_args (RunLocal path args (Some tokens)))
           = collect_env tokens []
        /\ process_env (parse_args (RunUrl url args (Some tokens) auto_detect))
           = collect_env tokens []
        /\ process_env (parse_args (RunSmithery name command args (Some tokens)))
           = collect_env tokens [])
  /\ collect_env ["A=1"; "B=2"; "bad"; "A=3"] [] w
     = (Ok [("A", "3"); ("B", "2")], add_event (Log WARNING msg_ignoring) w).
Proof.
  split; [|split; [|split]].
  - destruct (collect_env_spec tokens [] w) as (env_dict & Hrun & Hget & Hnd).
    exists env_dict. split; [exact Hrun|]. split.
    + intros key. rewrite Hget. now destruct (last_binding key tokens).
    + apply Hnd. constructor.
  - intros env_var. unfold malformed. rewrite <- split_once_none.
    destruct (split_once "=" env_var); split; congruence.
  - intros. repeat split.
  - reflexivity.
Qed.

(** ** Running the monad *)

Lemma bind_ok {A B : Type} (m : M A) (k : A -> M B) (w w' : world) (a : A) :
  m w = (Ok a, w') -> bind m k w = k a w'.
Proof. intros H. unfold bind. now rewrite H. Qed.

Lemma bind_raise {A B : Type} (m : M A) (k : A -> M B) (w w' : world) (e : exn) :
  m w = (Raise e, w') -> bind m k w = (Raise e, w').
Proof. intros H. unfold bind. now rewrite H. Qed.

Lemma bind_unmodelled {A B : Type} (m : M A) (k : A -> M B) (w w' : world) :
  m w = (Unmodelled, w') -> bind m k w = (Unmodelled, w').
Proof. intros H. unfold bind. now rewrite H. Qed.

Lemma try_except_ok {A : Type} (m : M A) (h : exn -> M A) (w w' : world) (a : A) :
  m w = (Ok a, w') -> try_except m h w = (Ok a, w').
Proof. intros H. unfold try_except. now rewrite H. Qed.

Lemma try_except_raise {A : Type} (m : M A) (h : exn -> M A) (w w' : world) (e : exn) :
  m w = (Raise e, w') -> try_except m h w = h e w'.
Proof. intros H. unfold try_except. now rewrite H. Qed.

Lemma try_except_unmodelled {A : Type} (m : M A) (h : exn -> M A) (w w' : world) :
  m w = (Unmodelled, w') -> try_except m h w = (Unmodelled, w').
Proof. intros H. unfold try_except. now rewrite H. Qed.

Lemma same_environment_refl (w : world) : same_environment w w.
Proof. repeat split. Qed.

Lemma same_environment_trans (w1 w2 w3 : world) :
  same_environment w1 w2 -> same_environment w2 w3 -> same_environment w1 w3.
Proof.
  intros (H1 & H2 & H3) (K1 & K2 & K3). repeat split.
  - congruence.
  - intros p. now rewrite K2.
  - intros n argv. now rewrite K3.
Qed.

Lemma same_environment_add_events (es : list event) (w : world) :
  same_environment w (add_events es w).
Proof. repeat split. Qed.

(** ** The retry loop of the compliance check *)

(** A manifest that cannot be resolved leaves the world as it was, but
    for the program run. *)
Lemma resolve_manifest_raise (package_name : string) (local_path : option string)
    (w w' : world) (e : exn) :
  resolve_manifest package_name local_path w = (Raise e, w') ->
  trace w' = (trace w ++ resolve_events package_name local_path)%list
  /\ same_environment w w'
  /\ (ticks w <= ticks w' <= S (ticks w))%nat.
Proof.
  assert (Hnpm : forall w w' e,
             bind (subprocess_run ["npm"; "view"; package_name; "--json"])
                  (fun out => lift (json_loads out)) w = (Raise e, w') ->
             trace w' = (trace w ++ [Run ["npm"; "view"; package_name; "--json"]])%list
             /\ same_environment w w'
             /\ (ticks w <= ticks w' <= S (ticks w))%nat).
  { clear. intros w w' e H. unfold bind, subprocess_run, lift in H.
    destruct (exec w (ticks w) _) as [rc out|].
    - destruct (rc =? 0)%Z.
      + destruct (json_loads out); inversion H; subst; simpl;
          repeat split; auto.
      + inversion H; subst; simpl; repeat split; auto.
    - inversion H; subst; simpl; repeat split; auto. }
  unfold resolve_manifest, resolve_events.
  destruct local_path as [[|c p]|]; try apply Hnpm.
  intros H. unfold check_package_json, try_except, bind, read_file, lift in H.
  assert (Hw : w' = w).
  { destruct (fs w (path_join (String c p) "package.json")).
    - destruct (parent_error _ _) as [[]|]; cbn in H; inversion H; reflexivity.
    - destruct (json_loads content) as [v|[]|]; cbn in H; inversion H; reflexivity.
    - cbn in H. inversion H; reflexivity. }
  subst w'. rewrite List.app_nil_r. repeat split; auto.
Qed.

Lemma failed_attempts_loop (package_name : string) (local_path : option string)
    (max_retries : Z) (remaining : nat) :
  forall (attempt : Z) (w : world),
    (attempt + Z.of_nat remaining = max_retries)%Z ->
    (forall w', same_environment w w' ->
                (ticks w <= ticks w' < ticks w + remaining)%nat ->
                exists e w'', resolve_manifest package_name local_path w' = (Raise e, w'')) ->
    exists w',
      retry_loop (is_compliant <- compliance_attempt package_name local_path ;;
                  ret (Some is_compliant))
                 max_retries attempt remaining w
      = (Ok (match remaining with O => None | S _ => Some false end), w')
      /\ trace w'
         = (trace w ++ failed_attempts_trace
                         (resolve_events package_name local_path) remaining)%list
      /\ same_environment w w'.
Proof.
  induction remaining as [|r IH]; intros attempt w Hinv Hres.
  - exists w. simpl. rewrite List.app_nil_r. repeat split.
  - destruct (Hres (add_event (Log INFO msg_checking) w)) as (e & w1 & Hr).
    { apply same_environment_add_events. }
    { simpl. lia. }
    destruct (resolve_manifest_raise _ _ _ _ _ Hr) as (Ht1 & Hs1 & Hk1).
    simpl in Ht1, Hk1. change (same_environment w w1) in Hs1.
    assert (Hattempt :
              bind (compliance_attempt package_name local_path)
                   (fun is_compliant => ret (Some is_compliant)) w
              = (Raise e, w1)).
    { unfold compliance_attempt. apply bind_raise.
      rewrite (bind_ok _ _ w (add_event (Log INFO msg_checking) w) tt) by reflexivity.
      now apply bind_raise. }
    cbn [retry_loop]. rewrite (try_except_raise _ _ _ _ _ Hattempt).
    rewrite (bind_ok _ _ w1 (add_event (Log ERROR msg_attempt_failed) w1) tt)
      by reflexivity.
    destruct r as [|r'].
    + assert (Hlast : (attempt <? max_retries - 1)%Z = false) by (apply Z.ltb_ge; lia).
      rewrite Hlast.
      eexists. split; [reflexivity|]. split.
      * simpl. rewrite Ht1. rewrite <- !List.app_assoc. reflexivity.
      * exact Hs1.
    + assert (Hmore : (attempt <? max_retries - 1)%Z = true) by (apply Z.ltb_lt; lia).
      rewrite Hmore.
      set (w2 := add_event (Sleep 1)
                   (add_event (Log INFO msg_waiting)
                      (add_event (Log ERROR msg_attempt_failed) w1))).
      assert (Hs2 : same_environment w w2) by exact Hs1.
      destruct (IH (attempt + 1)%Z w2) as (w' & Hrun & Htr & Hs').
      { lia. }
      { intros w' Hs Hk. apply Hres.
        - eapply same_environment_trans; eassumption.
        - subst w2; simpl in Hk. lia. }
      exists w'. split.
      * unfold bind at 1. unfold log at 1. unfold bind at 1. unfold sleep at 1.
        fold w2. exact Hrun.
      * split; [|eapply same_environment_trans; eassumption].
        rewrite Htr. subst w2. simpl. rewrite Ht1.
        rewrite <- !List.app_assoc. reflexivity.
Qed.

Lemma retry_loop_zero (body : M (option bool)) (max_retries attempt : Z) (w : world) :
  retry_loop body max_retries attempt 0 w = (Ok None, w).
Proof. reflexivity. Qed.

(** With one iteration or more left, and the counter in step with the
    bound, the loop ends with a truth value unless the body leaves the
    model: it neither raises nor falls off its end. *)
Lemma retry_loop_boolean (body : M (option bool)) (max_retries : Z) :
  (forall w x w', body w = (Ok x, w') -> x <> None) ->
  forall (remaining : nat) (attempt : Z) (w : world),
    (attempt + Z.of_nat (S remaining) = max_retries)%Z ->
    match fst (retry_loop body max_retries attempt (S remaining) w) with
    | Ok (Some _) | Unmodelled => True
    | Ok None | Raise _ => False
    end.
Proof.
  intros Hbody. induction remaining as [|r IH]; intros attempt w Hinv;
    cbn [retry_loop]; unfold try_except;
    destruct (body w) as [[x|e|] w1] eqn:Eb; simpl; auto.
  - destruct x; [exact I | now apply (Hbody _ _ _ Eb)].
  - unfold bind at 1, log at 1.
    assert (Hlast : (attempt <? max_retries - 1)%Z = false) by (apply Z.ltb_ge; lia).
    rewrite Hlast. exact I.
  - destruct x; [exact I | now apply (Hbody _ _ _ Eb)].
  - unfold bind at 1, log at 1.
    assert (Hmore : (attempt <? max_retries - 1)%Z = true) by (apply Z.ltb_lt; lia).
    rewrite Hmore. unfold bind at 1, log at 1. unfold bind at 1, sleep at 1.
    apply IH. lia.
Qed.

Lemma compliance_body_some (package_name : string) (local_path : option string) :
  forall w x w',
    bind (compliance_attempt package_name local_path)
         (fun is_compliant => ret (Some is_compliant)) w = (Ok x, w') ->
    x <> None.
Proof.
  intros w x w' H. unfold bind at 1 in H.
  destruct (compliance_attempt package_name local_path w) as [[b|e|] w1];
    inversion H; discriminate.
Qed.

Lemma install_attempt_some (name : string) (args : option (list string))
    (env : option envmap) :
  forall w x w', install_attempt name args env w = (Ok x, w') -> x <> None.
Proof.
  intros w x w' H. unfold install_attempt in H.
  repeat match type of H with
         | bind ?m ?k ?w = _ =>
             unfold bind at 1 in H;
             let E := fresh "E" in
             destruct (m w) as [[?|?|] ?] eqn:E; try discriminate
         | (if ?c then _ else _) ?w = _ => destruct c
         end;
    inversion H; discriminate.
Qed.

Lemma failed_attempts_trace_counts (resolve : list event) (n : nat) :
  occurrences (Log INFO msg_checking) resolve = 0%nat ->
  filter is_sleep resolve = [] ->
  occurrences (Log INFO msg_checking) (failed_attempts_trace resolve n) = n
  /\ filter is_sleep (failed_attempts_trace resolve n) = repeat (Sleep 1) (n - 1).
Proof.
  unfold occurrences. intros Hc Hs.
  induction n as [|n [IHc IHs]]; [split; reflexivity|].
  cbn [failed_attempts_trace]. rewrite !filter_app, !List.length_app, Hs.
  rewrite Hc, IHc, IHs.
  destruct n as [|n]; simpl; [split; reflexivity|].
  rewrite Nat.sub_0_r. split; reflexivity.
Qed.

Lemma resolve_events_counts (package_name : string) (local_path : option string) :
  occurrences (Log INFO msg_checking) (resolve_events package_name local_path) = 0%nat
  /\ filter is_sleep (resolve_events package_name local_path) = [].
Proof.
  unfold resolve_events. destruct local_path as [[|c p]|]; split; reflexivity.
Qed.

(** C3 (amended).  With [max_retries >= 1], when resolving the manifest
    raises on every attempt, the compliance check makes [max_retries]
    attempts, sleeps one second after each attempt but the last, and
    then returns [False]; no exception reaches the caller. *)
Theorem compliance_retries_then_false (package_name : string)
    (local_path : option string) (max_retries : Z) (w : world) :
  (1 <= max_retries)%Z ->
  (forall w', same_environment w w' ->
              (ticks w <= ticks w' < ticks w + Z.to_nat max_retries)%nat ->
              exists e w'', resolve_manifest package_name local_path w' = (Raise e, w'')) ->
  exists w' new,
    is_mcp_compliant package_name local_path max_retries w = (Ok (Some false), w')
    /\ trace w' = (trace w ++ new)%list
    /\ new = failed_attempts_trace (resolve_events package_name local_path)
                                   (Z.to_nat max_retries)
    /\ occurrences (Log INFO msg_checking) new = Z.to_nat max_retries
    /\ filter is_sleep new = repeat (Sleep 1) (Z.to_nat max_retries - 1)
    /\ same_environment w w'.
Proof.
  intros Hmr Hres.
  destruct (failed_attempts_loop package_name local_path max_retries
              (Z.to_nat max_retries) 0%Z w) as (w' & Hrun & Htr & Hs).
  { lia. }
  { exact Hres. }
  destruct (resolve_events_counts package_name local_path) as [Hc Hsl].
  destruct (failed_attempts_trace_counts _ (Z.to_nat max_retries) Hc Hsl) as [Hn Hf].
  exists w', (failed_attempts_trace (resolve_events package_name local_path)
                                    (Z.to_nat max_retries)).
  unfold is_mcp_compliant. rewrite Hrun.
  destruct (Z.to_nat max_retries) eqn:E; [lia|].
  repeat split; auto; apply Hs.
Qed.

Lemma offline_never_resolves (package_name : string) (w' : world) :
  same_environment w_offline w' ->
  exists e w'', resolve_manifest package_name None w' = (Raise e, w'').
Proof.
  intros (_ & _ & Hexec). unfold resolve_manifest, bind, subprocess_run.
  rewrite Hexec. simpl. eauto.
Qed.

Lemma compliance_retries_then_false_witness :
  exists w' new,
    is_mcp_compliant "example-pkg" None 3 w_offline = (Ok (Some false), w')
    /\ trace w' = (trace w_offline ++ new)%list
    /\ new = failed_attempts_trace (resolve_events "example-pkg" None) (Z.to_nat 3)
    /\ occurrences (Log INFO msg_checking) new = Z.to_nat 3
    /\ filter is_sleep new = repeat (Sleep 1) (Z.to_nat 3 - 1)
    /\ same_environment w_offline w'.
Proof.
  apply (compliance_retries_then_false "example-pkg" None 3 w_offline).
  - lia.
  - intros w' Hs _. now apply offline_never_resolves.
Defined.

(** C3 as stated fails for [max_retries = 0]: resolving raises whenever
    it is tried, yet the check returns [None], not [False]. *)
Lemma compliance_zero_retries_not_false :
  (forall w', same_environment w_offline w' ->
              exists e w'', resolve_manifest "example-pkg" None w' = (Raise e, w''))
  /\ is_mcp_compliant "example-pkg" None 0 w_offline = (Ok None, w_offline)
  /\ fst (is_mcp_compliant "example-pkg" None 0 w_offline) <> Ok (Some false).
Proof.
  split; [intros w'; apply offline_never_resolves|].
  split; [reflexivity | discriminate].
Qed.

(** C10.  Called with [max_retries = 0], [is_mcp_compliant] and
    [install_mcp_server] never enter their loop and return [None], the
    world untouched; either returns a truth value only when
    [max_retries >= 1], and then it does not return [None]. *)
Theorem zero_retries_return_none (package_name : string) (local_path : option string)
    (name : string) (args : option (list string)) (env : option envmap) (w : world) :
  is_mcp_compliant package_name local_path 0 w = (Ok None, w)
  /\ install_mcp_server name args env 0 w = (Ok None, w)
  /\ (forall max_retries b,
        fst (is_mcp_compliant package_name local_path max_retries w) = Ok (Some b)
        \/ fst (install_mcp_server name args env max_retries w) = Ok (Some b) ->
        (1 <= max_retries)%Z)
  /\ (forall max_retries,
        (1 <= max_retries)%Z ->
        fst (is_mcp_compliant package_name local_path max_retries w) <> Ok None
        /\ fst (install_mcp_server name args env max_retries w) <> Ok None).
Proof.
  split; [reflexivity|]. split; [reflexivity|]. split.
  - intros max_retries b H.
    destruct (Z.le_gt_cases 1 max_retries) as [|Hlt]; [assumption|exfalso].
    unfold is_mcp_compliant, install_mcp_server in H.
    replace (Z.to_nat max_retries) with 0%nat in H by lia.
    destruct H as [H|H]; discriminate H.
  - intros max_retries Hmr.
    unfold is_mcp_compliant, install_mcp_server.
    destruct (Z.to_nat max_retries) as [|r] eqn:E; [lia|].
    split.
    + pose proof (retry_loop_boolean _ max_retries
                    (compliance_body_some package_name local_path) r 0%Z w) as H.
      intros Hn. rewrite Hn in H. apply H. lia.
    + pose proof (retry_loop_boolean _ max_retries
                    (install_attempt_some name args env) r 0%Z w) as H.
      intros Hn. rewrite Hn in H. apply H. lia.
Qed.

(** ** The compliance indicators *)

Lemma existsb_prefix_keys (deps : list (string * pyval)) :
  existsb (String.prefix "@modelcontextprotocol/") (dict_keys deps) = true
  <-> exists key, In key (dict_keys deps)
                  /\ String.prefix "@modelcontextprotocol/" key = true.
Proof. apply existsb_exists. Qed.

(** On an object-shaped manifest the indicators are computed without an
    exception, and their disjunction is the presence of a marker. *)
Lemma compliance_indicators_object (manifest : pyval) (w : world) :
  object_shaped manifest ->
  exists b,
    compliance_indicators manifest w = (Ok b, w)
    /\ (b = true <-> marked manifest).
Proof.
  intros (entries & -> & Hdeps & Hcaps).
  unfold compliance_indicators, bind, lift, py_get, py_in, dict_mem.
  assert (Hd : exists deps,
             match dict_get "dependencies" entries with
             | Some x => x
             | None => PDict []
             end = PDict deps
             /\ (has_vendor_dependency (PDict entries)
                 <-> existsb (String.prefix "@modelcontextprotocol/")
                             (dict_keys deps) = true)).
  { destruct (dict_get "dependencies" entries) as [v|] eqn:E.
    - destruct (Hdeps v eq_refl) as [deps ->]. exists deps. split; [reflexivity|].
      rewrite existsb_prefix_keys. split.
      + intros (en & de & key & Hen & Hde & Hin & Hp).
        inversion Hen; subst en. rewrite E in Hde. inversion Hde; subst de. eauto.
      + intros (key & Hin & Hp). exists entries, deps, key. auto.
    - exists []. split; [reflexivity|]. simpl. split; [|discriminate].
      intros (en & de & key & Hen & Hde & _).
      inversion Hen; subst en. rewrite E in Hde. discriminate. }
  destruct Hd as (deps & -> & Hvendor). cbn [py_keys].
  destruct (dict_get "capabilities" entries) as [v|] eqn:E.
  - destruct (Hcaps v eq_refl) as [caps ->]. cbn.
    eexists. split; [reflexivity|].
    unfold marked. rewrite Hvendor, !orb_true_iff. unfold mentions_protocol.
    assert (Ht : has_tools_capability (PDict entries)
                 <-> match dict_get "tools" caps with
                     | Some _ => true
                     | None => false
                     end = true).
    { split.
      - intros (en & ca & Hen & Hca & Hm).
        inversion Hen; subst en. rewrite E in Hca. inversion Hca; subst ca. exact Hm.
      - intros Hm. exists entries, caps. auto. }
    rewrite Ht. tauto.
  - cbn. eexists. split; [reflexivity|].
    unfold marked. rewrite Hvendor, !orb_true_iff. unfold mentions_protocol.
    assert (Ht : ~ has_tools_capability (PDict entries)).
    { intros (en & ca & Hen & Hca & _).
      inversion Hen; subst en. rewrite E in Hca. discriminate. }
    intuition discriminate.
Qed.

(** C2 (amended).  When the first attempt resolves, without an exception,
    a manifest that is an object whose [dependencies] and [capabilities]
    are objects where present, the compliance check returns [True] if and
    only if one of the three markers holds, and [False] when none does. *)
Theorem compliance_iff_marked (package_name : string) (local_path : option string)
    (max_retries : Z) (w w1 : world) (manifest : pyval) :
  (1 <= max_retries)%Z ->
  resolve_manifest package_name local_path (add_event (Log INFO msg_checking) w)
  = (Ok manifest, w1) ->
  object_shaped manifest ->
  exists b w',
    is_mcp_compliant package_name local_path max_retries w = (Ok (Some b), w')
    /\ (b = true <-> marked manifest)
    /\ (~ marked manifest -> b = false).
Proof.
  intros Hmr Hres Hshape.
  destruct (compliance_indicators_object manifest w1 Hshape) as (b & Hind & Hb).
  exists b.
  unfold is_mcp_compliant.
  destruct (Z.to_nat max_retries) as [|r] eqn:E; [lia|].
  cbn [retry_loop].
  assert (Hattempt :
            exists w', bind (compliance_attempt package_name local_path)
                            (fun is_compliant => ret (Some is_compliant)) w
                       = (Ok (Some b), w')).
  { unfold compliance_attempt.
    unfold bind at 1. unfold bind at 1. unfold log at 1.
    unfold bind at 1. rewrite Hres.
    unfold bind at 1. rewrite Hind.
    destruct b; eexists; reflexivity. }
  destruct Hattempt as (w' & Hattempt).
  exists w'. rewrite (try_except_ok _ _ _ _ _ Hattempt).
  split; [reflexivity|]. split; [exact Hb|].
  intros Hn. destruct b; [exfalso; apply Hn; now apply Hb | reflexivity].
Qed.

Lemma compliance_iff_marked_witness :
  exists b w',
    is_mcp_compliant "demo" (Some "/srv/demo") 3
                     (w_local (PDict [("dependencies",
                                       PDict [("@modelcontextprotocol/sdk", PStr "1.0")])]))
    = (Ok (Some b), w')
    /\ (b = true
        <-> marked (PDict [("dependencies",
                            PDict [("@modelcontextprotocol/sdk", PStr "1.0")])]))
    /\ (~ marked (PDict [("dependencies",
                          PDict [("@modelcontextprotocol/sdk", PStr "1.0")])])
        -> b = false).
Proof.
  eapply (compliance_iff_marked "demo" (Some "/srv/demo") 3).
  - lia.
  - vm_compute. reflexivity.
  - eexists. split; [reflexivity|]. split; intros v H; vm_compute in H.
    + inversion H. eauto.
    + discriminate.
Defined.

(** C2 as stated fails on a manifest that is resolved without an
    exception, names the protocol in its description and sets
    [capabilities] to [null]: a marker holds, yet the check returns
    [False], the membership test on [null] raising on each attempt.  A
    manifest whose [capabilities] is a list that holds ["tools"] is
    reported compliant though it has none of the three markers. *)
Lemma compliance_not_iff_marked :
  (resolve_manifest "demo" (Some "/srv/demo")
     (add_event (Log INFO msg_checking) (w_local manifest_null_capabilities))
   = (Ok manifest_null_capabilities,
      add_event (Log INFO msg_checking) (w_local manifest_null_capabilities))
   /\ marked manifest_null_capabilities
   /\ fst (is_mcp_compliant "demo" (Some "/srv/demo") 3
                            (w_local manifest_null_capabilities))
      = Ok (Some false))
  /\ (resolve_manifest "demo" (Some "/srv/demo")
        (add_event (Log INFO msg_checking) (w_local manifest_listed_capabilities))
      = (Ok manifest_listed_capabilities,
         add_event (Log INFO msg_checking) (w_local manifest_listed_capabilities))
      /\ ~ marked manifest_listed_capabilities
      /\ fst (is_mcp_compliant "demo" (Some "/srv/demo") 3
                               (w_local manifest_listed_capabilities))
         = Ok (Some true)).
Proof.
  split; split; try (vm_compute; reflexivity); split; try (vm_compute; reflexivity).
  - right; left. vm_compute. reflexivity.
  - intros [H | [H | H]].
    + destruct H as (en & de & key & Hen & Hde & _).
      inversion Hen; subst en. vm_compute in Hde. discriminate.
    + vm_compute in H. discriminate.
    + destruct H as (en & ca & Hen & Hca & _).
      inversion Hen; subst en. vm_compute in Hca. discriminate.
Qed.

(** ** A local path that does not exist *)

(** C6.  When the path does not exist, the local-path install returns
    [False] after two log records; it runs no program and leaves every
    file as it was, so the registry is neither loaded nor saved. *)
Theorem local_install_missing_path (path : string) (args : option (list string))
    (env : option envmap) (max_retries : Z) (w : world) :
  fs w path = Missing ->
  exists w',
    install_local_mcp_server path args env max_retries w = (Ok (Some false), w')
    /\ fs w' = fs w
    /\ ticks w' = ticks w
    /\ trace w' = (trace w ++ [Log INFO msg_installing_local;
                               Log ERROR "Path does not exist: {path}"])%list.
Proof.
  intros Hmissing. eexists.
  unfold install_local_mcp_server, install_local_body, try_except, bind, log,
    path_exists. simpl.
  rewrite Hmissing. simpl. split; [reflexivity|].
  split; [reflexivity|]. split; [reflexivity|].
  simpl. now rewrite <- List.app_assoc.
Qed.

Lemma local_install_missing_path_witness :
  exists w',
    install_local_mcp_server "/srv/nothing" None None 3 w_offline = (Ok (Some false), w')
    /\ fs w' = fs w_offline
    /\ ticks w' = ticks w_offline
    /\ trace w' = (trace w_offline ++ [Log INFO msg_installing_local;
                                       Log ERROR "Path does not exist: {path}"])%list.
Proof.
  apply (local_install_missing_path "/srv/nothing" None None 3 w_offline).
  reflexivity.
Defined.

(** ** The [smithery] subcommand *)

Section SmitheryCommand.

Variable url_auto_detect : namespace -> envmap -> M (option bool).
Variable install_supabase_mcp :
  string -> string -> option string -> option string -> M bool.

(** C5, the code at the failing input.  [smithery <name>] without
    [--command]: the namespace holds [command = "npx"], no branch of
    [main] matches it, the help text is printed and the exit status is 1;
    [generate_smithery_yaml] is not called and no file is written.  The
    same happens with [--command c] for every [c] that is not the name of
    a subcommand. *)
Theorem smithery_subcommand_not_dispatched (name : string) (command : option string)
    (args env : option (list string)) (w : world) :
  match command with
  | None => True
  | Some c =>
      existsb (String.eqb c) ["install"; "local"; "url"; "supabase"; "smithery"] = false
  end ->
  exists warnings,
    main url_auto_detect install_supabase_mcp (RunSmithery name command args env) w
    = (Ok 1%Z, add_events (warnings ++ [PrintHelp]) w)
    /\ Forall (fun e => e = Log WARNING msg_ignoring) warnings.
Proof.
  intros Hc.
  assert (Henv : exists env_dict warnings,
             process_env (parse_args (RunSmithery name command args env)) w
             = (Ok env_dict, add_events warnings w)
             /\ Forall (fun e => e = Log WARNING msg_ignoring) warnings).
  { unfold process_env. destruct env as [tokens|]; cbn.
    - destruct (collect_env_spec tokens [] w) as (env_dict & Hrun & _).
      exists env_dict. eexists. split; [exact Hrun|].
      apply Forall_forall. intros e He. now apply repeat_spec in He.
    - exists [], []. rewrite add_events_nil. split; [reflexivity | constructor]. }
  destruct Henv as (env_dict & warnings & Hrun & Hw).
  exists warnings. split; [|exact Hw].
  unfold main, main_dispatch. rewrite (bind_ok _ _ _ _ _ Hrun).
  assert (Hcmd : forall c,
             existsb (String.eqb c) ["install"; "local"; "url"; "supabase"; "smithery"]
             = false ->
             (if String.eqb c "install" then true
              else if String.eqb c "local" then true
              else if String.eqb c "url" then true
              else if String.eqb c "supabase" then true
              else String.eqb c "smithery") = false).
  { intros c H. cbn in H. rewrite !orb_false_iff in H.
    destruct H as (-> & -> & -> & -> & -> & _). reflexivity. }
  assert (Hns : exists c,
             ns_command (parse_args (RunSmithery name command args env)) = Some c
             /\ existsb (String.eqb c) ["install"; "local"; "url"; "supabase"; "smithery"]
                = false).
  { destruct command as [c|]; cbn; eauto. }
  destruct Hns as (c & -> & Hno). specialize (Hcmd c Hno).
  destruct (String.eqb c "install"); [discriminate|].
  destruct (String.eqb c "local"); [discriminate|].
  destruct (String.eqb c "url"); [discriminate|].
  destruct (String.eqb c "supabase"); [discriminate|].
  destruct (String.eqb c "smithery"); [discriminate|].
  unfold bind, print_help, ret. rewrite add_event_events, add_events_app. reflexivity.
Qed.

End SmitheryCommand.

Lemma smithery_subcommand_not_dispatched_witness :
  exists warnings,
    main (fun _ _ => ret None) (fun _ _ _ _ => ret true)
         (RunSmithery "my-server" None None None) w_offline
    = (Ok 1%Z, add_events (warnings ++ [PrintHelp]) w_offline)
    /\ Forall (fun e => e = Log WARNING msg_ignoring) warnings.
Proof.
  apply (smithery_subcommand_not_dispatched
           (fun _ _ => ret None) (fun _ _ _ _ => ret true)
           "my-server" None None None w_offline).
  exact I.
Defined.

(** ** Footprints of the primitives and of what is built from them *)

Section Footprints.

Context {touch : string -> string -> bool} {emits : event -> bool}.

Lemma footprint_ret {A : Type} (a : A) : footprint touch emits (ret a).
Proof.
  intros w r w' H. inversion H; subst. repeat split; auto.
  exists []. now rewrite List.app_nil_r.
Qed.

Lemma footprint_raise {A : Type} (e : exn) : footprint touch emits (@raise A e).
Proof.
  intros w r w' H. inversion H; subst. repeat split; auto.
  exists []. now rewrite List.app_nil_r.
Qed.

Lemma footprint_lift {A : Type} (o : outcome A) : footprint touch emits (lift o).
Proof.
  intros w r w' H. inversion H; subst. repeat split; auto.
  exists []. now rewrite List.app_nil_r.
Qed.

Lemma footprint_event {A : Type} (a : A) (e : event) :
  emits e = true -> footprint touch emits (fun w => (Ok a, add_event e w)).
Proof.
  intros He w r w' H. inversion H; subst. repeat split; auto.
  exists [e]. simpl. now rewrite He.
Qed.

Lemma footprint_log (lvl : level) (msg : string) :
  emits (Log lvl msg) = true -> footprint touch emits (log lvl msg).
Proof. apply footprint_event. Qed.

Lemma footprint_sleep (s : Z) :
  emits (Sleep s) = true -> footprint touch emits (sleep s).
Proof. apply footprint_event. Qed.

Lemma footprint_print_help :
  emits PrintHelp = true -> footprint touch emits print_help.
Proof. apply footprint_event. Qed.

Lemma footprint_subprocess_run (argv : list string) :
  emits (Run argv) = true -> footprint touch emits (subprocess_run argv).
Proof.
  intros He w r w' H. unfold subprocess_run in H.
  assert (Hw : w' = mkWorld (home w) (fs w) (exec w) (S (ticks w))
                            (trace w ++ [Run argv])).
  { destruct (exec w (ticks w) argv) as [rc out|];
      [destruct (rc =? 0)%Z|]; inversion H; reflexivity. }
  subst w'. repeat split; auto. exists [Run argv]. simpl. now rewrite He.
Qed.

Lemma footprint_path_exists (p : string) : footprint touch emits (path_exists p).
Proof.
  intros w r w' H. inversion H; subst. repeat split; auto.
  exists []. now rewrite List.app_nil_r.
Qed.

Lemma footprint_read_file (p : string) : footprint touch emits (read_file p).
Proof.
  intros w r w' H. unfold read_file in H.
  assert (Hw : w' = w).
  { destruct (fs w p); [destruct (parent_error (fs w) p) as [[]|]| |];
      inversion H; reflexivity. }
  subst w'. repeat split; auto. exists []. now rewrite List.app_nil_r.
Qed.

Lemma footprint_getattr {A : Type} (a : option A) : footprint touch emits (getattr a).
Proof. destruct a; [apply footprint_ret | apply footprint_raise]. Qed.

Lemma footprint_bind {A B : Type} (m : M A) (k : A -> M B) :
  footprint touch emits m ->
  (forall a, footprint touch emits (k a)) ->
  footprint touch emits (bind m k).
Proof.
  intros Hm Hk w r w' H. unfold bind in H.
  destruct (m w) as [[a|e|] w1] eqn:Em;
    destruct (Hm _ _ _ Em) as (Hh & He & Hf & new & Ht & Hn).
  - destruct (Hk a _ _ _ H) as (Hh' & He' & Hf' & new' & Ht' & Hn').
    split; [congruence|]. split; [congruence|]. split.
    + intros p Hp. rewrite Hf' by (now rewrite Hh). now apply Hf.
    + exists (new ++ new')%list. rewrite Ht', Ht, List.app_assoc, forallb_app, Hn, Hn'.
      now split.
  - inversion H; subst. repeat split; auto. now exists new.
  - inversion H; subst. repeat split; auto. now exists new.
Qed.

Lemma footprint_try_except {A : Type} (m : M A) (h : exn -> M A) :
  footprint touch emits m ->
  (forall e, footprint touch emits (h e)) ->
  footprint touch emits (try_except m h).
Proof.
  intros Hm Hh w r w' H. unfold try_except in H.
  destruct (m w) as [[a|e|] w1] eqn:Em;
    destruct (Hm _ _ _ Em) as (Hh1 & He & Hf & new & Ht & Hn).
  - inversion H; subst. repeat split; auto. now exists new.
  - destruct (Hh e _ _ _ H) as (Hh' & He' & Hf' & new' & Ht' & Hn').
    split; [congruence|]. split; [congruence|]. split.
    + intros p Hp. rewrite Hf' by (now rewrite Hh1). now apply Hf.
    + exists (new ++ new')%list. rewrite Ht', Ht, List.app_assoc, forallb_app, Hn, Hn'.
      now split.
  - inversion H; subst. repeat split; auto. now exists new.
Qed.

Lemma footprint_write_file (p content : string) :
  (forall h, touch h p = true) -> footprint touch emits (write_file p content).
Proof.
  intros Hp w r w' H. unfold write_file in H.
  destruct (parent_error (fs w) p).
  - inversion H; subst. repeat split; auto. exists []. now rewrite List.app_nil_r.
  - assert (Hw : w' = w \/ w' = set_fs (fs_update p (File content) (fs w)) w).
    { destruct (fs w p); inversion H; auto. }
    destruct Hw as [-> | ->]; simpl.
    + repeat split; auto. exists []. now rewrite List.app_nil_r.
    + repeat split; auto.
      * intros q Hq. unfold fs_update.
        destruct (String.eqb q p) eqn:E; [|reflexivity].
        apply String.eqb_eq in E. subst q. rewrite Hp in Hq. discriminate.
      * exists []. now rewrite List.app_nil_r.
Qed.

End Footprints.

Arguments footprint_bind {touch emits A B} m k _ _.

Lemma footprint_weaken {A : Type} (touch touch' : string -> string -> bool)
    (emits : event -> bool) (m : M A) :
  (forall h p, touch h p = true -> touch' h p = true) ->
  footprint touch emits m -> footprint touch' emits m.
Proof.
  intros Hsub Hm w r w' H. destruct (Hm _ _ _ H) as (Hh & He & Hf & Hn).
  repeat split; auto. intros p Hp. apply Hf.
  destruct (touch (home w) p) eqn:E; [|reflexivity].
  apply Hsub in E. congruence.
Qed.

(** One step of a footprint proof, by the shape of the program. *)
Ltac footprint_step :=
  match goal with
  | |- footprint _ _ (bind _ _) => apply footprint_bind; [|intros ?]
  | |- footprint _ _ (try_except _ _) => apply footprint_try_except; [|intros ?]
  | |- footprint _ _ (ret _) => apply footprint_ret
  | |- footprint _ _ (raise _) => apply footprint_raise
  | |- footprint _ _ (lift _) => apply footprint_lift
  | |- footprint _ _ (getattr _) => apply footprint_getattr
  | |- footprint _ _ (log _ _) => apply footprint_log; reflexivity
  | |- footprint _ _ (sleep _) => apply footprint_sleep; reflexivity
  | |- footprint _ _ print_help => apply footprint_print_help; reflexivity
  | |- footprint _ _ (subprocess_run _) => apply footprint_subprocess_run; reflexivity
  | |- footprint _ _ (path_exists _) => apply footprint_path_exists
  | |- footprint _ _ (read_file _) => apply footprint_read_file
  | |- footprint _ _ (if ?c then _ else _) => destruct c
  | |- footprint _ _ (match ?x with _ => _ end) => destruct x
  end.

Ltac footprint_auto := repeat footprint_step; try assumption.

Lemma footprint_check_environment :
  footprint touch_nothing quiet check_environment.
Proof. unfold check_environment, probe. footprint_auto. Qed.

Lemma footprint_check_package_json (touch : string -> string -> bool) (path : string) :
  footprint touch quiet (check_package_json path).
Proof. unfold check_package_json. footprint_auto. Qed.

Lemma footprint_compliance_attempt (touch : string -> string -> bool)
    (package_name : string) (local_path : option string) :
  footprint touch quiet (compliance_attempt package_name local_path).
Proof.
  unfold compliance_attempt, resolve_manifest, compliance_indicators.
  footprint_auto; apply footprint_check_package_json.
Qed.

Lemma footprint_retry_loop (touch : string -> string -> bool)
    (body : M (option bool)) (max_retries : Z) (remaining : nat) :
  footprint touch quiet body ->
  forall attempt, footprint touch quiet (retry_loop body max_retries attempt remaining).
Proof.
  intros Hbody. induction remaining as [|r IH]; intros attempt; cbn [retry_loop].
  - apply footprint_ret.
  - footprint_auto. apply IH.
Qed.

Lemma footprint_is_mcp_compliant (touch : string -> string -> bool)
    (package_name : string) (local_path : option string) (max_retries : Z) :
  footprint touch quiet (is_mcp_compliant package_name local_path max_retries).
Proof.
  unfold is_mcp_compliant. apply footprint_retry_loop.
  footprint_auto. apply footprint_compliance_attempt.
Qed.

(** ** Paths *)

Lemma string_length_app (a b : string) :
  String.length (a ++ b) = (String.length a + String.length b)%nat.
Proof. induction a as [|c a IH]; simpl; [reflexivity | now rewrite IH]. Qed.

Lemma string_app_assoc (a b c : string) : (a ++ b) ++ c = a ++ (b ++ c).
Proof. induction a as [|x a IH]; simpl; [reflexivity | now rewrite IH]. Qed.

Lemma rsplit_slash_none (z : string) :
  string_mem "/" z = false -> rsplit_slash z = None.
Proof.
  induction z as [|c z IH]; cbn [string_mem rsplit_slash]; [reflexivity|].
  rewrite Ascii.eqb_sym. intros H. apply orb_false_iff in H. destruct H as [Hc Hz].
  now rewrite (IH Hz), Hc.
Qed.

Lemma rsplit_slash_app (y z : string) :
  string_mem "/" z = false ->
  rsplit_slash (y ++ String "/" z) = Some (y, z).
Proof.
  intros Hz. induction y as [|c y IH]; cbn [append rsplit_slash].
  - now rewrite (rsplit_slash_none z Hz), Ascii.eqb_refl.
  - now rewrite IH.
Qed.

Lemma rsplit_slash_app_tail (y z : string) :
  string_mem "/" z = false ->
  rsplit_slash (y ++ z)
  = match rsplit_slash y with
    | Some (a, b) => Some (a, b ++ z)
    | None => None
    end.
Proof.
  intros Hz. induction y as [|c y IH]; cbn [append rsplit_slash].
  - now apply rsplit_slash_none.
  - rewrite IH. destruct (rsplit_slash y) as [[a b]|]; [reflexivity|].
    now destruct (Ascii.eqb c "/").
Qed.

(** The directory of the registry file under home [h]. *)
Lemma config_path_shape (h : string) :
  exists d,
    config_path_of h = d ++ "/mcp.json"
    /\ dirname (config_path_of h) = d
    /\ (7 <= String.length d)%nat.
Proof.
  unfold config_path_of.
  assert (Hd : exists y, path_join h ".cursor" = y ++ ".cursor").
  { unfold path_join. change (String.prefix "/" ".cursor") with false.
    destruct (String.eqb h "" || ends_with_slash h).
    - now exists h.
    - exists (h ++ "/"). now rewrite string_app_assoc. }
  destruct Hd as (y & Hy). rewrite Hy. clear Hy.
  set (d := y ++ ".cursor").
  assert (Hlen : (7 <= String.length d)%nat).
  { subst d. rewrite string_length_app. simpl. lia. }
  assert (Hne : String.eqb d "" = false).
  { destruct d; [simpl in Hlen; lia | reflexivity]. }
  assert (Hslash : ends_with_slash d = false).
  { unfold ends_with_slash. subst d.
    rewrite (rsplit_slash_app_tail y ".cursor") by reflexivity.
    destruct (rsplit_slash y) as [[a b]|]; [|reflexivity].
    destruct b; reflexivity. }
  assert (Hjoin : path_join d "mcp.json" = d ++ String "/" "mcp.json").
  { unfold path_join. change (String.prefix "/" "mcp.json") with false.
    now rewrite Hne, Hslash. }
  exists d. rewrite Hjoin. split; [reflexivity|]. split; [|exact Hlen].
  unfold dirname. rewrite (rsplit_slash_app d "mcp.json") by reflexivity.
  destruct d; [simpl in Hlen; lia | reflexivity].
Qed.

Lemma config_path_not_manifest (h : string) :
  String.eqb (config_path_of h) "smithery.yaml" = false.
Proof.
  destruct (config_path_shape h) as (d & Hp & _ & Hlen).
  apply String.eqb_neq. intros H.
  assert (Hl : String.length (config_path_of h) = String.length "smithery.yaml")
    by now rewrite H.
  rewrite Hp, string_length_app in Hl. simpl in Hl. lia.
Qed.

Lemma path_prefixes_from_length (s : string) :
  forall done q,
    In q (path_prefixes_from done s) ->
    (String.length q <= String.length done + String.length s)%nat.
Proof.
  induction s as [|c s IH]; intros done q H; simpl in H.
  - destruct (String.eqb done ""); [contradiction|].
    destruct H as [<- | []]. simpl. lia.
  - destruct (Ascii.eqb c "/" && negb (String.eqb done "")).
    + destruct H as [<- | H]; [simpl; lia|].
      apply IH in H. rewrite string_length_app in H. simpl in *. lia.
    + apply IH in H. rewrite string_length_app in H. simpl in *. lia.
Qed.

Lemma config_path_not_dir (h : string) :
  touch_dirs h (config_path_of h) = false.
Proof.
  unfold touch_dirs. destruct (config_path_shape h) as (d & Hp & Hd & _).
  rewrite Hd.
  destruct (existsb _ _) eqn:E; [|reflexivity].
  apply existsb_exists in E. destruct E as (q & Hin & Heq).
  apply String.eqb_eq in Heq. subst q.
  apply path_prefixes_from_length in Hin. rewrite Hp, string_length_app in Hin.
  simpl in Hin. lia.
Qed.

(** ** ConfigStore *)

Lemma mkdir_chain_frame (ps : list string) :
  forall f r f',
    mkdir_chain ps f = (r, f') ->
    forall p, existsb (String.eqb p) ps = false -> f' p = f p.
Proof.
  induction ps as [|q ps IH]; intros f r f' H p Hp; simpl in *.
  - now inversion H.
  - apply orb_false_iff in Hp. destruct Hp as [Hq Hps].
    destruct (f q).
    + rewrite (IH _ _ _ H p Hps). unfold fs_update. now rewrite Hq.
    + now inversion H.
    + apply (IH _ _ _ H p Hps).
Qed.

(** [load_config] writes no file: it may create the directories above
    the registry file, and what it returns is the registry the world
    holds. *)
Lemma load_config_spec (w w' : world) (r : outcome pyval) :
  load_config w = (r, w') ->
  home w' = home w /\ exec w' = exec w /\ ticks w' = ticks w /\ trace w' = trace w
  /\ (forall p, touch_dirs (home w) p = false -> fs w' p = fs w p)
  /\ (forall config, r = Ok config -> registry_before w config).
Proof.
  unfold load_config, bind, get_config_path, path_exists, registry_before.
  fold (config_path_of (home w)). fold (config_path w).
  destruct (fs w (config_path w)) as [|text|] eqn:E; cbn [negb].
  - unfold mkdir_parents.
    destruct (mkdir_chain _ (fs w)) as [r0 f] eqn:Ec.
    pose proof (mkdir_chain_frame _ _ _ _ Ec) as Hf.
    destruct r0 as [[]|e|]; intros H; inversion H; subst; simpl;
      (split; [reflexivity|]); (split; [reflexivity|]); (split; [reflexivity|]);
      (split; [reflexivity|]); (split; [exact Hf|]); intros config Hc;
      inversion Hc; reflexivity.
  - unfold read_file. rewrite E. unfold lift. intros H. inversion H; subst.
    repeat split; auto.
  - unfold read_file. rewrite E. intros H. inversion H; subst.
    repeat split; auto. intros; discriminate.
Qed.

Lemma footprint_load_config : footprint touch_dirs quiet load_config.
Proof.
  intros w r w' H. destruct (load_config_spec _ _ _ H) as (Hh & He & _ & Ht & Hf & _).
  repeat split; auto. exists []. now rewrite List.app_nil_r.
Qed.

(** [save_config] either writes the registry file and nothing else, or
    raises and changes nothing. *)
Lemma save_config_spec (config : pyval) (w w' : world) (r : outcome unit) :
  save_config config w = (r, w') ->
  (r = Ok tt
   /\ w' = set_fs (fs_update (config_path w) (File (json_dumps_indent 0 config)) (fs w)) w)
  \/ ((exists e, r = Raise e) /\ w' = w).
Proof.
  unfold save_config, bind, get_config_path, write_file.
  fold (config_path_of (home w)). fold (config_path w).
  destruct (parent_error (fs w) (config_path w)).
  - intros H. inversion H; subst. right. eauto.
  - destruct (fs w (config_path w)); intros H; inversion H; subst; eauto.
Qed.

Lemma footprint_save_config (config : pyval) :
  footprint touch_registry quiet (save_config config).
Proof.
  intros w r w' H. destruct (save_config_spec _ _ _ _ H) as [[_ ->] | [_ ->]]; simpl.
  - repeat split; auto.
    + intros p Hp. unfold fs_update. unfold touch_registry in Hp.
      fold (config_path w) in Hp. now rewrite Hp.
    + exists []. now rewrite List.app_nil_r.
  - repeat split; auto. exists []. now rewrite List.app_nil_r.
Qed.

(** ** ManifestEmitter *)

Lemma footprint_generate_smithery_yaml (package_name command : string)
    (args : option (list string)) (env : option envmap) :
  footprint touch_manifest quiet (generate_smithery_yaml package_name command args env).
Proof.
  unfold generate_smithery_yaml. footprint_auto.
  apply footprint_write_file. reflexivity.
Qed.

(** The emitter never raises: it reports failure as [False]. *)
Lemma generate_smithery_yaml_total (package_name command : string)
    (args : option (list string)) (env : option envmap) (w : world) :
  exists b w', generate_smithery_yaml package_name command args env w = (Ok b, w').
Proof.
  unfold generate_smithery_yaml, try_except, bind, log, write_file.
  change (parent_error (fs (add_event (Log INFO "Generating smithery.yaml for {package_name}") w))
                       "smithery.yaml") with (@None exn).
  cbn [fst snd fs add_event].
  destruct (fs w "smithery.yaml"); eexists; eexists; reflexivity.
Qed.

(** ** The registry-package install, one attempt *)

Lemma bind_inv {A B : Type} (m : M A) (k : A -> M B) (w w' : world) (r : outcome B) :
  bind m k w = (r, w') ->
  (exists a w1, m w = (Ok a, w1) /\ k a w1 = (r, w'))
  \/ (exists e, m w = (Raise e, w') /\ r = Raise e)
  \/ (m w = (Unmodelled, w') /\ r = Unmodelled).
Proof.
  unfold bind. destruct (m w) as [[a|e|] w1]; intros H.
  - left. eauto.
  - inversion H; subst. right; left. eauto.
  - inversion H; subst. right; right. auto.
Qed.

Lemma touch_install_registry (h p : string) :
  touch_registry h p = true -> touch_install h p = true.
Proof. unfold touch_install. now intros ->. Qed.

Lemma touch_install_manifest (h p : string) :
  touch_manifest h p = true -> touch_install h p = true.
Proof. unfold touch_install. intros ->. now rewrite orb_true_r. Qed.

Lemma touch_install_dirs (h p : string) :
  touch_dirs h p = true -> touch_install h p = true.
Proof. unfold touch_install. intros ->. now rewrite orb_true_r. Qed.

(** Footprint steps for the parts of an install. *)
Ltac footprint_install :=
  repeat first
    [ apply (footprint_weaken touch_nothing touch_install);
      [discriminate | apply footprint_check_environment]
    | apply footprint_is_mcp_compliant
    | apply footprint_check_package_json
    | apply (footprint_weaken touch_dirs touch_install);
      [apply touch_install_dirs | apply footprint_load_config]
    | apply (footprint_weaken touch_registry touch_install);
      [apply touch_install_registry | apply footprint_save_config]
    | apply (footprint_weaken touch_manifest touch_install);
      [apply touch_install_manifest | apply footprint_generate_smithery_yaml]
    | footprint_step ].

(** What one attempt leaves behind: the registry file is either the saved
    registry, namely the one the world held with the new entry set, and
    the attempt returned [True]; or it is as it was. *)
Lemma install_attempt_effect (name : string) (args : option (list string))
    (env : option envmap) (w w' : world) (r : outcome (option bool)) :
  install_attempt name args env w = (r, w') ->
  (home w' = home w /\ exec w' = exec w
   /\ (forall p, touch_install (home w) p = false -> fs w' p = fs w p)
   /\ exists new, trace w' = (trace w ++ Log INFO msg_installing :: new)%list
                  /\ forallb quiet new = true)
  /\ ((r = Ok (Some true)
       /\ exists config config',
           registry_before w config
           /\ set_server config name
                (server_entry "npx" ("-y" :: name :: list_or_empty args) env)
              = Ok config'
           /\ fs w' (config_path w) = File (json_dumps_indent 0 config'))
      \/ (r <> Ok (Some true) /\ fs w' (config_path w) = fs w (config_path w))).
Proof.
  intros H. unfold install_attempt in H.
  unfold bind at 1 in H. cbn [log] in H.
  set (w0 := add_event (Log INFO msg_installing) w) in *.
  split.
  - match type of H with
    | ?R w0 = _ => assert (F : footprint touch_install quiet R) by footprint_install
    end.
    destruct (F _ _ _ H) as (Hh & He & Hf & new & Ht & Hn).
    repeat split; auto. exists new. split; [|exact Hn].
    rewrite Ht. subst w0. simpl. now rewrite <- List.app_assoc.
  - apply bind_inv in H.
    destruct H as [(st & w1 & E1 & H) | [(e & E1 & ->) | (E1 & ->)]];
      pose proof (footprint_check_environment _ _ _ E1) as (Hh1 & _ & Hf1 & _);
      try (right; split; [discriminate | apply (Hf1 (config_path w)); reflexivity]).
    change (home w0) with (home w) in Hh1.
    assert (Hc1 : fs w1 (config_path w) = fs w (config_path w))
      by (apply (Hf1 (config_path w)); reflexivity).
    destruct (negb (st_node st) || negb (st_npm st)) eqn:Eguard.
    { cbn in H. inversion H; subst. right. split; [discriminate | exact Hc1]. }
    apply orb_false_iff in Eguard. destruct Eguard as [_ Enpm].
    apply negb_false_iff in Enpm. rewrite Enpm in H.
    apply bind_inv in H.
    destruct H as [(c & w2 & E2 & H) | [(e & E2 & ->) | (E2 & ->)]];
      pose proof (footprint_is_mcp_compliant touch_nothing _ _ _ _ _ _ E2)
        as (Hh2 & _ & Hf2 & _);
      try (right; split; [discriminate |
                          rewrite (Hf2 (config_path w)) by reflexivity; exact Hc1]).
    assert (Hc2 : fs w2 (config_path w) = fs w (config_path w))
      by (rewrite (Hf2 (config_path w)) by reflexivity; exact Hc1).
    destruct (negb (truthy c)).
    { cbn in H. inversion H; subst. right. split; [discriminate | exact Hc2]. }
    assert (Hp2 : config_path w2 = config_path w)
      by (unfold config_path; congruence).
    apply bind_inv in H.
    destruct H as [(config & w3 & E3 & H) | [(e & E3 & ->) | (E3 & ->)]];
      pose proof (load_config_spec _ _ _ E3) as (Hh3 & _ & _ & _ & Hf3 & Hreg);
      assert (Hc3 : fs w' (config_path w) = fs w (config_path w) \/ True)
        by (now right);
      try (right; split; [discriminate |
                          rewrite <- Hp2, Hf3 by (apply config_path_not_dir);
                          rewrite Hp2; exact Hc2]).
    clear Hc3.
    assert (Hc3 : fs w3 (config_path w) = fs w (config_path w))
      by (rewrite <- Hp2, Hf3 by (apply config_path_not_dir); rewrite Hp2; exact Hc2).
    assert (Hp3 : config_path w3 = config_path w)
      by (unfold config_path; congruence).
    assert (Hbefore : registry_before w config).
    { specialize (Hreg config eq_refl). unfold registry_before in *.
      now rewrite Hp2, Hc2 in Hreg. }
    apply bind_inv in H. unfold lift in H.
    destruct H as [(config' & w3' & E4 & H) | [(e & E4 & ->) | (E4 & ->)]];
      inversion E4; subst;
      try (right; split; [discriminate | exact Hc3]).
    apply bind_inv in H.
    destruct H as [([] & w4 & E5 & H) | [(e & E5 & ->) | (E5 & ->)]];
      destruct (save_config_spec _ _ _ _ E5) as [[Hr5 Hw5] | [[e5 Hr5] Hw5]];
      try discriminate;
      try (right; split; [discriminate | subst; exact Hc3]).
    destruct (generate_smithery_yaml_total name "npx"
                (Some ("-y" :: name :: list_or_empty args)) env w4)
      as (b & w5 & E6).
    pose proof (footprint_generate_smithery_yaml _ _ _ _ _ _ _ E6)
      as (Hh6 & _ & Hf6 & _).
    rewrite (bind_ok _ _ _ _ _ E6) in H. cbn in H. inversion H; subst r w'.
    left. split; [reflexivity|]. exists config, config'.
    split; [exact Hbefore|]. split; [assumption|].
    cbn [fs add_event]. rewrite Hf6.
    + rewrite Hw5. cbn [fs set_fs]. unfold fs_update.
      now rewrite Hp3, String.eqb_refl.
    + apply config_path_not_manifest.
Qed.

(** ** JSON: what is written is read back *)

Lemma string_app_nil (a : string) : a ++ "" = a.
Proof. induction a as [|c a IH]; simpl; [reflexivity | now rewrite IH]. Qed.

Lemma skip_ws_spaces (n : nat) (t : string) : skip_ws (spaces n ++ t) = skip_ws t.
Proof. induction n as [|n IH]; [reflexivity | exact IH]. Qed.

Lemma skip_ws_newline_indent (level : nat) (t : string) :
  skip_ws (newline_indent level ++ t) = skip_ws t.
Proof. unfold newline_indent. apply (skip_ws_spaces (2 * level) t). Qed.

Lemma parse_value_skip_ws (fuel : nat) (s s' : string) :
  skip_ws s = skip_ws s' -> parse_value fuel s = parse_value fuel s'.
Proof. intros H. destruct fuel; [reflexivity|]. cbn [parse_value]. now rewrite H. Qed.

Lemma parse_members_skip_ws (fuel : nat) (s s' : string) :
  skip_ws s = skip_ws s' -> parse_members fuel s = parse_members fuel s'.
Proof. intros H. destruct fuel; [reflexivity|]. cbn [parse_members]. now rewrite H. Qed.

Lemma parse_elements_skip_ws (fuel : nat) (s s' : string) :
  skip_ws s = skip_ws s' -> parse_elements fuel s = parse_elements fuel s'.
Proof.
  intros H. destruct fuel; [reflexivity|]. cbn [parse_elements].
  now rewrite (parse_value_skip_ws fuel s s' H).
Qed.

(** *** Strings *)

Lemma parse_escape_char (c : ascii) (tail : string) :
  parse_string_body (json_escape_char c ++ tail)
  = parsed_map (String c) (parse_string_body tail).
Proof. destruct c as [[] [] [] [] [] [] [] []]; reflexivity. Qed.

Lemma parse_string_body_escaped (s rest : string) :
  parse_string_body (string_flat_map json_escape_char s ++ String dquote rest)
  = Parsed s rest.
Proof.
  induction s as [|c s IH].
  - reflexivity.
  - cbn [string_flat_map]. rewrite string_app_assoc, parse_escape_char, IH.
    reflexivity.
Qed.

Lemma json_string_shape (s rest : string) :
  json_string s ++ rest
  = String dquote (string_flat_map json_escape_char s ++ String dquote rest).
Proof.
  unfold json_string, str1. cbn [append]. now rewrite string_app_assoc.
Qed.

(** *** Numbers *)

Lemma scan_uint_digits (u : Decimal.uint) (rest : string) :
  match rest with
  | EmptyString => True
  | String c _ => digit_of_char c = None
  end ->
  scan_uint (DecimalString.NilEmpty.string_of_uint u ++ rest) = (u, rest).
Proof.
  intros Hrest. induction u; cbn [DecimalString.NilEmpty.string_of_uint append scan_uint];
    try (change (digit_of_char "0") with (Some Decimal.D0);
         change (digit_of_char "1") with (Some Decimal.D1);
         change (digit_of_char "2") with (Some Decimal.D2);
         change (digit_of_char "3") with (Some Decimal.D3);
         change (digit_of_char "4") with (Some Decimal.D4);
         change (digit_of_char "5") with (Some Decimal.D5);
         change (digit_of_char "6") with (Some Decimal.D6);
         change (digit_of_char "7") with (Some Decimal.D7);
         change (digit_of_char "8") with (Some Decimal.D8);
         change (digit_of_char "9") with (Some Decimal.D9);
         cbv iota beta; now rewrite IHu).
  destruct rest as [|c rest]; [reflexivity|].
  cbn [scan_uint]. now rewrite Hrest.
Qed.

Lemma nzhead_no_leading_zero (d : Decimal.uint) :
  match Decimal.nzhead d with
  | Decimal.D0 _ => False
  | _ => True
  end.
Proof. induction d; simpl; auto. Qed.

(** The digits of a positive number start with a non-zero digit. *)
Lemma to_uint_leading (p : positive) :
  match Pos.to_uint p with
  | Decimal.Nil | Decimal.D0 _ => False
  | _ => True
  end.
Proof.
  pose proof (DecimalPos.Unsigned.to_of (Pos.to_uint p)) as H.
  rewrite DecimalPos.Unsigned.of_to in H. cbn [N.to_uint] in H.
  pose proof (DecimalPos.Unsigned.to_uint_nonzero p) as Hnz.
  pose proof (nzhead_no_leading_zero (Pos.to_uint p)) as Hh.
  unfold Decimal.unorm in H.
  destruct (Decimal.nzhead (Pos.to_uint p)) eqn:E; rewrite H; auto.
Qed.

Lemma tail_ok_facts (rest : string) :
  tail_ok rest = true ->
  match rest with
  | EmptyString => True
  | String c _ => digit_of_char c = None
  end
  /\ starts_fraction rest = false.
Proof.
  destruct rest as [|c rest]; [now split|].
  unfold tail_ok. destruct (digit_of_char c); [discriminate|].
  intros H. apply negb_true_iff in H. now split.
Qed.

Lemma parse_digits_pos (p : positive) (rest : string) :
  tail_ok rest = true ->
  parse_digits (DecimalString.NilEmpty.string_of_uint (Pos.to_uint p) ++ rest)
  = Parsed (Zpos p) rest.
Proof.
  intros Hrest. destruct (tail_ok_facts rest Hrest) as [Hd Hf].
  unfold parse_digits. rewrite (scan_uint_digits _ _ Hd).
  pose proof (to_uint_leading p) as Hl.
  assert (Hv : Z.of_uint (Pos.to_uint p) = Zpos p).
  { unfold Z.of_uint. now rewrite DecimalPos.Unsigned.of_to. }
  destruct (Pos.to_uint p); try contradiction; rewrite Hf, Hv; reflexivity.
Qed.

Lemma string_of_uint_nonnil (u : Decimal.uint) :
  u <> Decimal.Nil ->
  DecimalString.NilZero.string_of_uint u = DecimalString.NilEmpty.string_of_uint u.
Proof. destruct u; [congruence | reflexivity ..]. Qed.

Lemma string_of_uint_head (u : Decimal.uint) :
  u <> Decimal.Nil ->
  exists c r, DecimalString.NilEmpty.string_of_uint u = String c r
              /\ (exists d, digit_of_char c = Some d).
Proof.
  destruct u; [congruence| ..]; intros _; eexists; eexists;
    (split; [reflexivity | eexists; reflexivity]).
Qed.

Lemma parse_number_roundtrip (z : Z) (rest : string) :
  tail_ok rest = true ->
  parse_number (string_of_Z z ++ rest) = Parsed z rest
  /\ exists c r, string_of_Z z ++ rest = String c r /\ number_start c = true.
Proof.
  intros Hrest. unfold string_of_Z. destruct z as [|p|p]; cbn [Z.to_int].
  - destruct (tail_ok_facts rest Hrest) as [Hd Hf].
    split; [|exists "0"%char, rest; split; reflexivity].
    change (DecimalString.NilZero.string_of_int (Decimal.Pos Decimal.zero) ++ rest)
      with (String "0" rest).
    unfold parse_number. change (Ascii.eqb "0" "-") with false. cbv iota.
    unfold parse_digits. cbn [scan_uint]. change (digit_of_char "0") with (Some Decimal.D0).
    cbv iota beta.
    destruct rest as [|c rest]; [reflexivity|].
    cbn [scan_uint]. rewrite Hd. now rewrite Hf.
  - cbn [DecimalString.NilZero.string_of_int].
    rewrite string_of_uint_nonnil by apply DecimalPos.Unsigned.to_uint_nonnil.
    destruct (string_of_uint_head (Pos.to_uint p)
                (DecimalPos.Unsigned.to_uint_nonnil p)) as (c & r & Hs & d & Hc).
    split.
    + pose proof (parse_digits_pos p rest Hrest) as Hp.
      rewrite Hs in *. cbn [append] in *. unfold parse_number.
      assert (Hm : Ascii.eqb c "-" = false).
      { destruct (Ascii.eqb_spec c "-"); [subst; discriminate | reflexivity]. }
      now rewrite Hm.
    + rewrite Hs. cbn [append]. eexists. eexists. split; [reflexivity|].
      unfold number_start. now rewrite Hc.
  - cbn [DecimalString.NilZero.string_of_int].
    rewrite string_of_uint_nonnil by apply DecimalPos.Unsigned.to_uint_nonnil.
    destruct (string_of_uint_head (Pos.to_uint p)
                (DecimalPos.Unsigned.to_uint_nonnil p)) as (c & r & Hs & d & Hc).
    split; [|exists "-"%char; eexists; split; reflexivity].
    pose proof (parse_digits_pos p rest Hrest) as Hp.
    cbn [append]. unfold parse_number. change (Ascii.eqb "-" "-") with true. cbv iota.
    rewrite Hs in *. cbn [append] in *.
    assert (Hm : Ascii.eqb c "I" = false).
    { destruct (Ascii.eqb_spec c "I"); [subst; discriminate | reflexivity]. }
    rewrite Hm, Hp. reflexivity.
Qed.

(** *** Values *)

Lemma wf_pyval_list (items : list pyval) :
  wf_pyval (PList items) <-> Forall wf_pyval items.
Proof.
  cbn [wf_pyval]. induction items as [|x items IH].
  - split; auto.
  - split.
    + intros [Hx Hi]. constructor; [exact Hx | now apply IH].
    + intros H. inversion H; subst. split; [assumption | now apply IH].
Qed.

Lemma wf_pyval_dict (entries : list (string * pyval)) :
  wf_pyval (PDict entries)
  <-> NoDup (dict_keys entries) /\ Forall (fun kv => wf_pyval (snd kv)) entries.
Proof.
  cbn [wf_pyval].
  assert (H : (fix all (l : list (string * pyval)) : Prop :=
                 match l with
                 | [] => True
                 | kv :: l' => wf_pyval (snd kv) /\ all l'
                 end) entries
              <-> Forall (fun kv => wf_pyval (snd kv)) entries).
  { induction entries as [|kv entries IH].
    - split; auto.
    - split.
      + intros [Hx Hi]. constructor; [exact Hx | now apply IH].
      + intros H. inversion H; subst. split; [assumption | now apply IH]. }
  now rewrite H.
Qed.

Lemma pyval_size_list (items : list pyval) :
  pyval_size (PList items) = S (items_size items).
Proof. reflexivity. Qed.

Lemma pyval_size_dict (entries : list (string * pyval)) :
  pyval_size (PDict entries) = S (entries_size entries).
Proof. reflexivity. Qed.

Lemma pyval_size_pos (v : pyval) : (1 <= pyval_size v)%nat.
Proof. destruct v; cbn [pyval_size]; lia. Qed.

Lemma number_start_dispatch (c : ascii) :
  number_start c = true ->
  is_ws c = false
  /\ Ascii.eqb c "{" = false /\ Ascii.eqb c "[" = false /\ Ascii.eqb c dquote = false
  /\ Ascii.eqb c "t" = false /\ Ascii.eqb c "f" = false /\ Ascii.eqb c "n" = false
  /\ Ascii.eqb c "N" = false /\ Ascii.eqb c "I" = false /\ Ascii.eqb c "]" = false.
Proof.
  intros H.
  assert (Hne : forall x, number_start x = false -> Ascii.eqb c x = false).
  { intros x Hx. destruct (Ascii.eqb_spec c x); [subst; congruence | reflexivity]. }
  repeat split; try (apply Hne; reflexivity).
  unfold is_ws. rewrite !Hne by reflexivity. reflexivity.
Qed.

Lemma parse_value_number (fuel : nat) (c : ascii) (r : string) :
  number_start c = true ->
  parse_value (S fuel) (String c r) = parsed_map PInt (parse_number (String c r)).
Proof.
  intros H.
  destruct (number_start_dispatch c H)
    as (Hws & H1 & H2 & H3 & H4 & H5 & H6 & H7 & H8 & _).
  cbn [parse_value skip_ws]. rewrite Hws, H1, H2, H3, H4, H5, H6, H7, H8.
  reflexivity.
Qed.

Lemma parse_value_open_list (fuel : nat) (r r' : string) (c : ascii) :
  skip_ws r = String c r' ->
  Ascii.eqb c "]" = false ->
  parse_value (S fuel) (String "[" r) = parsed_map PList (parse_elements fuel r).
Proof.
  intros Hr Hc. cbn [parse_value]. change (skip_ws (String "[" r)) with (String "[" r).
  change (Ascii.eqb "[" "{") with false. change (Ascii.eqb "[" "[") with true.
  cbv iota. now rewrite Hr, Hc.
Qed.

Lemma parse_value_open_dict (fuel : nat) (r r' : string) (c : ascii) :
  skip_ws r = String c r' ->
  Ascii.eqb c "}" = false ->
  parse_value (S fuel) (String "{" r)
  = parsed_map (fun ps => PDict (dict_of_pairs ps)) (parse_members fuel r).
Proof.
  intros Hr Hc. cbn [parse_value]. change (skip_ws (String "{" r)) with (String "{" r).
  change (Ascii.eqb "{" "{") with true. cbv iota. now rewrite Hr, Hc.
Qed.

(** The text of a value starts with a character that is neither white
    space nor a closing bracket. *)
Lemma json_dumps_indent_head (level : nat) (v : pyval) (rest : string) :
  exists c r, json_dumps_indent level v ++ rest = String c r /\ value_start c = true.
Proof.
  destruct v as [| [|] | z | s | [|x items] | [|kv entries]];
    try (eexists; eexists; split; [reflexivity | reflexivity]).
  destruct (parse_number_roundtrip z "" eq_refl) as (_ & c & r & Hs & Hc).
  rewrite string_app_nil in Hs. cbn [json_dumps_indent]. rewrite Hs.
  exists c, (r ++ rest). split; [reflexivity|].
  destruct (number_start_dispatch c Hc) as (Hws & _ & _ & _ & _ & _ & _ & _ & _ & Hb).
  unfold value_start. now rewrite Hws, Hb.
Qed.

Lemma skip_ws_value (level : nat) (v : pyval) (rest : string) :
  exists c r, skip_ws (json_dumps_indent level v ++ rest) = String c r
              /\ json_dumps_indent level v ++ rest = String c r
              /\ Ascii.eqb c "]" = false.
Proof.
  destruct (json_dumps_indent_head level v rest) as (c & r & Hs & Hc).
  unfold value_start in Hc. apply andb_true_iff in Hc. destruct Hc as [Hws Hb].
  apply negb_true_iff in Hws, Hb.
  exists c, r. rewrite Hs. cbn [skip_ws]. rewrite Hws. auto.
Qed.

Lemma elements_text_cons (level : nat) (x y : pyval) (items : list pyval) :
  elements_text level (x :: y :: items)
  = json_dumps_indent level x
      ++ String "," (newline_indent level ++ elements_text level (y :: items)).
Proof. reflexivity. Qed.

Lemma members_text_cons (level : nat) (kv kv' : string * pyval)
    (entries : list (string * pyval)) :
  members_text level (kv :: kv' :: entries)
  = (json_string (fst kv) ++ ": " ++ json_dumps_indent level (snd kv))
      ++ String "," (newline_indent level ++ members_text level (kv' :: entries)).
Proof. reflexivity. Qed.

Lemma json_dumps_indent_list (level : nat) (x : pyval) (items : list pyval) :
  json_dumps_indent level (PList (x :: items))
  = String "[" (newline_indent (S level)
                  ++ elements_text (S level) (x :: items)
                  ++ newline_indent level ++ "]").
Proof. reflexivity. Qed.

Lemma json_dumps_indent_dict (level : nat) (kv : string * pyval)
    (entries : list (string * pyval)) :
  json_dumps_indent level (PDict (kv :: entries))
  = String "{" (newline_indent (S level)
                  ++ members_text (S level) (kv :: entries)
                  ++ newline_indent level ++ "}").
Proof. reflexivity. Qed.

Lemma tail_ok_newline (level : nat) (t : string) :
  tail_ok (newline_indent level ++ t) = true.
Proof. reflexivity. Qed.

Lemma tail_ok_comma (t : string) : tail_ok (String "," t) = true.
Proof. reflexivity. Qed.

Lemma parse_elements_text (li lo : nat) (rest : string) (items : list pyval) :
  forall x fuel,
    Forall reads_back (x :: items) ->
    Forall wf_pyval (x :: items) ->
    (items_size (x :: items) <= fuel)%nat ->
    parse_elements fuel
      (newline_indent li ++ elements_text li (x :: items)
         ++ newline_indent lo ++ String "]" rest)
    = Parsed (x :: items) rest.
Proof.
  induction items as [|y items IH]; intros x fuel Hall Hwf Hfuel;
    inversion Hall as [|? ? Hx Hrest]; subst;
    inversion Hwf as [|? ? Hwx Hwrest]; subst;
    change (items_size (x :: ?l)) with (S (pyval_size x + items_size l)) in Hfuel;
    (destruct fuel as [|f]; [lia|]);
    cbn [parse_elements];
    rewrite (parse_value_skip_ws f _ _ (skip_ws_newline_indent li _)).
  - change (elements_text li [x]) with (json_dumps_indent li x).
    rewrite (Hx Hwx li f _) by (try apply tail_ok_newline; lia).
    rewrite skip_ws_newline_indent. reflexivity.
  - rewrite elements_text_cons, string_app_assoc.
    cbn [append].
    rewrite (Hx Hwx li f _) by (try apply tail_ok_comma; lia).
    change (skip_ws (String "," ?t)) with (String "," t).
    cbn [skip_ws]. change (is_ws ",") with false. cbv iota.
    change (Ascii.eqb "," ",") with true. cbv iota.
    rewrite string_app_assoc, (IH y f Hrest Hwrest) by lia.
    reflexivity.
Qed.

Lemma parse_members_text (li lo : nat) (rest : string)
    (entries : list (string * pyval)) :
  forall kv fuel,
    Forall (fun kv => reads_back (snd kv)) (kv :: entries) ->
    Forall (fun kv => wf_pyval (snd kv)) (kv :: entries) ->
    (entries_size (kv :: entries) <= fuel)%nat ->
    parse_members fuel
      (newline_indent li ++ members_text li (kv :: entries)
         ++ newline_indent lo ++ String "}" rest)
    = Parsed (kv :: entries) rest.
Proof.
  induction entries as [|kv' entries IH]; intros [k v] fuel Hall Hwf Hfuel;
    inversion Hall as [|? ? Hx Hrest]; subst;
    inversion Hwf as [|? ? Hwx Hwrest]; subst;
    change (entries_size ((k, v) :: ?l))
      with (S (pyval_size v + entries_size l)) in Hfuel;
    cbn [snd] in Hx, Hwx;
    (destruct fuel as [|f]; [lia|]);
    rewrite (parse_members_skip_ws (S f) _ _ (skip_ws_newline_indent li _)).
  - change (members_text li [(k, v)])
      with (json_string k ++ ": " ++ json_dumps_indent li v).
    rewrite !string_app_assoc, json_string_shape.
    cbn [parse_members skip_ws]. change (is_ws dquote) with false. cbv iota.
    rewrite Ascii.eqb_refl, parse_string_body_escaped.
    cbn [append skip_ws]. change (is_ws ":") with false. cbv iota.
    change (Ascii.eqb ":" ":") with true. cbv iota.
    rewrite (parse_value_skip_ws f (String " " _) (json_dumps_indent li v ++ _))
      by reflexivity.
    rewrite (Hx Hwx li f _) by (try apply tail_ok_newline; lia).
    rewrite skip_ws_newline_indent. reflexivity.
  - rewrite members_text_cons, !string_app_assoc, json_string_shape.
    cbn [parse_members skip_ws]. change (is_ws dquote) with false. cbv iota.
    rewrite Ascii.eqb_refl, parse_string_body_escaped.
    cbn [append skip_ws]. change (is_ws ":") with false. cbv iota.
    change (Ascii.eqb ":" ":") with true. cbv iota.
    rewrite (parse_value_skip_ws f (String " " _)
               (json_dumps_indent li v ++ String "," _)) by reflexivity.
    rewrite (Hx Hwx li f _) by (try apply tail_ok_comma; lia).
    cbn [skip_ws]. change (is_ws ",") with false. cbv iota.
    change (Ascii.eqb "," ",") with true. cbv iota.
    rewrite string_app_assoc, (IH kv' f Hrest Hwrest) by lia.
    reflexivity.
Qed.

Lemma dict_set_fresh {V : Type} (k : string) (v : V) (d : list (string * V)) :
  ~ In k (dict_keys d) -> dict_set k v d = (d ++ [(k, v)])%list.
Proof.
  induction d as [|[k' v'] d IH]; intros Hk; cbn [dict_set app]; [reflexivity|].
  destruct (String.eqb_spec k k') as [->|Hne].
  - exfalso. apply Hk. now left.
  - rewrite IH; [reflexivity|]. intros Hin. apply Hk. now right.
Qed.

Lemma dict_of_pairs_nodup {V : Type} (ps : list (string * V)) :
  NoDup (dict_keys ps) -> dict_of_pairs ps = ps.
Proof.
  unfold dict_of_pairs.
  assert (H : forall acc,
             NoDup (dict_keys (acc ++ ps)) ->
             fold_left (fun d kv => dict_set (fst kv) (snd kv) d) ps acc
             = (acc ++ ps)%list).
  { induction ps as [|[k v] ps IH]; intros acc Hnd; cbn [fold_left fst snd].
    - now rewrite List.app_nil_r.
    - rewrite dict_set_fresh.
      + rewrite IH; rewrite <- List.app_assoc; [reflexivity | exact Hnd].
      + unfold dict_keys in *. rewrite map_app in Hnd. cbn [map fst] in Hnd.
        apply NoDup_remove_2 in Hnd. intros Hin. apply Hnd. apply in_or_app. now left. }
  intros Hnd. apply (H [] Hnd).
Qed.

(** Every well-formed value is read back from its text. *)
Lemma parse_value_dumps (v : pyval) : reads_back v.
Proof.
  induction v as [| b | z | s | items IH | entries IH] using pyval_induction;
    intros Hwf level fuel rest Hfuel Hrest;
    (destruct fuel as [|f]; [pose proof (pyval_size_pos PNone); cbn in Hfuel; lia|]).
  - reflexivity.
  - destruct b; reflexivity.
  - destruct (parse_number_roundtrip z rest Hrest) as (Hp & c & r & Hs & Hc).
    cbn [json_dumps_indent]. rewrite Hs, (parse_value_number f c r Hc), <- Hs, Hp.
    reflexivity.
  - cbn [json_dumps_indent]. rewrite json_string_shape.
    cbn [parse_value skip_ws]. change (is_ws dquote) with false. cbv iota.
    change (Ascii.eqb dquote "{") with false. change (Ascii.eqb dquote "[") with false.
    cbv iota. rewrite Ascii.eqb_refl, parse_string_body_escaped. reflexivity.
  - destruct items as [|x items]; [reflexivity|].
    rewrite pyval_size_list in Hfuel. apply wf_pyval_list in Hwf.
    rewrite json_dumps_indent_list. cbn [append]. rewrite !string_app_assoc.
    destruct (skip_ws_value (S level) x
                (match items with
                 | [] => ""
                 | y :: l => String "," (newline_indent (S level)
                                           ++ elements_text (S level) (y :: l))
                 end ++ newline_indent level ++ String "]" rest))
      as (c & r & Hsk & _ & Hc).
    erewrite parse_value_open_list; [| |exact Hc].
    + cbn [append]. rewrite (parse_elements_text (S level) level rest items x f IH Hwf)
        by lia.
      reflexivity.
    + rewrite skip_ws_newline_indent. rewrite <- Hsk. f_equal.
      destruct items as [|y l].
      * reflexivity.
      * rewrite elements_text_cons, string_app_assoc. reflexivity.
  - destruct entries as [|[k v] entries]; [reflexivity|].
    rewrite pyval_size_dict in Hfuel. apply wf_pyval_dict in Hwf.
    destruct Hwf as [Hnd Hwf].
    rewrite json_dumps_indent_dict. cbn [append]. rewrite !string_app_assoc.
    assert (Hsk : exists r',
               skip_ws (newline_indent (S level)
                          ++ members_text (S level) ((k, v) :: entries)
                          ++ newline_indent level ++ "}" ++ rest)
               = String dquote r').
    { rewrite skip_ws_newline_indent. destruct entries as [|kv' l].
      - change (members_text (S level) [(k, v)])
          with (json_string k ++ ": " ++ json_dumps_indent (S level) v).
        rewrite !string_app_assoc, json_string_shape. eexists. reflexivity.
      - rewrite members_text_cons, !string_app_assoc, json_string_shape.
        eexists. reflexivity. }
    destruct Hsk as [r' Hsk].
    rewrite (parse_value_open_dict f _ r' dquote Hsk eq_refl).
    cbn [append].
    rewrite (parse_members_text (S level) level rest entries (k, v) f IH Hwf)
      by lia.
    cbn [parsed_map]. now rewrite (dict_of_pairs_nodup _ Hnd).
Qed.

(** *** Enough fuel *)

Lemma string_of_Z_length (z : Z) : (1 <= String.length (string_of_Z z))%nat.
Proof.
  destruct (parse_number_roundtrip z "" eq_refl) as (_ & c & r & Hs & _).
  rewrite string_app_nil in Hs. rewrite Hs. cbn [String.length]. lia.
Qed.

Lemma newline_indent_length (level : nat) :
  (1 <= String.length (newline_indent level))%nat.
Proof. unfold newline_indent. cbn [String.length]. lia. Qed.

Lemma items_size_text (level : nat) (items : list pyval) :
  forall x,
    Forall (fun v => forall l, (pyval_size v <= String.length (json_dumps_indent l v))%nat)
           (x :: items) ->
    (items_size (x :: items) <= String.length (elements_text level (x :: items)) + 1)%nat.
Proof.
  induction items as [|y items IH]; intros x Hall;
    inversion Hall as [|? ? Hx Hrest]; subst;
    change (items_size (x :: ?l)) with (S (pyval_size x + items_size l)).
  - change (elements_text level [x]) with (json_dumps_indent level x).
    specialize (Hx level). cbn [items_size fold_right]. lia.
  - rewrite elements_text_cons, string_length_app. cbn [String.length].
    rewrite string_length_app.
    specialize (Hx level). specialize (IH y Hrest).
    pose proof (newline_indent_length level). lia.
Qed.

Lemma entries_size_text (level : nat) (entries : list (string * pyval)) :
  forall kv,
    Forall (fun kv => forall l,
                (pyval_size (snd kv) <= String.length (json_dumps_indent l (snd kv)))%nat)
           (kv :: entries) ->
    (entries_size (kv :: entries)
     <= String.length (members_text level (kv :: entries)) + 1)%nat.
Proof.
  induction entries as [|kv' entries IH]; intros [k v] Hall;
    inversion Hall as [|? ? Hx Hrest]; subst; cbn [snd] in Hx;
    change (entries_size ((k, v) :: ?l)) with (S (pyval_size v + entries_size l)).
  - change (members_text level [(k, v)])
      with (json_string k ++ ": " ++ json_dumps_indent level v).
    rewrite !string_length_app. specialize (Hx level). cbn [entries_size fold_right]. lia.
  - rewrite members_text_cons, !string_length_app. cbn [String.length fst snd].
    rewrite string_length_app.
    specialize (Hx level). specialize (IH kv' Hrest).
    pose proof (newline_indent_length level). lia.
Qed.

Lemma pyval_size_text (v : pyval) :
  forall level, (pyval_size v <= String.length (json_dumps_indent level v))%nat.
Proof.
  induction v as [| b | z | s | items IH | entries IH] using pyval_induction;
    intros level.
  - cbn. lia.
  - destruct b; cbn; lia.
  - cbn [pyval_size json_dumps_indent]. apply string_of_Z_length.
  - cbn [pyval_size json_dumps_indent json_string String.length]. lia.
  - destruct items as [|x items]; [cbn; lia|].
    rewrite pyval_size_list, json_dumps_indent_list. cbn [String.length].
    rewrite !string_length_app.
    pose proof (items_size_text (S level) items x IH).
    pose proof (newline_indent_length (S level)). lia.
  - destruct entries as [|kv entries]; [cbn; lia|].
    rewrite pyval_size_dict, json_dumps_indent_dict. cbn [String.length].
    rewrite !string_length_app.
    pose proof (entries_size_text (S level) entries kv IH).
    pose proof (newline_indent_length (S level)). lia.
Qed.

(** [json.loads(json.dumps(v, indent=2)) == v] for every well-formed [v]. *)
Lemma json_loads_dumps (v : pyval) :
  wf_pyval v -> json_loads (json_dumps_indent 0 v) = Ok v.
Proof.
  intros Hwf. unfold json_loads.
  pose proof (parse_value_dumps v Hwf 0 (S (String.length (json_dumps_indent 0 v))) ""
                ltac:(pose proof (pyval_size_text v 0); lia) eq_refl) as H.
  rewrite string_app_nil in H. now rewrite H.
Qed.

(** *** What the parser returns is well formed *)

Lemma dict_set_values {V : Type} (P : V -> Prop) (k : string) (v : V)
    (d : list (string * V)) :
  P v -> Forall (fun kv => P (snd kv)) d ->
  Forall (fun kv => P (snd kv)) (dict_set k v d).
Proof.
  intros Hv Hd. induction Hd as [|[k' v'] d Hk Hd IH]; cbn [dict_set].
  - constructor; [exact Hv | constructor].
  - destruct (String.eqb k k'); constructor; auto.
Qed.

Lemma dict_of_pairs_wf (ps : list (string * pyval)) :
  Forall (fun kv => wf_pyval (snd kv)) ps ->
  wf_pyval (PDict (dict_of_pairs ps)).
Proof.
  intros Hps. apply wf_pyval_dict. unfold dict_of_pairs.
  assert (H : forall acc,
             NoDup (dict_keys acc) /\ Forall (fun kv => wf_pyval (snd kv)) acc ->
             NoDup (dict_keys (fold_left (fun d kv => dict_set (fst kv) (snd kv) d) ps acc))
             /\ Forall (fun kv => wf_pyval (snd kv))
                       (fold_left (fun d kv => dict_set (fst kv) (snd kv) d) ps acc)).
  { induction Hps as [|[k v] ps Hv Hps IH]; intros acc [Hnd Hall]; cbn [fold_left].
    - now split.
    - apply IH. split; [now apply dict_set_NoDup | now apply dict_set_values]. }
  apply H. split; constructor.
Qed.

Lemma parsed_map_inv {A B : Type} (f : A -> B) (p : parsed A) (b : B) (r : string) :
  parsed_map f p = Parsed b r -> exists a, p = Parsed a r /\ b = f a.
Proof. destruct p; intros H; inversion H; eauto. Qed.

Lemma parse_wf (fuel : nat) :
  (forall s v r, parse_value fuel s = Parsed v r -> wf_pyval v)
  /\ (forall s l r, parse_elements fuel s = Parsed l r -> Forall wf_pyval l)
  /\ (forall s l r, parse_members fuel s = Parsed l r ->
                    Forall (fun kv => wf_pyval (snd kv)) l).
Proof.
  induction fuel as [|f (IHv & IHe & IHm)]; [repeat split; intros; discriminate|].
  split; [|split].
  - intros s v r H. cbn [parse_value] in H.
    destruct (skip_ws s) as [|c t]; [discriminate|].
    destruct (Ascii.eqb c "{").
    { destruct (skip_ws t) as [|c' t']; [discriminate|].
      destruct (Ascii.eqb c' "}"); [inversion H; subst; repeat constructor|].
      apply parsed_map_inv in H. destruct H as (ps & Hps & ->).
      apply dict_of_pairs_wf. eapply IHm; eassumption. }
    destruct (Ascii.eqb c "[").
    { destruct (skip_ws t) as [|c' t']; [discriminate|].
      destruct (Ascii.eqb c' "]"); [inversion H; subst; exact I|].
      apply parsed_map_inv in H. destruct H as (l & Hl & ->).
      apply wf_pyval_list. eapply IHe; eassumption. }
    destruct (Ascii.eqb c dquote).
    { apply parsed_map_inv in H. destruct H as (x & _ & ->). exact I. }
    unfold parse_keyword in H.
    destruct (Ascii.eqb c "t").
    { destruct (strip_prefix "rue" t); inversion H; exact I. }
    destruct (Ascii.eqb c "f").
    { destruct (strip_prefix "alse" t); inversion H; exact I. }
    destruct (Ascii.eqb c "n").
    { destruct (strip_prefix "ull" t); inversion H; exact I. }
    destruct (Ascii.eqb c "N" || Ascii.eqb c "I"); [discriminate|].
    apply parsed_map_inv in H. destruct H as (x & _ & ->). exact I.
  - intros s l r H. cbn [parse_elements] in H.
    destruct (parse_value f s) as [v t| |] eqn:Ev; try discriminate.
    destruct (skip_ws t) as [|c t']; [discriminate|].
    destruct (Ascii.eqb c ",").
    { apply parsed_map_inv in H. destruct H as (l' & Hl & ->).
      constructor; [eapply IHv | eapply IHe]; eassumption. }
    destruct (Ascii.eqb c "]"); [|discriminate].
    inversion H; subst. constructor; [eapply IHv; eassumption | constructor].
  - intros s l r H. cbn [parse_members] in H.
    destruct (skip_ws s) as [|q t]; [discriminate|].
    destruct (Ascii.eqb q dquote); [|discriminate].
    destruct (parse_string_body t) as [k t1| |]; try discriminate.
    destruct (skip_ws t1) as [|c t2]; [discriminate|].
    destruct (Ascii.eqb c ":"); [|discriminate].
    destruct (parse_value f t2) as [v t3| |] eqn:Ev; try discriminate.
    destruct (skip_ws t3) as [|c' t4]; [discriminate|].
    destruct (Ascii.eqb c' ",").
    { apply parsed_map_inv in H. destruct H as (l' & Hl & ->).
      constructor; [eapply IHv | eapply IHm]; eassumption. }
    destruct (Ascii.eqb c' "}"); [|discriminate].
    inversion H; subst. constructor; [eapply IHv; eassumption | constructor].
Qed.

Lemma json_loads_wf (text : string) (v : pyval) :
  json_loads text = Ok v -> wf_pyval v.
Proof.
  unfold json_loads. intros H.
  destruct (parse_value _ text) as [x r| |] eqn:E; try discriminate.
  destruct (skip_ws r); inversion H; subst.
  eapply (proj1 (parse_wf _)). exact E.
Qed.

(** ** Saving and loading the registry *)

(** C8.  Saving a well-formed registry and then loading yields that
    registry: when [save_config R] returns, [load_config] in the world it
    leaves returns [R] and changes nothing. *)
Theorem save_then_load (R : pyval) (w w' : world) :
  wf_pyval R ->
  save_config R w = (Ok tt, w') ->
  load_config w' = (Ok R, w').
Proof.
  intros Hwf Hsave.
  destruct (save_config_spec _ _ _ _ Hsave) as [[_ Hw] | [[e He] _]]; [|discriminate].
  unfold load_config, bind, get_config_path, path_exists.
  fold (config_path_of (home w')). fold (config_path w').
  assert (Hp : config_path w' = config_path w) by now subst w'.
  assert (Hf : fs w' (config_path w') = File (json_dumps_indent 0 R)).
  { rewrite Hp. subst w'. cbn [fs set_fs]. unfold fs_update.
    now rewrite String.eqb_refl. }
  rewrite Hf. cbn [negb]. unfold read_file. rewrite Hf. unfold lift.
  now rewrite (json_loads_dumps R Hwf).
Qed.

Lemma sample_registry_wf : wf_pyval sample_registry.
Proof.
  cbn. repeat split; repeat constructor; cbn; intuition discriminate.
Qed.

Lemma save_then_load_witness :
  load_config (snd (save_config sample_registry w_cursor))
  = (Ok sample_registry, snd (save_config sample_registry w_cursor)).
Proof.
  apply (save_then_load sample_registry w_cursor
           (snd (save_config sample_registry w_cursor))).
  - exact sample_registry_wf.
  - reflexivity.
Defined.

(** ** The registry-package install, all attempts *)

Lemma occurrences_app (e : event) (a b : list event) :
  occurrences e (a ++ b) = (occurrences e a + occurrences e b)%nat.
Proof. unfold occurrences. now rewrite filter_app, List.length_app. Qed.

Lemma occurrences_quiet (new : list event) :
  forallb quiet new = true ->
  occurrences (Log INFO msg_installing) new = 0%nat
  /\ occurrences (Log INFO msg_installing_local) new = 0%nat.
Proof.
  unfold occurrences. induction new as [|e new IH]; [now split|].
  cbn [forallb filter]. intros H. apply andb_true_iff in H. destruct H as [He Hn].
  unfold quiet, opens_install in He. apply negb_true_iff, orb_false_iff in He.
  destruct He as [-> ->]. now apply IH.
Qed.

(** The same alternative for the whole loop, with the number of attempts
    bounded by the iterations left. *)
Lemma install_loop_effect (name : string) (args : option (list string))
    (env : option envmap) (max_retries : Z) (remaining : nat) :
  forall (attempt : Z) (w w' : world) (r : outcome (option bool)),
    retry_loop (install_attempt name args env) max_retries attempt remaining w = (r, w') ->
    home w' = home w
    /\ (forall p, touch_install (home w) p = false -> fs w' p = fs w p)
    /\ (exists new, trace w' = (trace w ++ new)%list
                    /\ (Nat.min 1 remaining
                        <= occurrences (Log INFO msg_installing) new
                        <= remaining)%nat)
    /\ ((r = Ok (Some true)
         /\ exists config config',
             registry_before w config
             /\ set_server config name
                  (server_entry "npx" ("-y" :: name :: list_or_empty args) env)
                = Ok config'
             /\ fs w' (config_path w) = File (json_dumps_indent 0 config'))
        \/ (r <> Ok (Some true) /\ fs w' (config_path w) = fs w (config_path w))).
Proof.
  induction remaining as [|n IH]; intros attempt w w' r H.
  - inversion H; subst. repeat split; auto.
    + exists []. rewrite List.app_nil_r. split; [reflexivity | cbn; lia].
    + right. split; [discriminate | reflexivity].
  - cbn [retry_loop] in H. unfold try_except in H.
    destruct (install_attempt name args env w) as [rb w1] eqn:Eb.
    destruct (install_attempt_effect _ _ _ _ _ _ Eb)
      as ((Hh1 & _ & Hf1 & new1 & Ht1 & Hq1) & Hcase1).
    destruct (occurrences_quiet new1 Hq1) as [Ho1 _].
    assert (Hcount1 : occurrences (Log INFO msg_installing)
                                  (Log INFO msg_installing :: new1) = 1%nat).
    { change (Log INFO msg_installing :: new1)
        with ([Log INFO msg_installing] ++ new1)%list.
      rewrite occurrences_app, Ho1. reflexivity. }
    destruct rb as [x|e|].
    + inversion H; subst r w'. repeat split; auto.
      exists (Log INFO msg_installing :: new1). split; [exact Ht1|]. lia.
    + assert (Hc1 : fs w1 (config_path w) = fs w (config_path w)).
      { destruct Hcase1 as [[Hr _] | [_ Hc]]; [discriminate | exact Hc]. }
      unfold bind at 1 in H. cbn [log] in H.
      set (w2 := add_event (Log ERROR msg_attempt_failed) w1) in *.
      destruct (attempt <? max_retries - 1)%Z.
      * unfold bind at 1 in H. cbn [log] in H.
        unfold bind at 1 in H. cbn [sleep] in H.
        set (w3 := add_event (Sleep 1) (add_event (Log INFO msg_waiting) w2)) in *.
        destruct (IH _ _ _ _ H) as (Hh & Hf & (new & Ht & Hn) & Hcase).
        change (home w3) with (home w1) in *.
        change (fs w3) with (fs w1) in *.
        assert (Hp3 : config_path w3 = config_path w)
          by (unfold config_path; cbn; now rewrite Hh1).
        rewrite Hp3 in Hcase.
        split; [congruence|]. split.
        { intros p Hp. rewrite Hf by (now rewrite Hh1). now apply Hf1. }
        split.
        { exists ((Log INFO msg_installing :: new1)
                    ++ [Log ERROR msg_attempt_failed; Log INFO msg_waiting; Sleep 1]
                    ++ new)%list.
          split.
          - rewrite Ht. subst w3 w2. cbn [trace add_event]. rewrite Ht1.
            rewrite <- !List.app_assoc. reflexivity.
          - rewrite !occurrences_app, Hcount1.
            change (occurrences (Log INFO msg_installing)
                      [Log ERROR msg_attempt_failed; Log INFO msg_waiting; Sleep 1])
              with 0%nat.
            lia. }
        destruct Hcase as [(Hr & config & config' & Hb & Hs & Hfile) | [Hr Hc]].
        { left. split; [exact Hr|]. exists config, config'.
          split; [|split; assumption].
          unfold registry_before in *. rewrite Hp3 in Hb.
          change (fs w3) with (fs w1) in Hb. now rewrite Hc1 in Hb. }
        { right. split; [exact Hr|]. now rewrite Hc. }
      * cbn in H. inversion H; subst r w'. cbn [home fs add_event].
        split; [exact Hh1|]. split; [exact Hf1|]. split.
        { exists ((Log INFO msg_installing :: new1)
                    ++ [Log ERROR msg_attempt_failed; Log ERROR msg_all_failed])%list.
          split.
          - subst w2. cbn [trace add_event]. rewrite Ht1.
            rewrite <- !List.app_assoc. reflexivity.
          - rewrite occurrences_app, Hcount1.
            change (occurrences (Log INFO msg_installing)
                      [Log ERROR msg_attempt_failed; Log ERROR msg_all_failed])
              with 0%nat.
            lia. }
        right. split; [discriminate | exact Hc1].
    + inversion H; subst r w'. repeat split; auto.
      exists (Log INFO msg_installing :: new1). split; [exact Ht1|]. lia.
Qed.

(** ** The local-path install *)

Lemma install_local_body_effect (path : string) (args : option (list string))
    (env : option envmap) (w w' : world) (r : outcome (option bool)) :
  install_local_body path args env w = (r, w') ->
  (home w' = home w /\ exec w' = exec w
   /\ (forall p, touch_install (home w) p = false -> fs w' p = fs w p)
   /\ exists new, trace w' = (trace w ++ Log INFO msg_installing_local :: new)%list
                  /\ forallb quiet new = true)
  /\ ((r = Ok (Some true)
       /\ exists name config config',
           registry_before w config
           /\ set_server_value config name
                (server_entry "node" (path_join path "index.js" :: list_or_empty args) env)
              = Ok config'
           /\ fs w' (config_path w) = File (json_dumps_indent 0 config'))
      \/ (r <> Ok (Some true) /\ fs w' (config_path w) = fs w (config_path w))).
Proof.
  intros H. unfold install_local_body in H.
  unfold bind at 1 in H. cbn [log] in H.
  set (w0 := add_event (Log INFO msg_installing_local) w) in *.
  split.
  - match type of H with
    | ?R w0 = _ => assert (F : footprint touch_install quiet R) by footprint_install
    end.
    destruct (F _ _ _ H) as (Hh & He & Hf & new & Ht & Hn).
    repeat split; auto. exists new. split; [|exact Hn].
    rewrite Ht. subst w0. simpl. now rewrite <- List.app_assoc.
  - unfold bind at 1 in H. cbn [path_exists] in H.
    destruct (negb match fs w0 path with Missing => false | _ => true end).
    { cbn in H. inversion H; subst. right. split; [discriminate | reflexivity]. }
    apply bind_inv in H.
    destruct H as [(c & w2 & E2 & H) | [(e & E2 & ->) | (E2 & ->)]];
      pose proof (footprint_is_mcp_compliant touch_nothing _ _ _ _ _ _ E2)
        as (Hh2 & _ & Hf2 & _);
      try (right; split; [discriminate | apply (Hf2 (config_path w)); reflexivity]).
    change (home w0) with (home w) in Hh2.
    assert (Hc2 : fs w2 (config_path w) = fs w (config_path w))
      by (apply (Hf2 (config_path w)); reflexivity).
    destruct (negb (truthy c)).
    { cbn in H. inversion H; subst. right. split; [discriminate | exact Hc2]. }
    assert (Hp2 : config_path w2 = config_path w)
      by (unfold config_path; congruence).
    apply bind_inv in H.
    destruct H as [(config & w3 & E3 & H) | [(e & E3 & ->) | (E3 & ->)]];
      pose proof (load_config_spec _ _ _ E3) as (Hh3 & _ & _ & _ & Hf3 & Hreg);
      try (right; split; [discriminate |
                          rewrite <- Hp2, Hf3 by (apply config_path_not_dir);
                          rewrite Hp2; exact Hc2]).
    assert (Hc3 : fs w3 (config_path w) = fs w (config_path w))
      by (rewrite <- Hp2, Hf3 by (apply config_path_not_dir); rewrite Hp2; exact Hc2).
    assert (Hp3 : config_path w3 = config_path w)
      by (unfold config_path; congruence).
    assert (Hbefore : registry_before w config).
    { specialize (Hreg config eq_refl). unfold registry_before in *.
      now rewrite Hp2, Hc2 in Hreg. }
    apply bind_inv in H.
    destruct H as [(info & w4 & E4 & H) | [(e & E4 & ->) | (E4 & ->)]];
      pose proof (footprint_check_package_json touch_nothing _ _ _ _ E4)
        as (Hh4 & _ & Hf4 & _);
      try (right; split; [discriminate |
                          rewrite (Hf4 (config_path w)) by reflexivity; exact Hc3]).
    assert (Hc4 : fs w4 (config_path w) = fs w (config_path w))
      by (rewrite (Hf4 (config_path w)) by reflexivity; exact Hc3).
    assert (Hp4 : config_path w4 = config_path w)
      by (unfold config_path; congruence).
    apply bind_inv in H. unfold lift in H.
    destruct H as [(name & w4' & E5 & H) | [(e & E5 & ->) | (E5 & ->)]];
      inversion E5; subst;
      try (right; split; [discriminate | exact Hc4]).
    apply bind_inv in H.
    destruct H as [(config' & w4'' & E6 & H) | [(e & E6 & ->) | (E6 & ->)]];
      inversion E6; subst;
      try (right; split; [discriminate | exact Hc4]).
    match goal with
    | Hsv : set_server_value _ _ _ = Ok _ |- _ => rename Hsv into Hset
    end.
    apply bind_inv in H.
    destruct H as [([] & w5 & E7 & H) | [(e & E7 & ->) | (E7 & ->)]];
      destruct (save_config_spec _ _ _ _ E7) as [[Hr7 Hw7] | [[e7 Hr7] Hw7]];
      try discriminate;
      try (right; split; [discriminate | subst; exact Hc4]).
    destruct (generate_smithery_yaml_total (py_str name) "node"
                (Some (path_join path "index.js" :: list_or_empty args)) env w5)
      as (b & w6 & E8).
    pose proof (footprint_generate_smithery_yaml _ _ _ _ _ _ _ E8)
      as (Hh8 & _ & Hf8 & _).
    rewrite (bind_ok _ _ _ _ _ E8) in H. cbn in H. inversion H; subst r w'.
    left. split; [reflexivity|]. exists name, config, config'.
    split; [exact Hbefore|]. split; [exact Hset|].
    cbn [fs add_event]. rewrite Hf8.
    + rewrite Hw7. cbn [fs set_fs]. unfold fs_update.
      now rewrite Hp4, String.eqb_refl.
    + apply config_path_not_manifest.
Qed.

(** The local-path install as a whole: the [except] clause turns an
    exception of the body into [False]. *)
Lemma install_local_effect (path : string) (args : option (list string))
    (env : option envmap) (max_retries : Z) (w w' : world)
    (r : outcome (option bool)) :
  install_local_mcp_server path args env max_retries w = (r, w') ->
  (home w' = home w
   /\ (forall p, touch_install (home w) p = false -> fs w' p = fs w p)
   /\ exists new, trace w' = (trace w ++ Log INFO msg_installing_local :: new)%list
                  /\ forallb quiet new = true)
  /\ ((exists b, r = Ok (Some b)) \/ r = Unmodelled)
  /\ ((r = Ok (Some true)
       /\ exists name config config',
           registry_before w config
           /\ set_server_value config name
                (server_entry "node" (path_join path "index.js" :: list_or_empty args) env)
              = Ok config'
           /\ fs w' (config_path w) = File (json_dumps_indent 0 config'))
      \/ (r <> Ok (Some true) /\ fs w' (config_path w) = fs w (config_path w))).
Proof.
  intros H. unfold install_local_mcp_server, try_except in H.
  destruct (install_local_body path args env w) as [rb w1] eqn:Eb.
  destruct (install_local_body_effect _ _ _ _ _ _ Eb)
    as ((Hh1 & _ & Hf1 & new1 & Ht1 & Hq1) & Hcase1).
  assert (Hsome : forall x, rb = Ok x -> exists b, x = Some b).
  { intros x ->. unfold install_local_body in Eb.
    repeat match type of Eb with
           | bind ?m ?k ?w = _ =>
               unfold bind at 1 in Eb;
               let E := fresh "E" in
               destruct (m w) as [[?|?|] ?] eqn:E; try discriminate
           | (if ?c then _ else _) ?w = _ => destruct c
           end;
      inversion Eb; eauto. }
  destruct rb as [x|e|].
  - inversion H; subst r w'. destruct (Hsome x eq_refl) as [b ->].
    split; [repeat split; eauto|]. split; [left; eauto | exact Hcase1].
  - cbn in H. inversion H; subst r w'. cbn [home fs add_event].
    split.
    + repeat split; auto.
      exists (new1 ++ [Log ERROR "Failed to install local MCP server: {str(e)}"])%list.
      split.
      * cbn [trace add_event]. rewrite Ht1. now rewrite <- List.app_assoc.
      * rewrite forallb_app, Hq1. reflexivity.
    + split; [left; eauto|]. right. split; [discriminate|].
      destruct Hcase1 as [[Hr _] | [_ Hc]]; [discriminate | exact Hc].
  - inversion H; subst r w'.
    split; [repeat split; eauto|]. split; [now right | exact Hcase1].
Qed.

(** ** One server changes, the others stay *)

Lemma set_server_frame (config : pyval) (name : string) (entry config' : pyval) :
  set_server config name entry = Ok config' ->
  server_of config' name = Some entry /\ only_differs_at name config config'.
Proof.
  unfold set_server. destruct config as [| | | | |d]; try discriminate.
  destruct (dict_get "mcpServers" d) as [servers|] eqn:E; [|discriminate].
  destruct servers as [| | | | |servers]; try discriminate.
  intros H. inversion H; subst config'. clear H.
  unfold only_differs_at, server_of, top_level. rewrite dict_get_set_same, E.
  split; [apply dict_get_set_same|]. split.
  - intros other Hne. now apply dict_get_set_other.
  - intros key Hne. now apply dict_get_set_other.
Qed.

Lemma expected_entry_server_entry (name : string) (args : option (list string))
    (env : option envmap) :
  server_entry "npx" ("-y" :: name :: list_or_empty args) env
  = expected_entry name args env.
Proof. destruct env as [[|kv rest]|]; reflexivity. Qed.

Lemma replace_nth_length (i : nat) (v : pyval) (items : list pyval) :
  List.length (replace_nth i v items) = List.length items.
Proof.
  revert i. induction items as [|x rest IH]; intros [|i]; cbn; auto.
Qed.

Lemma replace_nth_same (i : nat) (v : pyval) (items : list pyval) :
  (i < List.length items)%nat -> nth_error (replace_nth i v items) i = Some v.
Proof.
  revert i. induction items as [|x rest IH]; intros [|i] H; cbn in *; try lia.
  - reflexivity.
  - apply IH. lia.
Qed.

Lemma replace_nth_other (i j : nat) (v : pyval) (items : list pyval) :
  j <> i -> nth_error (replace_nth i v items) j = nth_error items j.
Proof.
  revert i j. induction items as [|x rest IH]; intros [|i] [|j] H; cbn;
    try reflexivity; try congruence.
  apply IH. congruence.
Qed.

Lemma list_position_bound (index : Z) (n i : nat) :
  list_position index n = Some i -> (i < n)%nat.
Proof.
  unfold list_position.
  destruct ((0 <=? _)%Z && (_ <? Z.of_nat n)%Z) eqn:E; [|discriminate].
  apply andb_true_iff in E. destruct E as [E1 E2].
  apply Z.leb_le in E1. apply Z.ltb_lt in E2.
  intros H. inversion H; subst. lia.
Qed.

Lemma dict_get_app_last {V : Type} (k k0 : string) (v : V) (d : list (string * V)) :
  k <> k0 -> dict_get k (d ++ [(k0, v)]) = dict_get k d.
Proof.
  intros Hne. induction d as [|[k' v'] d IH]; cbn.
  - apply String.eqb_neq in Hne. now rewrite Hne.
  - destruct (String.eqb k k'); [reflexivity | exact IH].
Qed.

(** What the assignment [config["mcpServers"][key] = entry] changes: the
    server [key] when [key] is a string; nothing that was there when
    [key] is a number, a truth value or [None] and [mcpServers] a
    dictionary, the entry being added after the others; one item when
    [mcpServers] is a list. *)
Lemma set_server_value_frame (config key entry config' : pyval) :
  set_server_value config key entry = Ok config' ->
  (forall k, k <> "mcpServers" -> top_level config' k = top_level config k)
  /\ ((exists server,
         key = PStr server
         /\ server_of config' server = Some entry
         /\ only_differs_at server config config')
      \/ (exists servers text,
            (forall s, key <> PStr s)
            /\ key_text key = Some text
            /\ top_level config "mcpServers" = Some (PDict servers)
            /\ top_level config' "mcpServers"
               = Some (PDict (servers ++ [(text, entry)])))
      \/ (exists items items' index i,
            list_index key = Some index
            /\ list_position index (List.length items) = Some i
            /\ top_level config "mcpServers" = Some (PList items)
            /\ top_level config' "mcpServers" = Some (PList items')
            /\ List.length items' = List.length items
            /\ nth_error items' i = Some entry
            /\ forall j, j <> i -> nth_error items' j = nth_error items j)).
Proof.
  intros H.
  assert (Hstr : forall server, key = PStr server ->
            (forall k, k <> "mcpServers" -> top_level config' k = top_level config k)
            /\ server_of config' server = Some entry
            /\ only_differs_at server config config').
  { intros server ->. cbn [set_server_value] in H.
    destruct (set_server_frame _ _ _ _ H) as [He Hf].
    split; [apply Hf | now split]. }
  assert (Hother : (forall s, key <> PStr s) ->
            exists d, config = PDict d
              /\ ((exists servers text,
                     key_text key = Some text
                     /\ dict_get "mcpServers" d = Some (PDict servers)
                     /\ config' = PDict (dict_set "mcpServers"
                                           (PDict (servers ++ [(text, entry)])) d))
                  \/ (exists items items' index,
                        list_index key = Some index
                        /\ dict_get "mcpServers" d = Some (PList items)
                        /\ list_set index entry items = Ok items'
                        /\ config' = PDict (dict_set "mcpServers" (PList items') d)))).
  { intros Hk.
    assert (H' : match config with
                 | PDict d =>
                     match dict_get "mcpServers" d with
                     | Some (PDict servers) =>
                         match key_text key with
                         | Some text =>
                             Ok (PDict (dict_set "mcpServers"
                                          (PDict (servers ++ [(text, entry)])) d))
                         | None => Raise TypeError
                         end
                     | Some (PList items) =>
                         match list_index key with
                         | Some index =>
                             match list_set index entry items with
                             | Ok items' =>
                                 Ok (PDict (dict_set "mcpServers" (PList items') d))
                             | Raise e => Raise e
                             | Unmodelled => Unmodelled
                             end
                         | None => Raise TypeError
                         end
                     | Some _ => Raise TypeError
                     | None => Raise (KeyError "mcpServers")
                     end
                 | _ => Raise TypeError
                 end = Ok config').
    { destruct key; try exact H. now contradiction (Hk s). }
    clear H. destruct config as [| | | | |d]; try discriminate.
    exists d. split; [reflexivity|].
    destruct (dict_get "mcpServers" d) as [[| | | |items|servers]|] eqn:E;
      try discriminate.
    - right. destruct (list_index key) as [index|]; [|discriminate].
      destruct (list_set index entry items) as [items'| |] eqn:El; try discriminate.
      inversion H'; subst. exists items, items', index. auto.
    - left. destruct (key_text key) as [text|]; [|discriminate].
      inversion H'; subst. exists servers, text. auto. }
  destruct key as [| b | z | s | l | l].
  4:{ destruct (Hstr s eq_refl) as (Ht & He & Hf). split; [exact Ht|].
      left. exists s. auto. }
  all: destruct Hother as (d & -> & Hcase); [intros s; discriminate|];
    (split;
     [ intros k Hk; unfold top_level;
       destruct Hcase as [(servers & text & _ & _ & ->)
                         | (items & items' & index & _ & _ & _ & ->)];
       now apply dict_get_set_other
     | destruct Hcase as [(servers & text & Ht & Hd & ->)
                         | (items & items' & index & Hi & Hd & Hl & ->)];
       [ right; left; exists servers, text; unfold top_level;
         rewrite dict_get_set_same;
         (split; [intros s; discriminate|]); auto
       | right; right; unfold list_set in Hl;
         destruct (list_position index (List.length items)) as [i|] eqn:Ep;
         [|discriminate];
         inversion Hl; subst items';
         exists items, (replace_nth i entry items), index, i; unfold top_level;
         rewrite dict_get_set_same;
         pose proof (list_position_bound _ _ _ Ep);
         repeat split; auto;
         [ apply replace_nth_length
         | now apply replace_nth_same
         | intros j Hj; now apply replace_nth_other ] ] ]).
Qed.



(** ** The registry-package install that succeeds *)

Lemma empty_config_wf : wf_pyval empty_config.
Proof. cbn. repeat split; repeat constructor; cbn; intuition. Qed.

Lemma registry_before_wf (w : world) (config : pyval) :
  registry_before w config -> wf_pyval config.
Proof.
  unfold registry_before. destruct (fs w (config_path w)) as [|text|].
  - intros ->. apply empty_config_wf.
  - apply json_loads_wf.
  - contradiction.
Qed.

Lemma dict_set_wf (k : string) (v : pyval) (d : list (string * pyval)) :
  wf_pyval v -> wf_pyval (PDict d) -> wf_pyval (PDict (dict_set k v d)).
Proof.
  rewrite !wf_pyval_dict. intros Hv [Hnd Hall]. split.
  - now apply dict_set_NoDup.
  - now apply dict_set_values.
Qed.

Lemma dict_get_wf (k : string) (v : pyval) (d : list (string * pyval)) :
  wf_pyval (PDict d) -> dict_get k d = Some v -> wf_pyval v.
Proof.
  rewrite wf_pyval_dict. intros [_ Hall]. induction Hall as [|[k' v'] d Hv Hall IH];
    cbn [dict_get]; [discriminate|].
  destruct (String.eqb k k'); [intros H; inversion H; subst; exact Hv | exact IH].
Qed.

Lemma set_server_wf (config : pyval) (name : string) (entry config' : pyval) :
  wf_pyval config -> wf_pyval entry ->
  set_server config name entry = Ok config' -> wf_pyval config'.
Proof.
  intros Hc He. unfold set_server. destruct config as [| | | | |d]; try discriminate.
  destruct (dict_get "mcpServers" d) as [servers|] eqn:E; [|discriminate].
  destruct servers as [| | | | |servers]; try discriminate.
  intros H. inversion H; subst config'.
  apply dict_set_wf; [|exact Hc].
  apply dict_set_wf; [exact He|]. eapply dict_get_wf; eassumption.
Qed.

Lemma strings_wf (l : list string) : wf_pyval (PList (map PStr l)).
Proof. apply wf_pyval_list. induction l; constructor; [exact I | assumption]. Qed.

Lemma env_dict_wf (e : envmap) :
  NoDup (dict_keys e) -> wf_pyval (PDict (map (fun b => (fst b, PStr (snd b))) e)).
Proof.
  intros Hnd. apply wf_pyval_dict. split.
  - unfold dict_keys in *. rewrite map_map. cbn [fst]. exact Hnd.
  - induction e; constructor; [exact I|]. apply IHe. now inversion Hnd.
Qed.

Lemma expected_entry_wf (name : string) (args : option (list string))
    (env : option envmap) :
  env_is_dict env -> wf_pyval (expected_entry name args env).
Proof.
  intros Henv. unfold expected_entry. apply wf_pyval_dict.
  assert (Hbase : forall tail : list (string * pyval),
             Forall (fun kv => wf_pyval (snd kv)) tail ->
             Forall (fun kv => wf_pyval (snd kv))
                    ([("command", PStr "npx");
                      ("args", PList (map PStr ("-y" :: name :: list_or_empty args)));
                      ("type", PStr "stdio")] ++ tail)).
  { intros tail Ht. cbn [app].
    constructor; [exact I|]. constructor; [apply strings_wf|].
    constructor; [exact I | exact Ht]. }
  destruct env as [[|kv rest]|]; (split; [|apply Hbase]).
  - cbn. repeat constructor; cbn; intuition discriminate.
  - constructor.
  - cbn. repeat constructor; cbn; intuition discriminate.
  - constructor; [|constructor]. cbn [snd]. now apply env_dict_wf.
  - cbn. repeat constructor; cbn; intuition discriminate.
  - constructor.
Qed.

(** C1 (amended).  With [max_retries >= 1], when the [node] and [npm]
    probes succeed, the compliance check returns [True], the registry is
    loaded without an exception as an object that has an object under
    [mcpServers], and saving it succeeds, the registry-package install
    returns [True] and the registry file holds a registry that maps the
    name to [{command: "npx", args: ["-y", name] ++ extraArgs, type:
    "stdio"}], with [env: env] added exactly when [env] is a map with at
    least one key, every other server being as it was.  When [env] is a
    dictionary, loading the registry afterwards returns that registry. *)
Theorem registry_install_success (name : string) (args : option (list string))
    (env : option envmap) (max_retries : Z) (w w1 w2 w3 w4 : world)
    (status : env_status) (config config' : pyval) :
  (1 <= max_retries)%Z ->
  check_environment (add_event (Log INFO msg_installing) w) = (Ok status, w1) ->
  st_node status = true ->
  st_npm status = true ->
  is_mcp_compliant name None 3 w1 = (Ok (Some true), w2) ->
  load_config w2 = (Ok config, w3) ->
  set_server config name (expected_entry name args env) = Ok config' ->
  save_config config' w3 = (Ok tt, w4) ->
  exists w',
    install_mcp_server name args env max_retries w = (Ok (Some true), w')
    /\ fs w' (config_path w) = File (json_dumps_indent 0 config')
    /\ server_of config' name = Some (expected_entry name args env)
    /\ only_differs_at name config config'
    /\ (env_is_dict env -> load_config w' = (Ok config', w')).
Proof.
  intros Hmr Hprobe Hnode Hnpm Hcomp Hload Hset Hsave.
  pose proof (footprint_check_environment _ _ _ Hprobe) as (Hh1 & _ & _ & _).
  pose proof (footprint_is_mcp_compliant touch_nothing _ _ _ _ _ _ Hcomp)
    as (Hh2 & _ & _ & _).
  pose proof (load_config_spec _ _ _ Hload) as (Hh3 & _ & _ & _ & _ & Hreg).
  specialize (Hreg config eq_refl).
  destruct (save_config_spec _ _ _ _ Hsave) as [[_ Hw4] | [[e He] _]]; [|discriminate].
  destruct (generate_smithery_yaml_total name "npx"
              (Some ("-y" :: name :: list_or_empty args)) env w4) as (b & w5 & Hgen).
  pose proof (footprint_generate_smithery_yaml _ _ _ _ _ _ _ Hgen)
    as (Hh5 & _ & Hf5 & _).
  change (home (add_event (Log INFO msg_installing) w)) with (home w) in Hh1.
  assert (Hp3 : config_path w3 = config_path w)
    by (unfold config_path; congruence).
  assert (Hattempt :
            install_attempt name args env w
            = (Ok (Some true),
               add_event (Log INFO "Successfully installed MCP server: {name}") w5)).
  { unfold install_attempt.
    rewrite (bind_ok _ _ w (add_event (Log INFO msg_installing) w) tt) by reflexivity.
    rewrite (bind_ok _ _ _ _ _ Hprobe). rewrite Hnode, Hnpm. cbn [negb orb].
    rewrite (bind_ok _ _ _ _ _ Hcomp). cbn [truthy negb].
    rewrite (bind_ok _ _ _ _ _ Hload).
    rewrite expected_entry_server_entry.
    rewrite (bind_ok _ _ w3 w3 config') by (unfold lift; now rewrite Hset).
    rewrite (bind_ok _ _ _ _ _ Hsave).
    rewrite (bind_ok _ _ _ _ _ Hgen). reflexivity. }
  set (w' := add_event (Log INFO "Successfully installed MCP server: {name}") w5) in *.
  assert (Hfile : fs w' (config_path w) = File (json_dumps_indent 0 config')).
  { subst w'. cbn [fs add_event]. rewrite Hf5 by apply config_path_not_manifest.
    rewrite Hw4. cbn [fs set_fs]. unfold fs_update.
    now rewrite Hp3, String.eqb_refl. }
  destruct (set_server_frame _ _ _ _ Hset) as [Hentry Hframe].
  exists w'. split.
  { unfold install_mcp_server.
    destruct (Z.to_nat max_retries) as [|n] eqn:E; [lia|].
    cbn [retry_loop]. now rewrite (try_except_ok _ _ _ _ _ Hattempt). }
  split; [exact Hfile|]. split; [exact Hentry|]. split; [exact Hframe|].
  intros Henv.
  assert (Hwf : wf_pyval config').
  { eapply set_server_wf; [| |exact Hset].
    - unfold registry_before in Hreg.
      destruct (fs w2 (config_path w2)) as [|text|].
      + subst config. apply empty_config_wf.
      + now apply json_loads_wf in Hreg.
      + contradiction.
    - now apply expected_entry_wf. }
  assert (Hp' : config_path w' = config_path w).
  { unfold config_path. subst w'. cbn [home add_event]. rewrite Hh5, Hw4.
    cbn [home set_fs]. congruence. }
  unfold load_config, bind, get_config_path, path_exists.
  fold (config_path_of (home w')). fold (config_path w').
  rewrite Hp', Hfile. cbn [negb]. unfold read_file. rewrite Hfile. unfold lift.
  now rewrite (json_loads_dumps config' Hwf).
Qed.

Lemma registry_install_success_witness :
  exists w',
    install_mcp_server "example-pkg" (Some ["--verbose"]) (Some [("X", "1")]) 3
                       w_installed
    = (Ok (Some true), w')
    /\ fs w' (config_path w_installed) = File (json_dumps_indent 0 sample_registry_after)
    /\ server_of sample_registry_after "example-pkg"
       = Some (expected_entry "example-pkg" (Some ["--verbose"]) (Some [("X", "1")]))
    /\ only_differs_at "example-pkg" sample_registry sample_registry_after
    /\ (env_is_dict (Some [("X", "1")]) ->
        load_config w' = (Ok sample_registry_after, w')).
Proof.
  eapply (registry_install_success
            "example-pkg" (Some ["--verbose"]) (Some [("X", "1")]) 3 w_installed
            _ _ _ _ _ sample_registry sample_registry_after).
  - lia.
  - reflexivity.
  - reflexivity.
  - reflexivity.
  - reflexivity.
  - reflexivity.
  - reflexivity.
  - reflexivity.
Defined.

(** C1 as stated fails when the registry file holds the empty object: the
    probes succeed and the compliance check returns [True], yet each of
    the three attempts ends in a [KeyError] on [mcpServers], the install
    returns [False] and the file is left as it was. *)
Lemma registry_install_fails_without_servers :
  fst (check_environment (add_event (Log INFO msg_installing) w_no_servers))
  = Ok (mkEnvStatus true true true)
  /\ fst (is_mcp_compliant "example-pkg" None 3
            (snd (check_environment (add_event (Log INFO msg_installing) w_no_servers))))
     = Ok (Some true)
  /\ fst (install_mcp_server "example-pkg" (Some ["--verbose"]) (Some [("X", "1")]) 3
                             w_no_servers)
     = Ok (Some false)
  /\ fs (snd (install_mcp_server "example-pkg" (Some ["--verbose"]) (Some [("X", "1")]) 3
                                 w_no_servers))
        (config_path w_no_servers)
     = File (json_dumps (PDict [])).
Proof. vm_compute. repeat split. Qed.

(** ** Failures of an install *)














Section InstallFailures.

Variable url_auto_detect : namespace -> envmap -> M (option bool).
Variable install_supabase_mcp :
  string -> string -> option string -> option string -> M bool.


End InstallFailures.



(* ================================================================== *)
(** * Further properties *)

(** ** More of ConfigStore *)

Lemma path_prefixes_from_last (s : string) :
  forall done,
    String.eqb (done ++ s) "" = false ->
    In (done ++ s) (path_prefixes_from done s).
Proof.
  induction s as [|c s IH]; intros done H; cbn [path_prefixes_from].
  - rewrite string_app_nil in *. rewrite H. now left.
  - assert (E : done ++ String c s = (done ++ String c "") ++ s).
    { now rewrite string_app_assoc. }
    destruct (Ascii.eqb c "/" && negb (String.eqb done "")) eqn:Ec.
    + right. apply andb_true_iff in Ec. destruct Ec as [Hc _].
      apply Ascii.eqb_eq in Hc. subst c. rewrite E. apply IH. now rewrite <- E.
    + rewrite E. apply IH. now rewrite <- E.
Qed.

(** [mkdir] along a chain with no file in the way succeeds and leaves a
    directory at every step. *)
Lemma mkdir_chain_ok (ps : list string) :
  forall f,
    (forall p content, In p ps -> f p <> File content) ->
    exists f',
      mkdir_chain ps f = (Ok tt, f')
      /\ (forall p, In p ps -> f' p = Dir)
      /\ (forall p, ~ In p ps -> f' p = f p).
Proof.
  induction ps as [|q ps IH]; intros f Hf; cbn [mkdir_chain].
  - exists f. repeat split; auto. intros p [].
  - assert (Hstep : forall g, (forall p, g p = f p \/ g p = Dir) ->
                              forall p content, In p ps -> g p <> File content).
    { intros g Hg p content Hin. destruct (Hg p) as [-> | ->]; [|discriminate].
      apply Hf. now right. }
    destruct (f q) as [|content|] eqn:Eq.
    + destruct (IH (fs_update q Dir f)) as (f' & Hm & Hin & Hout).
      { apply Hstep. intros p. unfold fs_update. destruct (String.eqb p q); auto. }
      exists f'. split; [exact Hm|]. split.
      * intros p [<- | Hp]; [|now apply Hin].
        destruct (in_dec string_dec q ps) as [Hq | Hq]; [now apply Hin|].
        rewrite (Hout q Hq). unfold fs_update. now rewrite String.eqb_refl.
      * intros p Hp. rewrite Hout by (intros H; apply Hp; now right).
        unfold fs_update. destruct (String.eqb p q) eqn:E; [|reflexivity].
        apply String.eqb_eq in E. subst p. exfalso. apply Hp. now left.
    + exfalso. apply (Hf q content); [now left | exact Eq].
    + destruct (IH f) as (f' & Hm & Hin & Hout).
      { apply Hstep. auto. }
      exists f'. split; [exact Hm|]. split.
      * intros p [<- | Hp]; [|now apply Hin].
        destruct (in_dec string_dec q ps) as [Hq | Hq]; [now apply Hin|].
        now rewrite (Hout q Hq).
      * intros p Hp. apply Hout. intros H; apply Hp; now right.
Qed.

(** [mkdir] never replaces what is there: a path it changes was missing
    and is a directory afterwards. *)
Lemma mkdir_chain_creates (ps : list string) :
  forall f r f',
    mkdir_chain ps f = (r, f') ->
    forall p, f' p = f p \/ (f p = Missing /\ f' p = Dir).
Proof.
  induction ps as [|q ps IH]; intros f r f' H p; cbn [mkdir_chain] in H.
  - inversion H. now left.
  - destruct (f q) as [|content|] eqn:Eq.
    + destruct (IH _ _ _ H p) as [Hp | [Hp Hd]]; unfold fs_update in Hp.
      * destruct (String.eqb p q) eqn:E; [|now left].
        apply String.eqb_eq in E. subst p. right. now split.
      * destruct (String.eqb p q); [discriminate|]. right. now split.
    + inversion H. now left.
    + apply (IH _ _ _ H p).
Qed.

Lemma config_dir_in_prefixes (h : string) :
  In (dirname (config_path_of h)) (path_prefixes (dirname (config_path_of h))).
Proof.
  destruct (config_path_shape h) as (d & _ & -> & Hlen).
  unfold path_prefixes. apply (path_prefixes_from_last d "").
  destruct d; [simpl in Hlen; lia | reflexivity].
Qed.

(** X1.  The first run: when there is no registry file and no file stands
    where a directory above it should be, [load_config] returns the empty
    registry [{"mcpServers": {}}]; it creates the directory of the
    registry file, but not the file, and changes no other path. *)
Theorem load_config_first_run (w : world) :
  fs w (config_path w) = Missing ->
  (forall p content,
     In p (path_prefixes (dirname (config_path w))) -> fs w p <> File content) ->
  exists w',
    load_config w = (Ok empty_config, w')
    /\ fs w' (config_path w) = Missing
    /\ fs w' (dirname (config_path w)) = Dir
    /\ (forall p, ~ In p (path_prefixes (dirname (config_path w))) -> fs w' p = fs w p)
    /\ trace w' = trace w
    /\ ticks w' = ticks w.
Proof.
  intros Hmissing Hfree.
  destruct (mkdir_chain_ok _ (fs w) Hfree) as (f' & Hm & Hin & Hout).
  exists (set_fs f' w).
  unfold load_config, bind, get_config_path, path_exists.
  fold (config_path_of (home w)). fold (config_path w).
  rewrite Hmissing. cbn [negb]. unfold mkdir_parents. rewrite Hm.
  split; [reflexivity|]. cbn [fs set_fs trace ticks].
  assert (Hnot : ~ In (config_path w) (path_prefixes (dirname (config_path w)))).
  { intros H. pose proof (config_path_not_dir (home w)) as Hd.
    unfold touch_dirs in Hd. fold (config_path w) in Hd.
    assert (Ht : existsb (String.eqb (config_path w))
                   (path_prefixes (dirname (config_path w))) = true).
    { apply existsb_exists. exists (config_path w). split; [exact H|].
      apply String.eqb_refl. }
    rewrite Ht in Hd. discriminate. }
  split; [rewrite (Hout _ Hnot); exact Hmissing|].
  split; [apply Hin; apply config_dir_in_prefixes|].
  split; [exact Hout|]. split; reflexivity.
Qed.

Lemma load_config_first_run_witness :
  exists w',
    load_config w_offline = (Ok empty_config, w')
    /\ fs w' (config_path w_offline) = Missing
    /\ fs w' (dirname (config_path w_offline)) = Dir
    /\ (forall p, ~ In p (path_prefixes (dirname (config_path w_offline))) ->
                  fs w' p = fs w_offline p)
    /\ trace w' = trace w_offline
    /\ ticks w' = ticks w_offline.
Proof.
  apply (load_config_first_run w_offline).
  - reflexivity.
  - intros p content Hin. vm_compute in Hin.
    destruct Hin as [<- | [<- | [<- | []]]]; vm_compute; discriminate.
Defined.

(** [load_config] replaces nothing: a path it changes was missing and is
    a directory afterwards. *)
Lemma load_config_creates (w w' : world) (r : outcome pyval) (p : string) :
  load_config w = (r, w') ->
  fs w' p = fs w p \/ (fs w p = Missing /\ fs w' p = Dir).
Proof.
  unfold load_config, bind, get_config_path, path_exists.
  destruct (fs w _); cbn [negb].
  - unfold mkdir_parents.
    destruct (mkdir_chain _ (fs w)) as [r0 f] eqn:Ec.
    pose proof (mkdir_chain_creates _ _ _ _ Ec p) as Hc.
    destruct r0 as [[]|e|]; intros H; inversion H; subst; exact Hc.
  - unfold read_file, lift. destruct (fs w _); intros H; inversion H; subst; auto.
    destruct (parent_error _ _) as [[]|]; inversion H1; subst; auto.
  - unfold read_file, lift. destruct (fs w _); intros H; inversion H; subst; auto.
    destruct (parent_error _ _) as [[]|]; inversion H1; subst; auto.
Qed.

(** X2.  Reading the registry never rewrites or removes anything: after
    [load_config], whatever it returned, a path holds what it held, or it
    was missing and is now a directory; the registry file itself, the
    trace and the count of programs run are as before. *)
Theorem load_config_only_creates_directories (w : world) (p : string) :
  (fs (snd (load_config w)) p = fs w p
   \/ (fs w p = Missing /\ fs (snd (load_config w)) p = Dir))
  /\ fs (snd (load_config w)) (config_path w) = fs w (config_path w)
  /\ trace (snd (load_config w)) = trace w
  /\ ticks (snd (load_config w)) = ticks w.
Proof.
  destruct (load_config w) as [r w'] eqn:E. cbn [snd].
  destruct (load_config_spec _ _ _ E) as (_ & _ & Ht & Htr & Hf & _).
  split; [|split; [|split]]; auto.
  - apply (load_config_creates _ _ _ _ E).
  - apply Hf. apply config_path_not_dir.
Qed.



(** A registry that was saved is the registry that is loaded. *)
Lemma saved_registry_loads (R : pyval) (w w' : world) :
  wf_pyval R ->
  save_config R w = (Ok tt, w') ->
  load_config w' = (Ok R, w').
Proof.
  intros Hwf Hsave.
  destruct (save_config_spec _ _ _ _ Hsave) as [[_ Hw] | [[e He] _]]; [|discriminate].
  unfold load_config, bind, get_config_path, path_exists.
  fold (config_path_of (home w')). fold (config_path w').
  assert (Hf : fs w' (config_path w') = File (json_dumps_indent 0 R)).
  { subst w'. cbn [fs set_fs]. unfold fs_update, config_path. cbn [home set_fs].
    now rewrite String.eqb_refl. }
  rewrite Hf. cbn [negb]. unfold read_file. rewrite Hf. unfold lift.
  now rewrite (json_loads_dumps R Hwf).
Qed.

(** X4.  Load, save, load: whatever text the registry file holds, once
    [load_config] has read a registry from it and [save_config] has
    written that registry back, [load_config] reads the same registry
    again and changes nothing. *)
Theorem load_save_load (w w1 w2 : world) (R : pyval) :
  load_config w = (Ok R, w1) ->
  save_config R w1 = (Ok tt, w2) ->
  load_config w2 = (Ok R, w2).
Proof.
  intros Hload Hsave.
  destruct (load_config_spec _ _ _ Hload) as (_ & _ & _ & _ & _ & Hreg).
  apply (saved_registry_loads R w1 w2); [|exact Hsave].
  apply (registry_before_wf w). now apply Hreg.
Qed.

Lemma load_save_load_witness :
  load_config (snd (save_config sample_registry (snd (load_config w_installed))))
  = (Ok sample_registry,
     snd (save_config sample_registry (snd (load_config w_installed)))).
Proof.
  apply (load_save_load w_installed (snd (load_config w_installed))
           (snd (save_config sample_registry (snd (load_config w_installed))))
           sample_registry).
  - vm_compute. reflexivity.
  - vm_compute. reflexivity.
Defined.

(** ** EnvironmentProbe *)

Lemma probe_spec (tool label : string) (w : world) :
  probe tool label w
  = (Ok (succeeds w (ticks w) [tool; "--version"]),
     mkWorld (home w) (fs w) (exec w) (S (ticks w))
             (trace w ++ probe_events tool label
                           (succeeds w (ticks w) [tool; "--version"]))).
Proof.
  unfold probe, try_except, bind, subprocess_run, succeeds, log, ret, add_event,
    probe_events.
  destruct (exec w (ticks w) [tool; "--version"]) as [rc out|]; cbn.
  - destruct (rc =? 0)%Z; cbn; now rewrite <- List.app_assoc.
  - now rewrite <- List.app_assoc.
Qed.


(** ** What the compliance check spends *)

Section Spending.

Context {A : Type}.

Lemma spends_same (runs sleeps : nat) (m : M A) :
  (forall w, snd (m w) = w) -> spends runs sleeps m.
Proof.
  intros Hm w r w' H. pose proof (Hm w) as Hw. rewrite H in Hw. cbn in Hw. subst w'.
  repeat split; auto; try lia. exists []. rewrite List.app_nil_r. split; [reflexivity|].
  simpl. lia.
Qed.

Lemma spends_ret (runs sleeps : nat) (a : A) : spends runs sleeps (ret a).
Proof. now apply spends_same. Qed.

Lemma spends_raise (runs sleeps : nat) (e : exn) : spends runs sleeps (@raise A e).
Proof. now apply spends_same. Qed.

Lemma spends_lift (runs sleeps : nat) (o : outcome A) : spends runs sleeps (lift o).
Proof. now apply spends_same. Qed.

Lemma spends_weaken (runs sleeps runs' sleeps' : nat) (m : M A) :
  (runs <= runs')%nat -> (sleeps <= sleeps')%nat ->
  spends runs sleeps m -> spends runs' sleeps' m.
Proof.
  intros Hr Hs Hm w r w' H.
  destruct (Hm _ _ _ H) as (Hh & Hf & He & Ht & new & Hn & Hl).
  repeat split; auto; try lia. exists new. split; [exact Hn | lia].
Qed.

Lemma spends_try_except (a b c d : nat) (m : M A) (h : exn -> M A) :
  spends a b m ->
  (forall e, spends c d (h e)) ->
  spends (a + c) (b + d) (try_except m h).
Proof.
  intros Hm Hh w r w' H. unfold try_except in H.
  destruct (m w) as [[x|e|] w1] eqn:Em;
    destruct (Hm _ _ _ Em) as (Hh1 & Hf & He & Ht & new & Hn & Hl).
  - inversion H; subst. repeat split; auto; try lia. exists new. split; [exact Hn | lia].
  - destruct (Hh e _ _ _ H) as (Hh' & Hf' & He' & Ht' & new' & Hn' & Hl').
    repeat split; try congruence; try lia.
    exists (new ++ new')%list. rewrite Hn', Hn, List.app_assoc. split; [reflexivity|].
    rewrite filter_app, List.length_app. lia.
  - inversion H; subst. repeat split; auto; try lia. exists new. split; [exact Hn | lia].
Qed.

End Spending.

Lemma spends_bind {A B : Type} (a b c d : nat) (m : M A) (k : A -> M B) :
  spends a b m ->
  (forall x, spends c d (k x)) ->
  spends (a + c) (b + d) (bind m k).
Proof.
  intros Hm Hk w r w' H. unfold bind in H.
  destruct (m w) as [[x|e|] w1] eqn:Em;
    destruct (Hm _ _ _ Em) as (Hh1 & Hf & He & Ht & new & Hn & Hl).
  - destruct (Hk x _ _ _ H) as (Hh' & Hf' & He' & Ht' & new' & Hn' & Hl').
    repeat split; try congruence; try lia.
    exists (new ++ new')%list. rewrite Hn', Hn, List.app_assoc. split; [reflexivity|].
    rewrite filter_app, List.length_app. lia.
  - inversion H; subst. repeat split; auto; try lia. exists new. split; [exact Hn | lia].
  - inversion H; subst. repeat split; auto; try lia. exists new. split; [exact Hn | lia].
Qed.

Lemma spends_log (runs sleeps : nat) (lvl : level) (msg : string) :
  spends runs sleeps (log lvl msg).
Proof.
  intros w r w' H. inversion H; subst. cbn. repeat split; auto; try lia.
  exists [Log lvl msg]. split; [reflexivity|]. simpl. lia.
Qed.

Lemma spends_sleep (runs sleeps : nat) (s : Z) : spends runs (S sleeps) (sleep s).
Proof.
  intros w r w' H. inversion H; subst. cbn. repeat split; auto; try lia.
  exists [Sleep s]. split; [reflexivity|]. simpl. lia.
Qed.

Lemma spends_subprocess_run (runs sleeps : nat) (argv : list string) :
  spends (S runs) sleeps (subprocess_run argv).
Proof.
  intros w r w' H. unfold subprocess_run in H.
  assert (Hw : w' = mkWorld (home w) (fs w) (exec w) (S (ticks w))
                            (trace w ++ [Run argv])).
  { destruct (exec w (ticks w) argv) as [rc out|];
      [destruct (rc =? 0)%Z|]; inversion H; reflexivity. }
  subst w'. cbn. repeat split; auto; try lia.
  exists [Run argv]. split; [reflexivity|]. simpl. lia.
Qed.

Lemma spends_read_file (runs sleeps : nat) (p : string) :
  spends runs sleeps (read_file p).
Proof.
  apply spends_same. intros w. unfold read_file.
  destruct (fs w p); [destruct (parent_error (fs w) p) as [[]|]| |]; reflexivity.
Qed.

(** Steps that cost nothing. *)
Ltac spends_free :=
  repeat match goal with
    | |- spends 0 0 (bind _ _) => apply (spends_bind 0 0 0 0); [|intros ?]
    | |- spends 0 0 (try_except _ _) => apply (spends_try_except 0 0 0 0); [|intros ?]
    | |- spends _ _ (ret _) => apply spends_ret
    | |- spends _ _ (raise _) => apply spends_raise
    | |- spends _ _ (lift _) => apply spends_lift
    | |- spends _ _ (log _ _) => apply spends_log
    | |- spends _ _ (read_file _) => apply spends_read_file
    | |- spends _ _ (if ?c then _ else _) => destruct c
    | |- spends _ _ (match ?x with _ => _ end) => destruct x
    end.

Lemma spends_check_package_json (path : string) :
  spends 0 0 (check_package_json path).
Proof. unfold check_package_json. spends_free. Qed.

Lemma spends_compliance_indicators (package_info : pyval) :
  spends 0 0 (compliance_indicators package_info).
Proof. unfold compliance_indicators. spends_free. Qed.

Lemma spends_compliance_attempt (package_name : string) (local_path : option string) :
  spends 1 0 (compliance_attempt package_name local_path).
Proof.
  unfold compliance_attempt.
  apply (spends_bind 0 0 1 0); [apply spends_log | intros _].
  apply (spends_bind 1 0 0 0).
  - unfold resolve_manifest.
    destruct local_path as [[|c p]|];
      try (apply (spends_weaken 0 0); [lia | lia | apply spends_check_package_json]);
      (apply (spends_bind 1 0 0 0); [apply spends_subprocess_run | intros ?; spends_free]).
  - intros package_info.
    apply (spends_bind 0 0 0 0); [apply spends_compliance_indicators | intros ?].
    spends_free.
Qed.

(** The loop runs its body at most once per iteration left and sleeps
    only between two iterations. *)
Lemma spends_retry_loop (body : M (option bool)) (max_retries : Z) (cost : nat) :
  spends cost 0 body ->
  forall (remaining : nat) (attempt : Z),
    (attempt + Z.of_nat remaining = max_retries)%Z ->
    spends (remaining * cost) (remaining - 1)
           (retry_loop body max_retries attempt remaining).
Proof.
  intros Hbody. induction remaining as [|n IH]; intros attempt Hinv; cbn [retry_loop].
  - apply spends_ret.
  - replace (S n * cost)%nat with (cost + n * cost)%nat by lia.
    replace (S n - 1)%nat with (0 + n)%nat by lia.
    apply spends_try_except; [exact Hbody | intros _].
    apply (spends_bind 0 0 (n * cost) n); [apply spends_log | intros _].
    destruct (attempt <? max_retries - 1)%Z eqn:E.
    + apply Z.ltb_lt in E. destruct n as [|n']; [lia|].
      apply (spends_bind 0 0 (S n' * cost) (S n')); [apply spends_log | intros _].
      replace (S n') with (1 + (S n' - 1))%nat at 2 by lia.
      apply (spends_bind 0 1 (S n' * cost) (S n' - 1)); [apply spends_sleep | intros _].
      apply IH. lia.
    + apply (spends_bind 0 0 (n * cost) n); [apply spends_log | intros _].
      apply spends_ret.
Qed.

Lemma retry_loop_never_raises (body : M (option bool)) (max_retries : Z) :
  forall (remaining : nat) (attempt : Z) (w : world) (e : exn),
    fst (retry_loop body max_retries attempt remaining w) <> Raise e.
Proof.
  induction remaining as [|n IH]; intros attempt w e; cbn [retry_loop].
  - discriminate.
  - unfold try_except. destruct (body w) as [[x|e'|] w1]; cbn; try discriminate.
    unfold bind, log. cbn.
    destruct (attempt <? max_retries - 1)%Z; cbn; [apply IH | discriminate].
Qed.

(** X6.  What a compliance check can cost.  For every package, path,
    number of attempts and world, [is_mcp_compliant] changes no file,
    starts at most [max_retries] programs, sleeps at most
    [max_retries - 1] times, and never raises. *)
Theorem compliance_check_bounded (package_name : string) (local_path : option string)
    (max_retries : Z) (w : world) :
  fs (snd (is_mcp_compliant package_name local_path max_retries w)) = fs w
  /\ (ticks w
      <= ticks (snd (is_mcp_compliant package_name local_path max_retries w))
      <= ticks w + Z.to_nat max_retries)%nat
  /\ (exists new,
        trace (snd (is_mcp_compliant package_name local_path max_retries w))
        = (trace w ++ new)%list
        /\ (List.length (filter is_sleep new) <= Z.to_nat max_retries - 1)%nat)
  /\ (forall e,
        fst (is_mcp_compliant package_name local_path max_retries w) <> Raise e).
Proof.
  destruct (Z_le_gt_dec max_retries 0) as [Hz | Hz].
  - unfold is_mcp_compliant. replace (Z.to_nat max_retries) with 0%nat by lia.
    cbn. repeat split; try lia; try discriminate.
    exists []. rewrite List.app_nil_r. split; [reflexivity | simpl; lia].
  - destruct (is_mcp_compliant package_name local_path max_retries w) as [r w'] eqn:E.
    pose proof (retry_loop_never_raises
                  (is_compliant <- compliance_attempt package_name local_path ;;
                   ret (Some is_compliant))
                  max_retries (Z.to_nat max_retries) 0 w) as Hnr.
    unfold is_mcp_compliant in E. rewrite E in Hnr.
    eapply (spends_retry_loop _ max_retries 1) in E.
    + destruct E as (_ & Hf & _ & Ht & new & Hn & Hl). cbn [fst snd].
      repeat split; auto; try lia. exists new. split; [exact Hn | lia].
    + apply (spends_bind 1 0 0 0); [apply spends_compliance_attempt | intros ?].
      apply spends_ret.
    + lia.
Qed.

(** ** A local package without a manifest *)

(** X7.  A directory that holds no [package.json]: the local-path install
    reads the missing manifest as the empty object, finds no compliance
    marker in it, and returns [False] at the first attempt of the check,
    without retrying, without running a program and without touching a
    file. *)
Theorem local_install_without_manifest (path : string) (args : option (list string))
    (env : option envmap) (max_retries : Z) (w : world) :
  path <> "" ->
  fs w path = Dir ->
  fs w (path_join path "package.json") = Missing ->
  (forall content,
     fs w (dirname (path_join path "package.json")) <> File content) ->
  exists w',
    install_local_mcp_server path args env max_retries w = (Ok (Some false), w')
    /\ fs w' = fs w
    /\ ticks w' = ticks w
    /\ trace w'
       = (trace w
          ++ [Log INFO msg_installing_local;
              Log INFO msg_checking;
              Log ERROR "package.json not found in {path}";
              Log WARNING "Package {package_name} is not MCP-compliant";
              Log ERROR "Local package at {path} is not MCP-compliant"])%list.
Proof.
  intros Hne Hdir Hmissing Hparent.
  assert (Hread : forall w0, fs w0 = fs w ->
            read_file (path_join path "package.json") w0 = (Raise FileNotFoundError, w0)).
  { intros w0 Hw0. unfold read_file, parent_error. rewrite Hw0, Hmissing.
    destruct (String.eqb _ ""); [reflexivity|].
    destruct (fs w (dirname (path_join path "package.json"))) eqn:E;
      try reflexivity. exfalso. now apply (Hparent content). }
  destruct path as [|c p]; [congruence|].
  assert (Hcheck : forall w0, fs w0 = fs w ->
            check_package_json (String c p) w0
            = (Ok (PDict []),
               add_event (Log ERROR "package.json not found in {path}") w0)).
  { intros w0 Hw0. unfold check_package_json, try_except, bind.
    now rewrite (Hread w0 Hw0). }
  assert (Hattempt : forall w0, fs w0 = fs w ->
            compliance_attempt (basename (String c p)) (Some (String c p)) w0
            = (Ok false,
               add_events [Log INFO msg_checking;
                           Log ERROR "package.json not found in {path}";
                           Log WARNING "Package {package_name} is not MCP-compliant"]
                          w0)).
  { intros w0 Hw0. unfold compliance_attempt, resolve_manifest, bind at 1.
    unfold log at 1. unfold bind at 1. rewrite Hcheck by exact Hw0.
    cbn. unfold add_event, add_events. cbn. now rewrite <- !List.app_assoc. }
  assert (Hcompliant : forall w0, fs w0 = fs w ->
            is_mcp_compliant (basename (String c p)) (Some (String c p)) 3 w0
            = (Ok (Some false),
               add_events [Log INFO msg_checking;
                           Log ERROR "package.json not found in {path}";
                           Log WARNING "Package {package_name} is not MCP-compliant"]
                          w0)).
  { intros w0 Hw0. unfold is_mcp_compliant.
    change (Z.to_nat 3) with 3%nat. cbn [retry_loop]. unfold try_except, bind at 1.
    now rewrite (Hattempt w0 Hw0). }
  eexists.
  unfold install_local_mcp_server, install_local_body, try_except, bind at 1.
  unfold log at 1. unfold bind at 1. unfold path_exists at 1.
  cbn [fs add_event]. rewrite Hdir. cbn [negb fst snd].
  unfold bind at 1. rewrite Hcompliant by reflexivity.
  cbn. split; [reflexivity|]. split; [reflexivity|]. split; [reflexivity|].
  unfold add_event, add_events. cbn [trace]. rewrite <- !List.app_assoc. reflexivity.
Qed.

Lemma local_install_without_manifest_witness :
  exists w',
    install_local_mcp_server "/home/u" None None 3 w_offline = (Ok (Some false), w')
    /\ fs w' = fs w_offline
    /\ ticks w' = ticks w_offline
    /\ trace w'
       = (trace w_offline
          ++ [Log INFO msg_installing_local;
              Log INFO msg_checking;
              Log ERROR "package.json not found in {path}";
              Log WARNING "Package {package_name} is not MCP-compliant";
              Log ERROR "Local package at {path} is not MCP-compliant"])%list.
Proof.
  apply (local_install_without_manifest "/home/u" None None 3 w_offline).
  - discriminate.
  - reflexivity.
  - reflexivity.
  - intros content. vm_compute. discriminate.
Defined.

(** ** More of ManifestEmitter *)

(** X8.  [generate_smithery_yaml] never raises.  It returns [True] and
    leaves the manifest text in [smithery.yaml], replacing a file of that
    name, unless a directory of that name is in the way: then it returns
    [False].  No other path changes and no program is run. *)
Theorem generate_smithery_yaml_outcome (package_name command : string)
    (args : option (list string)) (env : option envmap) (w : world) :
  exists w',
    generate_smithery_yaml package_name command args env w
    = (Ok (match fs w "smithery.yaml" with Dir => false | _ => true end), w')
    /\ fs w' "smithery.yaml"
       = match fs w "smithery.yaml" with
         | Dir => Dir
         | _ => File (smithery_yaml command args env)
         end
    /\ (forall p, p <> "smithery.yaml" -> fs w' p = fs w p)
    /\ ticks w' = ticks w
    /\ home w' = home w.
Proof.
  unfold generate_smithery_yaml, try_except, bind, log, write_file.
  change (parent_error (fs (add_event (Log INFO "Generating smithery.yaml for {package_name}") w))
                       "smithery.yaml") with (@None exn).
  cbn [fst snd fs add_event].
  destruct (fs w "smithery.yaml") eqn:E; eexists; (split; [reflexivity|]);
    cbn [fs set_fs add_event ticks home]; unfold fs_update;
    rewrite ?String.eqb_refl; repeat split; auto;
    intros p Hp; apply String.eqb_neq in Hp; now rewrite Hp.
Qed.

Lemma map_fst_eq {V W : Type} (f : string -> W) (e e' : list (string * V)) :
  map fst e = map fst e' ->
  map (fun kv => f (fst kv)) e = map (fun kv => f (fst kv)) e'.
Proof.
  intros H. rewrite <- (map_map fst f e), <- (map_map fst f e'). now rewrite H.
Qed.

(** X9.  The manifest names the variables, not their values: two
    environment maps with the same keys in the same order give the same
    [smithery.yaml], so a secret passed with [--env] is never written to
    it. *)
Theorem smithery_yaml_hides_values (command : string) (args : option (list string))
    (env env' : envmap) :
  dict_keys env = dict_keys env' ->
  smithery_yaml command args (Some env) = smithery_yaml command args (Some env').
Proof.
  intros Hk. unfold smithery_yaml.
  assert (Hs : config_schema (Some env) = config_schema (Some env')).
  { unfold config_schema, env_given.
    destruct env as [|kv e]; destruct env' as [|kv' e']; try discriminate; [reflexivity|].
    rewrite Hk. do 4 f_equal. f_equal. f_equal.
    apply (map_fst_eq
             (fun k => (k, PDict [("type", PStr "string");
                                  ("description", PStr ("Environment variable: " ++ k))]))).
    exact Hk. }
  now rewrite Hs.
Qed.

Lemma smithery_yaml_hides_values_witness :
  smithery_yaml "npx" (Some ["-y"; "server"]) (Some [("API_KEY", "first secret")])
  = smithery_yaml "npx" (Some ["-y"; "server"]) (Some [("API_KEY", "another one")]).
Proof.
  apply (smithery_yaml_hides_values "npx" (Some ["-y"; "server"])
           [("API_KEY", "first secret")] [("API_KEY", "another one")]).
  reflexivity.
Defined.

(** ** More of the installers *)

Lemma touch_install_false (h p : string) :
  p <> config_path_of h ->
  p <> "smithery.yaml" ->
  ~ In p (path_prefixes (dirname (config_path_of h))) ->
  touch_install h p = false.
Proof.
  intros Hc Hm Hd. unfold touch_install, touch_registry, touch_manifest, touch_dirs.
  apply String.eqb_neq in Hc, Hm. rewrite Hc, Hm. cbn [orb].
  destruct (existsb _ _) eqn:E; [|reflexivity].
  apply existsb_exists in E. destruct E as (q & Hin & Heq).
  apply String.eqb_eq in Heq. subst q. contradiction.
Qed.

(** X10.  The only paths either installer may change are the registry
    file, the directories above it and [smithery.yaml]: every other path
    holds after the install what it held before, whatever the install
    returned; the home directory is the same. *)
Theorem install_writes_only_its_files (name path : string) (args : option (list string))
    (env : option envmap) (max_retries : Z) (w : world) (p : string) :
  p <> config_path w ->
  p <> "smithery.yaml" ->
  ~ In p (path_prefixes (dirname (config_path w))) ->
  fs (snd (install_mcp_server name args env max_retries w)) p = fs w p
  /\ fs (snd (install_local_mcp_server path args env max_retries w)) p = fs w p
  /\ home (snd (install_mcp_server name args env max_retries w)) = home w
  /\ home (snd (install_local_mcp_server path args env max_retries w)) = home w.
Proof.
  intros Hc Hm Hd.
  pose proof (touch_install_false (home w) p Hc Hm Hd) as Ht.
  destruct (install_mcp_server name args env max_retries w) as [r w1] eqn:E1.
  destruct (install_local_mcp_server path args env max_retries w) as [r' w2] eqn:E2.
  cbn [snd]. unfold install_mcp_server in E1.
  destruct (install_loop_effect _ _ _ _ _ _ _ _ _ E1) as (Hh1 & Hf1 & _).
  destruct (install_local_effect _ _ _ _ _ _ _ E2) as ((Hh2 & Hf2 & _) & _).
  repeat split; auto.
Qed.

Lemma install_writes_only_its_files_witness :
  fs (snd (install_mcp_server "example-pkg" None None 3 w_installed)) "/home/u/notes.txt"
  = fs w_installed "/home/u/notes.txt"
  /\ fs (snd (install_local_mcp_server "/srv/demo" None None 3 w_installed))
        "/home/u/notes.txt"
     = fs w_installed "/home/u/notes.txt"
  /\ home (snd (install_mcp_server "example-pkg" None None 3 w_installed))
     = home w_installed
  /\ home (snd (install_local_mcp_server "/srv/demo" None None 3 w_installed))
     = home w_installed.
Proof.
  apply (install_writes_only_its_files "example-pkg" "/srv/demo" None None 3
           w_installed "/home/u/notes.txt").
  - discriminate.
  - discriminate.
  - vm_compute. intuition discriminate.
Defined.

Lemma server_names_set_server (config : pyval) (name : string) (entry config' : pyval) :
  set_server config name entry = Ok config' ->
  server_names config'
  = if existsb (String.eqb name) (server_names config)
    then server_names config
    else (server_names config ++ [name])%list.
Proof.
  unfold set_server, server_names.
  destruct config as [| | | | |d]; try discriminate.
  destruct (dict_get "mcpServers" d) as [[| | | | |servers]|] eqn:E; try discriminate.
  intros H. inversion H; subst config'. clear H.
  rewrite dict_get_set_same, dict_keys_set.
  assert (Hm : dict_mem name servers = existsb (String.eqb name) (dict_keys servers)).
  { clear E. unfold dict_mem, dict_keys. induction servers as [|[k v] l IH]; [reflexivity|].
    cbn. destruct (String.eqb name k); [reflexivity | exact IH]. }
  now rewrite Hm.
Qed.

(** X11.  A successful install never duplicates or reorders the servers
    of the registry: a server that was there keeps its place, a new one is
    added at the end. *)
Theorem install_keeps_server_order (name : string) (args : option (list string))
    (env : option envmap) (max_retries : Z) (w w' : world) :
  install_mcp_server name args env max_retries w = (Ok (Some true), w') ->
  exists config config',
    registry_before w config
    /\ fs w' (config_path w) = File (json_dumps_indent 0 config')
    /\ server_names config'
       = if existsb (String.eqb name) (server_names config)
         then server_names config
         else (server_names config ++ [name])%list.
Proof.
  intros H. unfold install_mcp_server in H.
  destruct (install_loop_effect _ _ _ _ _ _ _ _ _ H)
    as (_ & _ & _ & [(_ & config & config' & Hreg & Hset & Hfile) | (Hne & _)]).
  - exists config, config'. split; [exact Hreg|]. split; [exact Hfile|].
    now apply (server_names_set_server _ _ _ _ Hset).
  - now contradiction Hne.
Qed.

Lemma install_keeps_server_order_witness :
  exists config config',
    registry_before w_installed config
    /\ fs (snd (install_mcp_server "example-pkg" None None 3 w_installed))
          (config_path w_installed)
       = File (json_dumps_indent 0 config')
    /\ server_names config'
       = if existsb (String.eqb "example-pkg") (server_names config)
         then server_names config
         else (server_names config ++ ["example-pkg"])%list.
Proof.
  apply (install_keeps_server_order "example-pkg" None None 3 w_installed
           (snd (install_mcp_server "example-pkg" None None 3 w_installed))).
  vm_compute. reflexivity.
Defined.

(** ** The name a local server is stored under *)

(** When the loop returns [True], one run of its body did. *)
Lemma retry_loop_success (body : M (option bool)) (max_retries : Z) (cost : nat) :
  spends cost 0 body ->
  forall (remaining : nat) (attempt : Z) (w w' : world),
    retry_loop body max_retries attempt remaining w = (Ok (Some true), w') ->
    exists w1,
      fs w1 = fs w /\ home w1 = home w /\ body w1 = (Ok (Some true), w').
Proof.
  intros Hbody. induction remaining as [|n IH]; intros attempt w w' H;
    cbn [retry_loop] in H.
  - discriminate.
  - unfold try_except in H. destruct (body w) as [[x|e|] w1] eqn:Eb.
    + inversion H; subst. exists w. auto.
    + destruct (Hbody _ _ _ Eb) as (Hh & Hf & _).
      unfold bind at 1 in H. cbn [log] in H.
      destruct (attempt <? max_retries - 1)%Z.
      * unfold bind at 1 in H. cbn [log] in H. unfold bind at 1 in H. cbn [sleep] in H.
        apply IH in H. destruct H as (w2 & Hf2 & Hh2 & Hb). exists w2.
        cbn [fs home add_event] in *. repeat split; congruence.
      * cbn in H. discriminate.
    + discriminate.
Qed.

(** A local manifest that passes the check was read from a file that
    holds a JSON object. *)
Lemma compliant_local_manifest (package_name : string) (c : ascii) (p : string)
    (w w' : world) :
  compliance_attempt package_name (Some (String c p)) w = (Ok true, w') ->
  exists text manifest,
    fs w (path_join (String c p) "package.json") = File text
    /\ json_loads text = Ok (PDict manifest).
Proof.
  unfold compliance_attempt. unfold bind at 1. cbn [log].
  set (w0 := add_event (Log INFO msg_checking) w).
  intros H. apply bind_inv in H.
  destruct H as [(info & w1 & E1 & H) | [(e & _ & ?) | (_ & ?)]]; try discriminate.
  apply bind_inv in H.
  destruct H as [(b & w2 & E2 & H) | [(e & _ & ?) | (_ & ?)]]; try discriminate.
  assert (Hb : b = true).
  { destruct b; [reflexivity|]. cbn in H. inversion H. }
  subst b.
  assert (Hdict : exists manifest, info = PDict manifest /\ manifest <> []).
  { destruct info as [| | | | |manifest]; try (cbn in E2; discriminate).
    exists manifest. split; [reflexivity|]. intros ->. cbn in E2. discriminate. }
  destruct Hdict as (manifest & -> & Hne).
  unfold resolve_manifest, check_package_json, try_except in E1.
  unfold bind at 1 in E1. unfold read_file in E1.
  change (fs w0) with (fs w) in E1.
  destruct (fs w (path_join (String c p) "package.json")) as [|text|] eqn:Ef.
  - destruct (parent_error (fs w) _) as [[]|]; cbn in E1; inversion E1; congruence.
  - unfold lift in E1. destruct (json_loads text) as [v|[]|] eqn:Ej;
      cbn in E1; inversion E1; subst; try congruence.
    exists text, manifest. now split.
  - cbn in E1. discriminate.
Qed.

(** X12.  The name a local server is stored under.  When the local-path
    install of a non-empty path returns [True], the path holds a
    [package.json] that is a JSON object, and the registry file holds the
    registry of before after the one assignment
    [config["mcpServers"][key] = entry], where [entry] is
    [node <path>/index.js ...] and [key] is what the manifest gives as
    its ["name"], or the last component of the path when it gives none.
    A name that is a string is the name of the server.  A name that is a
    number, a truth value or [null] is taken as well: the entry is then
    written under the JSON text of that name, after the servers that were
    there. *)
Theorem local_install_names_server (path : string) (args : option (list string))
    (env : option envmap) (max_retries : Z) (w w' : world) :
  path <> "" ->
  install_local_mcp_server path args env max_retries w = (Ok (Some true), w') ->
  exists text manifest key config config',
    fs w (path_join path "package.json") = File text
    /\ json_loads text = Ok (PDict manifest)
    /\ key = match dict_get "name" manifest with
             | Some v => v
             | None => PStr (basename path)
             end
    /\ registry_before w config
    /\ set_server_value config key
         (server_entry "node" (path_join path "index.js" :: list_or_empty args) env)
       = Ok config'
    /\ fs w' (config_path w) = File (json_dumps_indent 0 config')
    /\ (forall server,
          key = PStr server ->
          set_server config server
            (server_entry "node" (path_join path "index.js" :: list_or_empty args) env)
          = Ok config')
    /\ (forall servers,
          (forall s, key <> PStr s) ->
          top_level config "mcpServers" = Some (PDict servers) ->
          exists written,
            key_text key = Some written
            /\ top_level config' "mcpServers"
               = Some (PDict (servers
                              ++ [(written,
                                   server_entry "node"
                                     (path_join path "index.js" :: list_or_empty args)
                                     env)]))).
Proof.
  intros Hne H. destruct path as [|c p]; [congruence|]. clear Hne.
  set (path := String c p) in *.
  unfold install_local_mcp_server, try_except in H.
  destruct (install_local_body path args env w) as [rb w1] eqn:Eb.
  destruct rb as [x|e|]; [|cbn in H; discriminate | discriminate].
  inversion H; subst x w1. clear H. rename Eb into H.
  unfold install_local_body in H.
  unfold bind at 1 in H. cbn [log] in H.
  set (w0 := add_event (Log INFO msg_installing_local) w) in *.
  unfold bind at 1 in H. cbn [path_exists] in H.
  destruct (negb match fs w0 path with Missing => false | _ => true end);
    [cbn in H; discriminate|].
  apply bind_inv in H.
  destruct H as [(cp & w2 & E2 & H) | [(e & _ & ?) | (_ & ?)]]; try discriminate.
  pose proof (footprint_is_mcp_compliant touch_nothing _ _ _ _ _ _ E2)
    as (Hh2 & _ & Hf2 & _).
  change (home w0) with (home w) in Hh2. change (fs w0) with (fs w) in Hf2.
  destruct cp as [[|]|]; try (cbn in H; discriminate). cbn [truthy negb] in H.
  (* the manifest the check read *)
  unfold is_mcp_compliant in E2.
  apply (retry_loop_success _ 3 1) in E2.
  2:{ apply (spends_bind 1 0 0 0); [apply spends_compliance_attempt | intros ?].
      apply spends_ret. }
  destruct E2 as (wa & Hfa & _ & Ea).
  apply bind_inv in Ea.
  destruct Ea as [(b & wb & Ea & Hb) | [(e & _ & ?) | (_ & ?)]]; try discriminate.
  cbn in Hb. inversion Hb; subst b wb. clear Hb.
  destruct (compliant_local_manifest _ _ _ _ _ Ea) as (text & manifest & Hfile & Hjson).
  fold path in Hfile. rewrite Hfa in Hfile. change (fs w0) with (fs w) in Hfile.
  assert (Hfile2 : fs w2 (path_join path "package.json") = File text)
    by (rewrite Hf2 by reflexivity; exact Hfile).
  (* the registry *)
  assert (Hc2 : fs w2 (config_path w) = fs w (config_path w))
    by (apply (Hf2 (config_path w)); reflexivity).
  assert (Hp2 : config_path w2 = config_path w) by (unfold config_path; congruence).
  apply bind_inv in H.
  destruct H as [(config & w3 & E3 & H) | [(e & _ & ?) | (_ & ?)]]; try discriminate.
  pose proof (load_config_spec _ _ _ E3) as (Hh3 & _ & _ & _ & Hf3 & Hreg).
  assert (Hc3 : fs w3 (config_path w) = fs w (config_path w))
    by (rewrite <- Hp2, Hf3 by (apply config_path_not_dir); rewrite Hp2; exact Hc2).
  assert (Hp3 : config_path w3 = config_path w) by (unfold config_path; congruence).
  assert (Hbefore : registry_before w config).
  { specialize (Hreg config eq_refl). unfold registry_before in *.
    now rewrite Hp2, Hc2 in Hreg. }
  assert (Hfile3 : fs w3 (path_join path "package.json") = File text).
  { destruct (load_config_creates _ _ _ (path_join path "package.json") E3)
      as [-> | [Hm _]]; [exact Hfile2 | congruence]. }
  (* the manifest read again *)
  assert (E4 : check_package_json path w3 = (Ok (PDict manifest), w3)).
  { unfold check_package_json, try_except, bind, read_file. rewrite Hfile3.
    unfold lift. now rewrite Hjson. }
  rewrite (bind_ok _ _ _ _ _ E4) in H.
  unfold bind at 1 in H. cbn [lift py_get] in H.
  apply bind_inv in H. unfold lift in H.
  destruct H as [(config' & w4 & E6 & H) | [(e & _ & ?) | (_ & ?)]];
    try discriminate.
  inversion E6; subst w4. clear E6.
  match goal with
  | Hsv : set_server_value _ _ _ = Ok _ |- _ => rename Hsv into Hset
  end.
  apply bind_inv in H.
  destruct H as [([] & w5 & E7 & H) | [(e & _ & ?) | (_ & ?)]]; try discriminate.
  destruct (save_config_spec _ _ _ _ E7) as [[_ Hw7] | [[e7 Hr7] _]]; [|discriminate].
  match type of H with
  | bind (generate_smithery_yaml ?n _ _ _) _ _ = _ =>
      destruct (generate_smithery_yaml_total n "node"
                  (Some (path_join path "index.js" :: list_or_empty args)) env w5)
        as (b & w6 & E8)
  end.
  pose proof (footprint_generate_smithery_yaml _ _ _ _ _ _ _ E8) as (_ & _ & Hf8 & _).
  rewrite (bind_ok _ _ _ _ _ E8) in H. cbn in H. inversion H; subst w'.
  exists text, manifest,
         (match dict_get "name" manifest with
          | Some v => v
          | None => PStr (basename path)
          end), config, config'.
  split; [exact Hfile|]. split; [exact Hjson|]. split; [reflexivity|].
  split; [exact Hbefore|]. split; [exact Hset|]. split; [|split].
  - cbn [fs add_event]. rewrite Hf8.
    + rewrite Hw7. cbn [fs set_fs]. unfold fs_update. now rewrite Hp3, String.eqb_refl.
    + apply config_path_not_manifest.
  - intros server Hkey. rewrite Hkey in Hset. exact Hset.
  - intros servers Hkey Hservers.
    destruct (set_server_value_frame _ _ _ _ Hset)
      as (_ & [(server & Hs & _)
              | [(servers' & written & _ & Hw & Hc & Hc')
                | (items & items' & index & i & _ & _ & Hc & _)]]).
    + now contradiction (Hkey server).
    + rewrite Hservers in Hc. inversion Hc; subst servers'.
      exists written. now split.
    + rewrite Hservers in Hc. discriminate.
Qed.

Lemma local_install_names_server_witness :
  exists text manifest key config config',
    fs w_numbered (path_join "/srv/demo" "package.json") = File text
    /\ json_loads text = Ok (PDict manifest)
    /\ key = match dict_get "name" manifest with
             | Some v => v
             | None => PStr (basename "/srv/demo")
             end
    /\ registry_before w_numbered config
    /\ set_server_value config key
         (server_entry "node" (path_join "/srv/demo" "index.js" :: list_or_empty None)
                       None)
       = Ok config'
    /\ fs (snd (install_local_mcp_server "/srv/demo" None None 3 w_numbered))
          (config_path w_numbered)
       = File (json_dumps_indent 0 config')
    /\ (forall server,
          key = PStr server ->
          set_server config server
            (server_entry "node" (path_join "/srv/demo" "index.js" :: list_or_empty None)
                          None)
          = Ok config')
    /\ (forall servers,
          (forall s, key <> PStr s) ->
          top_level config "mcpServers" = Some (PDict servers) ->
          exists written,
            key_text key = Some written
            /\ top_level config' "mcpServers"
               = Some (PDict (servers
                              ++ [(written,
                                   server_entry "node"
                                     (path_join "/srv/demo" "index.js"
                                        :: list_or_empty None)
                                     None)]))).
Proof.
  apply (local_install_names_server "/srv/demo" None None 3 w_numbered
           (snd (install_local_mcp_server "/srv/demo" None None 3 w_numbered))).
  - discriminate.
  - vm_compute. reflexivity.
Defined.

(** The manifest of [w_numbered] gives the number 5 as its name and the
    registry has a server called ["5"]: the install returns [True], and
    the registry file then holds the key ["5"] twice, the entry of before
    first; read again, it gives the server ["5"] the new entry. *)
Lemma numbered_name_written_twice :
  fst (install_local_mcp_server "/srv/demo" None None 3 w_numbered) = Ok (Some true)
  /\ fs (snd (install_local_mcp_server "/srv/demo" None None 3 w_numbered))
        "/home/u/.cursor/mcp.json"
     = File (json_dumps_indent 0
               (PDict [("mcpServers",
                        PDict [("5", PDict [("command", PStr "old")]);
                               ("5", server_entry "node" ["/srv/demo/index.js"] None)])]))
  /\ fst (load_config (snd (install_local_mcp_server "/srv/demo" None None 3 w_numbered)))
     = Ok (PDict [("mcpServers",
                   PDict [("5", server_entry "node" ["/srv/demo/index.js"] None)])]).
Proof. vm_compute. repeat split. Qed.

(** ** An install whose manifest cannot be written *)

(** X13.  The result of [generate_smithery_yaml] is ignored by the
    install.  When a directory named [smithery.yaml] is in the way and
    everything before went well (tools found, package compliant,
    registry loaded, entry set, registry saved), the install logs the
    failure of the manifest and still returns [True], with the registry
    saved and no manifest written. *)
Theorem install_survives_manifest_failure (name : string) (args : option (list string))
    (env : option envmap) (max_retries : Z) (w w1 w2 w3 w4 : world)
    (status : env_status) (config config' : pyval) :
  (1 <= max_retries)%Z ->
  fs w "smithery.yaml" = Dir ->
  check_environment (add_event (Log INFO msg_installing) w) = (Ok status, w1) ->
  st_node status = true ->
  st_npm status = true ->
  is_mcp_compliant name None 3 w1 = (Ok (Some true), w2) ->
  load_config w2 = (Ok config, w3) ->
  set_server config name (server_entry "npx" ("-y" :: name :: list_or_empty args) env)
  = Ok config' ->
  save_config config' w3 = (Ok tt, w4) ->
  install_mcp_server name args env max_retries w
  = (Ok (Some true),
     add_events [Log INFO "Generating smithery.yaml for {package_name}";
                 Log ERROR "Failed to generate smithery.yaml: {str(e)}";
                 Log INFO "Successfully installed MCP server: {name}"] w4)
  /\ fs w4 "smithery.yaml" = Dir
  /\ fs w4 (config_path w) = File (json_dumps_indent 0 config').
Proof.
  intros Hmr Hdir Hprobe Hnode Hnpm Hcomp Hload Hset Hsave.
  pose proof (footprint_check_environment _ _ _ Hprobe) as (Hh1 & _ & Hf1 & _).
  pose proof (footprint_is_mcp_compliant touch_nothing _ _ _ _ _ _ Hcomp)
    as (Hh2 & _ & Hf2 & _).
  pose proof (load_config_spec _ _ _ Hload) as (Hh3 & _ & _ & _ & _ & _).
  destruct (save_config_spec _ _ _ _ Hsave) as [[_ Hw4] | [[e He] _]]; [|discriminate].
  change (home (add_event (Log INFO msg_installing) w)) with (home w) in Hh1.
  assert (Hp3 : config_path w3 = config_path w) by (unfold config_path; congruence).
  assert (Hd2 : fs w2 "smithery.yaml" = Dir).
  { rewrite Hf2 by reflexivity. rewrite Hf1 by reflexivity. exact Hdir. }
  assert (Hd3 : fs w3 "smithery.yaml" = Dir).
  { destruct (load_config_creates _ _ _ "smithery.yaml" Hload) as [-> | [Hm _]];
      [exact Hd2 | congruence]. }
  assert (Hd4 : fs w4 "smithery.yaml" = Dir).
  { rewrite Hw4. cbn [fs set_fs]. unfold fs_update.
    unfold config_path. rewrite String.eqb_sym, config_path_not_manifest. exact Hd3. }
  assert (Hgen : generate_smithery_yaml name "npx"
                   (Some ("-y" :: name :: list_or_empty args)) env w4
                 = (Ok false,
                    add_events [Log INFO "Generating smithery.yaml for {package_name}";
                                Log ERROR "Failed to generate smithery.yaml: {str(e)}"]
                               w4)).
  { unfold generate_smithery_yaml, try_except, bind, log, write_file.
    change (parent_error
              (fs (add_event (Log INFO "Generating smithery.yaml for {package_name}") w4))
              "smithery.yaml") with (@None exn).
    cbn [fst snd fs add_event]. rewrite Hd4. cbn.
    unfold add_event, add_events. cbn. now rewrite <- List.app_assoc. }
  split; [|split; [exact Hd4|]].
  - unfold install_mcp_server.
    destruct (Z.to_nat max_retries) as [|n] eqn:E; [lia|].
    cbn [retry_loop]. unfold try_except, install_attempt.
    rewrite (bind_ok _ _ w (add_event (Log INFO msg_installing) w) tt) by reflexivity.
    rewrite (bind_ok _ _ _ _ _ Hprobe). rewrite Hnode, Hnpm. cbn [negb orb].
    rewrite (bind_ok _ _ _ _ _ Hcomp). cbn [truthy negb].
    rewrite (bind_ok _ _ _ _ _ Hload).
    rewrite (bind_ok _ _ w3 w3 config') by (unfold lift; now rewrite Hset).
    rewrite (bind_ok _ _ _ _ _ Hsave).
    rewrite (bind_ok _ _ _ _ _ Hgen). cbn.
    unfold add_event, add_events. cbn. now rewrite <- List.app_assoc.
  - rewrite Hw4. cbn [fs set_fs]. unfold fs_update. now rewrite Hp3, String.eqb_refl.
Qed.

Lemma install_survives_manifest_failure_witness :
  install_mcp_server "example-pkg" None None 3 w_blocked
  = (Ok (Some true),
     add_events [Log INFO "Generating smithery.yaml for {package_name}";
                 Log ERROR "Failed to generate smithery.yaml: {str(e)}";
                 Log INFO "Successfully installed MCP server: {name}"] w_blocked_saved)
  /\ fs w_blocked_saved "smithery.yaml" = Dir
  /\ fs w_blocked_saved (config_path w_blocked)
     = File (json_dumps_indent 0 sample_registry_added).
Proof.
  refine (install_survives_manifest_failure "example-pkg" None None 3 w_blocked
            (snd (check_environment (add_event (Log INFO msg_installing) w_blocked)))
            (snd (is_mcp_compliant "example-pkg" None 3
                    (snd (check_environment
                            (add_event (Log INFO msg_installing) w_blocked)))))
            (snd (load_config
                    (snd (is_mcp_compliant "example-pkg" None 3
                            (snd (check_environment
                                    (add_event (Log INFO msg_installing) w_blocked)))))))
            w_blocked_saved (mkEnvStatus true true true)
            sample_registry sample_registry_added _ _ _ _ _ _ _ _ _);
    try (vm_compute; reflexivity).
  lia.
Defined.

(** ** MetadataFetcher *)

Lemma yields_ret {A : Type} (P : A -> Prop) (a : A) : P a -> yields P (ret a).
Proof. intros Ha w x w' H. inversion H; subst. exact Ha. Qed.

Lemma yields_bind {A B : Type} (Q : A -> Prop) (P : B -> Prop) (m : M A) (k : A -> M B) :
  yields Q m ->
  (forall x, Q x -> yields P (k x)) ->
  yields P (bind m k).
Proof.
  intros Hm Hk w b w' H. apply bind_inv in H.
  destruct H as [(a & w1 & Em & H) | [(e & _ & ?) | (_ & ?)]]; try discriminate.
  exact (Hk a (Hm _ _ _ Em) _ _ _ H).
Qed.

Lemma yields_try_except {A : Type} (P : A -> Prop) (m : M A) (h : exn -> M A) :
  yields P m ->
  (forall e, yields P (h e)) ->
  yields P (try_except m h).
Proof.
  intros Hm Hh w a w' H. unfold try_except in H.
  destruct (m w) as [[x|e|] w1] eqn:Em.
  - inversion H; subst. exact (Hm _ _ _ Em).
  - exact (Hh e _ _ _ H).
  - discriminate.
Qed.

Lemma yields_any {A : Type} (m : M A) : yields (fun _ => True) m.
Proof. intros w a w' _. exact I. Qed.

Lemma yields_github_metadata (url : string) (package_info : pyval) :
  yields is_metadata (github_metadata url package_info).
Proof.
  unfold github_metadata.
  repeat (apply (yields_bind (fun _ => True)); [apply yields_any | intros ? _]).
  apply yields_ret. eexists; eexists; reflexivity.
Qed.

Lemma yields_npm_metadata (url : string) (package_info : pyval) :
  yields is_metadata (npm_metadata url package_info).
Proof.
  unfold npm_metadata.
  repeat (apply (yields_bind (fun _ => True)); [apply yields_any | intros ? _]).
  apply yields_ret. eexists; eexists; reflexivity.
Qed.

Lemma yields_fetch_package_metadata (url : string) :
  yields is_metadata (fetch_package_metadata url).
Proof.
  unfold fetch_package_metadata.
  apply yields_try_except.
  - apply (yields_bind (fun _ => True)); [apply yields_any | intros _ _].
    apply (yields_bind (fun found => forall result, found = Some result ->
                                                    is_metadata result)).
    + destruct (contains "github.com" url); [|destruct (negb _)].
      * apply (yields_bind (fun _ => True)); [apply yields_any | intros out _].
        apply yields_try_except.
        -- apply (yields_bind (fun _ => True)); [apply yields_any | intros info _].
           apply (yields_bind is_metadata); [apply yields_github_metadata|].
           intros result Hr. apply yields_ret. intros r E. now inversion E; subst.
        -- intros [] w a w' H; try discriminate.
           unfold bind, log, ret in H. inversion H. discriminate.
      * apply yields_try_except.
        -- apply (yields_bind (fun _ => True)); [apply yields_any | intros out _].
           apply (yields_bind (fun _ => True)); [apply yields_any | intros info _].
           apply (yields_bind is_metadata); [apply yields_npm_metadata|].
           intros result Hr. apply yields_ret. intros r E. now inversion E; subst.
        -- intros e w a w' H. unfold bind, log, ret in H. inversion H. discriminate.
      * apply yields_ret. discriminate.
    + intros [result|] Hf.
      * apply yields_ret. now apply Hf.
      * apply yields_ret. eexists; eexists; reflexivity.
  - intros e. apply (yields_bind (fun _ => True)); [apply yields_any | intros _ _].
    apply yields_ret. eexists; eexists; reflexivity.
Qed.

Lemma spends_github_metadata (url : string) (package_info : pyval) :
  spends 0 0 (github_metadata url package_info).
Proof. unfold github_metadata. spends_free. Qed.

Lemma spends_npm_metadata (url : string) (package_info : pyval) :
  spends 0 0 (npm_metadata url package_info).
Proof. unfold npm_metadata. spends_free. Qed.

Lemma spends_fetch_package_metadata (url : string) :
  spends 1 0 (fetch_package_metadata url).
Proof.
  unfold fetch_package_metadata.
  apply (spends_try_except 1 0 0 0); [|intros e; spends_free].
  apply (spends_bind 0 0 1 0); [apply spends_log | intros _].
  apply (spends_bind 1 0 0 0); [|intros ?; spends_free].
  destruct (contains "github.com" url); [|destruct (negb _)].
  - apply (spends_bind 1 0 0 0); [apply spends_subprocess_run | intros out].
    apply (spends_try_except 0 0 0 0); [|intros e; spends_free].
    apply (spends_bind 0 0 0 0); [apply spends_lift | intros info].
    apply (spends_bind 0 0 0 0); [apply spends_github_metadata | intros ?].
    apply spends_ret.
  - apply (spends_try_except 1 0 0 0); [|intros e; spends_free].
    apply (spends_bind 1 0 0 0); [apply spends_subprocess_run | intros out].
    apply (spends_bind 0 0 0 0); [apply spends_lift | intros info].
    apply (spends_bind 0 0 0 0); [apply spends_npm_metadata | intros ?].
    apply spends_ret.
  - apply spends_ret.
Qed.

(** X14.  [fetch_package_metadata] never raises and never writes: for
    every URL and world it returns a dictionary with the keys [name],
    [args] and [env], in which [args] is the empty list and [env] a
    dictionary, unless the answer it parsed lies outside the modelled
    fragment; it starts at most one program and leaves every file as it
    was. *)
Theorem fetch_package_metadata_total (url : string) (w : world) :
  (is_metadata_result (fst (fetch_package_metadata url w)))
  /\ fs (snd (fetch_package_metadata url w)) = fs w
  /\ (ticks w <= ticks (snd (fetch_package_metadata url w)) <= ticks w + 1)%nat.
Proof.
  destruct (fetch_package_metadata url w) as [r w'] eqn:E. cbn [fst snd].
  destruct (spends_fetch_package_metadata url _ _ _ E) as (_ & Hf & _ & Ht & _).
  split; [|split; [exact Hf | exact Ht]].
  destruct r as [v|e|]; cbn.
  - exact (yields_fetch_package_metadata url _ _ _ E).
  - unfold fetch_package_metadata, try_except in E.
    match type of E with
    | match ?b with _ => _ end = _ => destruct b as [[x|e'|] w1]
    end; try discriminate; unfold bind, log, ret in E; discriminate.
  - exact I.
Qed.

(** What is read off a value that is not an object: an exception. *)
Lemma github_metadata_not_object (url : string) (v : pyval) (w : world) :
  (forall d, v <> PDict d) ->
  exists e,
    github_metadata url v w = (Raise e, w) /\ (e = TypeError \/ e = AttributeError).
Proof.
  intros Hv. unfold github_metadata, bind, lift.
  destruct v as [| | | |items|d]; cbn; eauto.
  - destruct (contains "engines" s); cbn; eauto.
    destruct (contains "scripts" s); cbn; eauto.
  - destruct (existsb _ items); cbn; eauto.
    destruct (existsb _ items); cbn; eauto.
  - now contradiction (Hv d).
Qed.

(** X15.  A GitHub URL whose manifest cannot be had.  When [curl] fails
    or is not installed, or answers with JSON that is not an object,
    [fetch_package_metadata] returns the empty name [""]; when [curl]
    answers with text that is not JSON, it returns the last component of
    the URL as the name.  In each case no argument and no variable is
    detected. *)
Theorem fetch_github_fallbacks (url : string) (w : world) :
  contains "github.com" url = true ->
  (succeeds w (ticks w) ["curl"; "-s"; raw_url_of url] = false ->
   fst (fetch_package_metadata url w) = Ok (metadata (PStr "") []))
  /\ (forall out v,
        exec w (ticks w) ["curl"; "-s"; raw_url_of url] = Exited 0 out ->
        json_loads out = Ok v ->
        (forall d, v <> PDict d) ->
        fst (fetch_package_metadata url w) = Ok (metadata (PStr "") []))
  /\ (forall out,
        exec w (ticks w) ["curl"; "-s"; raw_url_of url] = Exited 0 out ->
        json_loads out = Raise JSONDecodeError ->
        fst (fetch_package_metadata url w) = Ok (metadata (PStr (basename url)) [])).
Proof.
  intros Hg. unfold fetch_package_metadata. rewrite Hg.
  split; [|split].
  - unfold succeeds, try_except, bind, log, subprocess_run. cbn [exec ticks add_event].
    destruct (exec w (ticks w) ["curl"; "-s"; raw_url_of url]) as [rc out|];
      [intros ->|intros _]; reflexivity.
  - intros out v Hexec Hjson Hv.
    unfold try_except, bind, log, subprocess_run, lift. cbn [exec ticks add_event].
    rewrite Hexec. cbn [Z.eqb]. rewrite Hjson.
    match goal with
    | |- context [github_metadata url v ?w1] =>
        destruct (github_metadata_not_object url v w1 Hv) as (e & -> & [-> | ->])
    end; reflexivity.
  - intros out Hexec Hjson.
    unfold try_except, bind, log, subprocess_run, lift. cbn [exec ticks add_event].
    rewrite Hexec. cbn [Z.eqb]. rewrite Hjson. reflexivity.
Qed.

Lemma fetch_github_fallbacks_witness :
  (succeeds w_offline (ticks w_offline)
            ["curl"; "-s"; raw_url_of "https://github.com/owner/repo"] = false ->
   fst (fetch_package_metadata "https://github.com/owner/repo" w_offline)
   = Ok (metadata (PStr "") []))
  /\ (forall out v,
        exec w_offline (ticks w_offline)
             ["curl"; "-s"; raw_url_of "https://github.com/owner/repo"] = Exited 0 out ->
        json_loads out = Ok v ->
        (forall d, v <> PDict d) ->
        fst (fetch_package_metadata "https://github.com/owner/repo" w_offline)
        = Ok (metadata (PStr "") []))
  /\ (forall out,
        exec w_offline (ticks w_offline)
             ["curl"; "-s"; raw_url_of "https://github.com/owner/repo"] = Exited 0 out ->
        json_loads out = Raise JSONDecodeError ->
        fst (fetch_package_metadata "https://github.com/owner/repo" w_offline)
        = Ok (metadata (PStr (basename "https://github.com/owner/repo")) [])).
Proof.
  apply (fetch_github_fallbacks "https://github.com/owner/repo" w_offline).
  reflexivity.
Defined.

(** X16.  A URL that is not on GitHub.  One that starts with [http] is
    not fetched at all: no program is run and the last component of the
    URL is returned as the name.  Any other text is taken as a package
    name and looked up with [npm view]; when that fails, or answers with
    text that is not JSON or with JSON that is not an object, the name
    returned is again the last component, so a scoped name [@scope/pkg]
    comes back as [pkg]. *)
Theorem fetch_registry_fallbacks (url : string) (w : world) :
  contains "github.com" url = false ->
  (String.prefix "http" url = true ->
   fetch_package_metadata url w
   = (Ok (metadata (PStr (basename url)) []),
      add_event (Log INFO "Fetching package metadata from {url}") w))
  /\ (String.prefix "http" url = false ->
      succeeds w (ticks w) ["npm"; "view"; url; "--json"] = false ->
      fst (fetch_package_metadata url w) = Ok (metadata (PStr (basename url)) []))
  /\ (forall out,
        String.prefix "http" url = false ->
        exec w (ticks w) ["npm"; "view"; url; "--json"] = Exited 0 out ->
        json_loads out = Raise JSONDecodeError
        \/ (exists v, json_loads out = Ok v /\ forall d, v <> PDict d) ->
        fst (fetch_package_metadata url w) = Ok (metadata (PStr (basename url)) [])).
Proof.
  intros Hg. unfold fetch_package_metadata. rewrite Hg.
  split; [|split].
  - intros ->. reflexivity.
  - intros -> Hs. cbn [negb].
    unfold succeeds in Hs.
    unfold try_except, bind, log, subprocess_run. cbn [exec ticks add_event].
    destruct (exec w (ticks w) ["npm"; "view"; url; "--json"]) as [rc out|];
      [rewrite Hs|]; reflexivity.
  - intros out -> Hexec Hjson. cbn [negb].
    unfold try_except, bind, log, subprocess_run, lift. cbn [exec ticks add_event].
    rewrite Hexec. cbn [Z.eqb].
    destruct Hjson as [-> | (v & -> & Hv)]; [reflexivity|].
    unfold npm_metadata, bind, lift.
    destruct v as [| | | | |d]; try reflexivity. now contradiction (Hv d).
Qed.

Lemma fetch_registry_fallbacks_witness :
  (String.prefix "http" "@scope/pkg" = true ->
   fetch_package_metadata "@scope/pkg" w_offline
   = (Ok (metadata (PStr (basename "@scope/pkg")) []),
      add_event (Log INFO "Fetching package metadata from {url}") w_offline))
  /\ (String.prefix "http" "@scope/pkg" = false ->
      succeeds w_offline (ticks w_offline) ["npm"; "view"; "@scope/pkg"; "--json"]
      = false ->
      fst (fetch_package_metadata "@scope/pkg" w_offline)
      = Ok (metadata (PStr (basename "@scope/pkg")) []))
  /\ (forall out,
        String.prefix "http" "@scope/pkg" = false ->
        exec w_offline (ticks w_offline) ["npm"; "view"; "@scope/pkg"; "--json"]
        = Exited 0 out ->
        json_loads out = Raise JSONDecodeError
        \/ (exists v, json_loads out = Ok v /\ forall d, v <> PDict d) ->
        fst (fetch_package_metadata "@scope/pkg" w_offline)
        = Ok (metadata (PStr (basename "@scope/pkg")) [])).
Proof.
  apply (fetch_registry_fallbacks "@scope/pkg" w_offline).
  reflexivity.
Defined.

(** ** What detection writes into [env] *)

Lemma dict_get_set_default (k key : string) (v value : pyval)
    (env_vars : list (string * pyval)) :
  dict_get k env_vars = Some v ->
  dict_get k (set_default key value env_vars) = Some v.
Proof.
  intros H. unfold set_default, dict_mem.
  destruct (dict_get key env_vars) eqn:E; [exact H|].
  destruct (String.eqb k key) eqn:Ek.
  - apply String.eqb_eq in Ek. subst. congruence.
  - rewrite dict_get_set_other; [exact H|]. now apply String.eqb_neq.
Qed.

Lemma dict_get_add_placeholders (clean : string -> string) (k : string) (v : pyval)
    (vars : list string) :
  forall env_vars,
    dict_get k env_vars = Some v ->
    dict_get k (add_placeholders clean vars env_vars) = Some v.
Proof.
  unfold add_placeholders. induction vars as [|var vars IH]; intros env_vars H; cbn.
  - exact H.
  - apply IH. now apply dict_get_set_default.
Qed.

Lemma dict_get_script_variables (k : string) (v : pyval) (scripts : list pyval) :
  forall env_vars env_vars',
    dict_get k env_vars = Some v ->
    script_variables scripts env_vars = Ok env_vars' ->
    dict_get k env_vars' = Some v.
Proof.
  induction scripts as [|s scripts IH]; intros env_vars env_vars' H Hs; cbn in Hs.
  - inversion Hs; subst. exact H.
  - destruct (py_split s) as [words| |]; try discriminate.
    eapply IH; [|exact Hs]. now apply dict_get_add_placeholders.
Qed.

(** X17.  The first detection of a name fixes its value.  In the
    metadata read off a GitHub [package.json], every variable that the
    [engines] section sets (the engine's name in capitals followed by
    [_VERSION], with the version as its value) is still there with that
    value after the scripts are scanned: a script that mentions a
    variable of the same name does not replace it by the placeholder. *)
Theorem engine_versions_are_kept (url : string) (info engines : list (string * pyval))
    (from_engines env_vars : list (string * pyval)) (name : pyval) (w w' : world) :
  dict_get "engines" info = Some (PDict engines) ->
  engine_variables engines [] = Ok from_engines ->
  github_metadata url (PDict info) w = (Ok (metadata name env_vars), w') ->
  forall key value,
    dict_get key from_engines = Some value ->
    dict_get key env_vars = Some value.
Proof.
  intros He Hv H key value Hk.
  unfold github_metadata in H. unfold bind at 1 in H. unfold lift at 1 in H.
  cbn [py_in] in H. unfold dict_mem at 1 in H. rewrite He in H.
  unfold bind at 1 in H. unfold bind at 1 in H. unfold lift at 1 in H.
  cbn [py_subscript] in H. rewrite He in H.
  unfold bind at 1 in H. unfold lift at 1 in H. cbn [py_items] in H.
  unfold lift at 1 in H. rewrite Hv in H.
  unfold bind at 1 in H. unfold lift at 1 in H.
  apply bind_inv in H.
  destruct H as [(e2 & w2 & E2 & H) | [(e & _ & ?) | (_ & ?)]]; try discriminate.
  unfold bind, lift, ret in H. cbn [py_get] in H. inversion H; subst. clear H.
  destruct (dict_mem "scripts" info).
  - apply bind_inv in E2.
    destruct E2 as [(s & w3 & E3 & E2) | [(e & _ & ?) | (_ & ?)]]; try discriminate.
    apply bind_inv in E2.
    destruct E2 as [(vals & w4 & E4 & E2) | [(e & _ & ?) | (_ & ?)]]; try discriminate.
    unfold lift in E2.
    destruct (script_variables vals from_engines) as [x| |] eqn:Es; inversion E2; subst.
    now apply (dict_get_script_variables key value vals from_engines).
  - inversion E2; subst. exact Hk.
Qed.

Lemma engine_versions_are_kept_witness :
  dict_get "NODE_VERSION"
           [("NODE_VERSION", PStr ">=18"); ("PORT", placeholder)]
  = Some (PStr ">=18").
Proof.
  apply (engine_versions_are_kept "https://github.com/owner/repo"
           manifest_with_engine [("node", PStr ">=18")]
           [("NODE_VERSION", PStr ">=18")]
           [("NODE_VERSION", PStr ">=18"); ("PORT", placeholder)]
           (PStr "repo") w_offline w_offline eq_refl eq_refl eq_refl
           "NODE_VERSION" (PStr ">=18")).
  reflexivity.
Defined.

(** ** The variables detected in a description *)

Lemma contains_cons (pat : string) (c : ascii) (s : string) :
  contains pat (String c s) = String.prefix pat (String c s) || contains pat s.
Proof. reflexivity. Qed.

Lemma contains_empty (c : ascii) (pat : string) : contains (String c pat) "" = false.
Proof. reflexivity. Qed.

Section Stripping.

Variable drop : ascii -> bool.
Variable a : ascii.
Variable pat : string.
Hypothesis Hkeep : forall c, string_mem c (String a pat) = true -> drop c = false.

Lemma prefix_rstrip (p : string) :
  (forall c, string_mem c p = true -> drop c = false) ->
  forall s, String.prefix p s = true -> String.prefix p (rstrip drop s) = true.
Proof.
  induction p as [|b p IH]; intros Hp s H; [now destruct (rstrip drop s)|].
  destruct s as [|c s]; [discriminate|]. cbn [String.prefix] in H.
  destruct (Ascii.ascii_dec b c) as [<- | ]; [|discriminate].
  assert (Hb : drop b = false).
  { apply Hp. cbn. now rewrite Ascii.eqb_refl. }
  assert (Hp' : forall c, string_mem c p = true -> drop c = false).
  { intros c Hc. apply Hp. cbn. rewrite Hc. apply orb_true_r. }
  specialize (IH Hp' s H). cbn [rstrip].
  destruct (rstrip drop s) as [|c' r].
  - rewrite Hb. cbn. destruct (Ascii.ascii_dec b b); [|congruence].
    destruct p; [reflexivity | discriminate].
  - cbn [String.prefix]. destruct (Ascii.ascii_dec b b); [exact IH | congruence].
Qed.

Lemma contains_lstrip (s : string) :
  contains (String a pat) s = true -> contains (String a pat) (lstrip drop s) = true.
Proof.
  induction s as [|c s IH]; intros H; [discriminate|]. cbn [lstrip].
  destruct (drop c) eqn:Ec; [|exact H].
  rewrite contains_cons in H. apply orb_true_iff in H. destruct H as [H | H].
  - cbn [String.prefix] in H. destruct (Ascii.ascii_dec a c) as [<- | ]; [|discriminate].
    rewrite Hkeep in Ec; [discriminate|]. cbn. now rewrite Ascii.eqb_refl.
  - now apply IH.
Qed.

Lemma contains_rstrip (s : string) :
  contains (String a pat) s = true -> contains (String a pat) (rstrip drop s) = true.
Proof.
  induction s as [|c s IH]; intros H; [discriminate|].
  rewrite contains_cons in H. apply orb_true_iff in H. destruct H as [H | H].
  - apply (prefix_rstrip _ Hkeep) in H.
    destruct (rstrip drop (String c s)) as [|c' r]; [discriminate|].
    rewrite contains_cons, H. reflexivity.
  - specialize (IH H). cbn [rstrip].
    destruct (rstrip drop s) as [|c' r]; [discriminate|].
    rewrite contains_cons, IH. apply orb_true_r.
Qed.

Lemma contains_strip (s : string) :
  contains (String a pat) s = true -> contains (String a pat) (strip drop s) = true.
Proof. intros H. unfold strip. now apply contains_rstrip, contains_lstrip. Qed.

End Stripping.

(** No pattern, and no underscore, holds a character that is stripped. *)
Lemma pattern_characters_stay (pattern : string) :
  In pattern ("_" :: env_patterns) ->
  exists a pat,
    pattern = String a pat
    /\ (forall c, string_mem c (String a pat) = true ->
                  string_mem c description_punctuation = false)
    /\ (forall c, string_mem c (String a pat) = true -> is_space c = false).
Proof.
  intros Hin. cbn in Hin.
  repeat (destruct Hin as [<- | Hin];
          [eexists; eexists; split; [reflexivity|];
           split; intros c Hc; cbn [string_mem] in Hc;
           repeat (apply orb_true_iff in Hc; destruct Hc as [Hc | Hc];
                   [apply Ascii.eqb_eq in Hc; subst c; reflexivity|]);
           discriminate|]).
  contradiction.
Qed.

Lemma contains_clean_described_var (pattern var : string) :
  In pattern ("_" :: env_patterns) ->
  contains pattern var = true ->
  contains pattern (clean_described_var var) = true.
Proof.
  intros Hin H. destruct (pattern_characters_stay pattern Hin) as (a & pat & -> & Hp & Hs).
  unfold clean_described_var, strip_ws, strip_chars.
  apply (contains_strip is_space a pat Hs).
  now apply (contains_strip (fun c => string_mem c description_punctuation) a pat Hp).
Qed.

Lemma Forall_dict_set {V : Type} (P : string * V -> Prop) (k : string) (v : V)
    (d : list (string * V)) :
  P (k, v) -> Forall P d -> Forall P (dict_set k v d).
Proof.
  intros Hkv. induction d as [|[k' v'] d IH]; intros H; cbn.
  - now constructor.
  - inversion H; subst. destruct (String.eqb k k'); constructor; auto.
Qed.

Lemma described_add_placeholders (pattern : string) (words : list string) :
  In pattern env_patterns ->
  forall env_vars,
    Forall described env_vars ->
    Forall described
      (add_placeholders clean_described_var (compound_patterns pattern words) env_vars).
Proof.
  intros Hin. unfold add_placeholders, compound_patterns.
  induction words as [|word words IH]; intros env_vars H; cbn [filter fold_left].
  - exact H.
  - destruct (contains pattern word && contains "_" word) eqn:E; [|now apply IH].
    apply andb_true_iff in E. destruct E as [Ep Eu]. cbn [fold_left]. apply IH.
    unfold set_default. destruct (dict_mem _ env_vars); [exact H|].
    apply Forall_dict_set; [|exact H]. unfold described. cbn [fst snd].
    split; [reflexivity|]. split.
    + apply contains_clean_described_var; [now left | exact Eu].
    + apply existsb_exists. exists pattern. split; [exact Hin|].
      apply contains_clean_described_var; [now right | exact Ep].
Qed.

Lemma described_scan_patterns (description : pyval) (patterns : list string) :
  incl patterns env_patterns ->
  forall env_vars env_vars',
    Forall described env_vars ->
    scan_patterns description patterns env_vars = Ok env_vars' ->
    Forall described env_vars'.
Proof.
  induction patterns as [|pattern patterns IH]; intros Hincl env_vars env_vars' H Hs;
    cbn [scan_patterns] in Hs.
  - inversion Hs; subst. exact H.
  - destruct (pattern_variables description pattern env_vars) as [e1| |] eqn:E1;
      try discriminate.
    apply (IH (fun x Hx => Hincl x (or_intror Hx)) e1 env_vars'); [|exact Hs].
    unfold pattern_variables in E1.
    destruct (py_in pattern description) as [[|]| |]; try discriminate.
    + destruct (py_split description) as [words| |]; try discriminate.
      inversion E1; subst. apply described_add_placeholders; [|exact H].
      apply Hincl. now left.
    + inversion E1; subst. exact H.
Qed.

Lemma described_scan_descriptions (descriptions : list pyval) :
  forall env_vars env_vars',
    Forall described env_vars ->
    scan_descriptions descriptions env_vars = Ok env_vars' ->
    Forall described env_vars'.
Proof.
  induction descriptions as [|d ds IH]; intros env_vars env_vars' H Hs;
    cbn [scan_descriptions] in Hs.
  - inversion Hs; subst. exact H.
  - destruct (scan_patterns d env_patterns env_vars) as [e1| |] eqn:E1; try discriminate.
    apply (IH e1 env_vars'); [|exact Hs].
    apply (described_scan_patterns d env_patterns (incl_refl _) env_vars e1 H E1).
Qed.

(** X18.  What [npm view] can make [fetch_package_metadata] detect.  In
    the metadata read off the answer for a package name, every variable
    has the placeholder [<YOUR_VALUE>] as its value, and its name holds an
    underscore and one of the ten patterns ([API_KEY], [TOKEN], ...): a
    word of the description that is just [TOKEN] or [PORT] is not
    detected, and stripping the punctuation around a word never removes
    what made it match. *)
Theorem described_variables (url : string) (package_info name : pyval)
    (env_vars : list (string * pyval)) (w w' : world) :
  npm_metadata url package_info w = (Ok (metadata name env_vars), w') ->
  Forall described env_vars.
Proof.
  intros H. unfold npm_metadata in H.
  apply bind_inv in H.
  destruct H as [(d1 & w1 & _ & H) | [(e & _ & ?) | (_ & ?)]]; try discriminate.
  apply bind_inv in H.
  destruct H as [(d2 & w2 & _ & H) | [(e & _ & ?) | (_ & ?)]]; try discriminate.
  apply bind_inv in H.
  destruct H as [(found & w3 & E & H) | [(e & _ & ?) | (_ & ?)]]; try discriminate.
  apply bind_inv in H.
  destruct H as [(n & w4 & _ & H) | [(e & _ & ?) | (_ & ?)]]; try discriminate.
  unfold ret, metadata in H. inversion H; subst. clear H.
  unfold lift in E.
  destruct (scan_descriptions [d1; d2] []) as [x| |] eqn:Es; inversion E; subst.
  apply (described_scan_descriptions [d1; d2] [] env_vars); [constructor | exact Es].
Qed.

Lemma described_variables_witness :
  Forall described [("WEATHER_API_KEY", placeholder); ("SERVICE_TOKEN", placeholder)].
Proof.
  apply (described_variables "weather-server" described_manifest
           (PStr "weather-server")
           [("WEATHER_API_KEY", placeholder); ("SERVICE_TOKEN", placeholder)]
           w_offline w_offline).
  reflexivity.
Defined.

(** ** The Supabase installer *)

Lemma run_result {A : Type} (r : outcome A * world) (a : outcome A) :
  fst r = a -> r = (a, snd r).
Proof. destruct r; cbn; now intros ->. Qed.

Section Supabase.

Variable writes : nat -> list string -> (string -> fs_node) -> (string -> fs_node).




(** X20.  What a successful Supabase install stores.  When
    [npm view supabase-mcp-server version] succeeds and the function
    returns [True], the registry file holds the registry of before with
    the server [supabase-mcp-server] set to [npx -y supabase-mcp-server]
    and an [env] of [SUPABASE_URL] and [SUPABASE_API_KEY], followed by
    [SUPABASE_PROJECT_REF] and [SUPABASE_MANAGEMENT_API] when they are
    given and not empty; every other server is as it was. *)
Theorem supabase_registry_entry (url api_key : string) (ref api_url : option string)
    (w w' : world) :
  succeeds w (ticks w) ["npm"; "view"; "supabase-mcp-server"; "version"] = true ->
  install_supabase_mcp writes url api_key ref api_url w = (Ok true, w') ->
  exists config config',
    registry_before w config
    /\ fs w' (config_path w) = File (json_dumps_indent 0 config')
    /\ server_of config' "supabase-mcp-server"
       = Some (server_entry "npx" ["-y"; "supabase-mcp-server"]
                            (Some (supabase_env url api_key ref api_url)))
    /\ only_differs_at "supabase-mcp-server" config config'.
Proof.
  intros Hs H. unfold succeeds in Hs.
  unfold install_supabase_mcp in H. unfold bind at 1 in H. cbn [log] in H.
  unfold bind at 1 in H. unfold try_except at 1 in H. unfold bind at 1 in H.
  unfold subprocess_run in H. cbn [exec ticks add_event] in H.
  destruct (exec w (ticks w) ["npm"; "view"; "supabase-mcp-server"; "version"])
    as [rc out|]; [|discriminate].
  rewrite Hs in H. cbn [ret negb] in H.
  match type of H with
  | try_except _ _ ?w1 = _ => set (w0 := w1) in *
  end.
  unfold try_except in H.
  match type of H with
  | match ?b with _ => _ end = _ => destruct b as [[x|e|] w2] eqn:E
  end; try discriminate; try (cbn in H; discriminate).
  inversion H; subst x w2. clear H.
  apply bind_inv in E.
  destruct E as [(s & w1 & E1 & E) | [(e & _ & ?) | (_ & ?)]]; try discriminate.
  destruct s as [[|]|]; cbn [truthy] in E; try (cbn in E; discriminate).
  cbn in E. inversion E; subst w'. clear E.
  unfold install_mcp_server in E1.
  destruct (install_loop_effect _ _ _ _ _ _ _ _ _ E1)
    as (_ & _ & _ & [(_ & config & config' & Hreg & Hset & Hfile) | (Hne & _)]);
    [|now contradiction Hne].
  exists config, config'. split; [exact Hreg|]. split; [exact Hfile|].
  apply (set_server_frame _ _ _ _ Hset).
Qed.

(** X21.  The fallback fails closed, after it has cleared the way.  When
    [npm view supabase-mcp-server version] ends with an error status and
    [git clone] then fails or [git] is not installed, the function
    returns [False].  If [git] is not installed and a directory
    [temp-supabase-mcp] was there, it has been removed with all that was
    under it. *)
Theorem supabase_fallback_fails (url api_key : string) (ref api_url : option string)
    (w : world) (rc : Z) (out : string) :
  exec w (ticks w) ["npm"; "view"; "supabase-mcp-server"; "version"] = Exited rc out ->
  rc <> 0%Z ->
  succeeds w (S (ticks w)) ["git"; "clone"; github_url; temp_dir] = false ->
  fst (install_supabase_mcp writes url api_key ref api_url w) = Ok false
  /\ (fs w temp_dir = Dir ->
      exec w (S (ticks w)) ["git"; "clone"; github_url; temp_dir] = NoSuchProgram ->
      forall p,
        p = temp_dir \/ String.prefix (temp_dir ++ "/") p = true ->
        fs (snd (install_supabase_mcp writes url api_key ref api_url w)) p = Missing).
Proof.
  intros Hexec Hrc Hgit. apply Z.eqb_neq in Hrc. unfold succeeds in Hgit.
  assert (Hres : exists w',
            install_supabase_mcp writes url api_key ref api_url w = (Ok false, w')
            /\ (fs w temp_dir = Dir ->
                exec w (S (ticks w)) ["git"; "clone"; github_url; temp_dir]
                = NoSuchProgram ->
                forall p,
                  p = temp_dir \/ String.prefix (temp_dir ++ "/") p = true ->
                  fs w' p = Missing)).
  { destruct (fs w temp_dir) as [|content|] eqn:Et;
      destruct (exec w (S (ticks w)) ["git"; "clone"; github_url; temp_dir])
        as [rc' out'|] eqn:Eg;
      eexists;
      unfold install_supabase_mcp; unfold bind at 1; cbn [log];
      unfold bind at 1; unfold try_except at 1; unfold bind at 1;
      unfold subprocess_run; cbn [exec ticks add_event]; rewrite Hexec, Hrc;
      cbn [ret negb]; unfold install_supabase_from_github;
      unfold bind at 1; cbn [log]; unfold bind at 1; cbn [log];
      unfold try_except at 1; unfold bind at 1; cbn [log];
      unfold bind at 1; cbn [path_exists fs add_event]; rewrite Et; cbn [fst snd];
      unfold bind at 1; unfold rmtree; cbn [ret fs add_event]; rewrite ?Et;
      try (unfold bind at 1; unfold subprocess_call;
           cbn [fs exec ticks add_event set_fs]; rewrite Eg; rewrite ?Hgit);
      (split; [reflexivity|]); try discriminate.
    intros _ _ p Hp. cbn [fst snd fs set_fs add_event bind log ret].
    destruct Hp as [-> | Hp]; [now rewrite String.eqb_refl|].
    rewrite Hp. now rewrite orb_true_r. }
  destruct Hres as (w' & -> & Hrest). split; [reflexivity | exact Hrest].
Qed.

End Supabase.

Lemma supabase_registry_entry_witness :
  exists config config',
    registry_before w_supabase config
    /\ fs (snd (install_supabase_mcp no_writes "https://x.supabase.co" "secret"
                                     (Some "ref1") None w_supabase))
          (config_path w_supabase)
       = File (json_dumps_indent 0 config')
    /\ server_of config' "supabase-mcp-server"
       = Some (server_entry "npx" ["-y"; "supabase-mcp-server"]
                 (Some (supabase_env "https://x.supabase.co" "secret"
                                     (Some "ref1") None)))
    /\ only_differs_at "supabase-mcp-server" config config'.
Proof.
  apply (supabase_registry_entry no_writes "https://x.supabase.co" "secret"
           (Some "ref1") None w_supabase
           (snd (install_supabase_mcp no_writes "https://x.supabase.co" "secret"
                                      (Some "ref1") None w_supabase))).
  - reflexivity.
  - apply run_result. vm_compute. reflexivity.
Defined.

Lemma supabase_fallback_fails_witness :
  fst (install_supabase_mcp no_writes "https://x.supabase.co" "secret" None None
                            w_old_clone)
  = Ok false
  /\ (fs w_old_clone temp_dir = Dir ->
      exec w_old_clone (S (ticks w_old_clone)) ["git"; "clone"; github_url; temp_dir]
      = NoSuchProgram ->
      forall p,
        p = temp_dir \/ String.prefix (temp_dir ++ "/") p = true ->
        fs (snd (install_supabase_mcp no_writes "https://x.supabase.co" "secret"
                                      None None w_old_clone)) p
        = Missing).
Proof.
  apply (supabase_fallback_fails no_writes "https://x.supabase.co" "secret" None None
           w_old_clone 1 "").
  - reflexivity.
  - discriminate.
  - reflexivity.
Defined.

(** ** [url --auto-detect] *)

Lemma dict_get_update {V : Type} (key : string) (other : list (string * V)) :
  NoDup (dict_keys other) ->
  forall d,
    dict_get key (dict_update d other)
    = match dict_get key other with
      | Some v => Some v
      | None => dict_get key d
      end.
Proof.
  unfold dict_update. induction other as [|[k v] other IH]; intros Hnd d;
    cbn [fold_left fst snd dict_get]; [reflexivity|].
  cbn [dict_keys map fst] in Hnd. inversion Hnd as [|? ? Hk Hnd']; subst.
  rewrite (IH Hnd').
  destruct (String.eqb key k) eqn:E.
  - apply String.eqb_eq in E. subst key.
    apply dict_get_none_not_in in Hk. rewrite Hk. apply dict_get_set_same.
  - destruct (dict_get key other); [reflexivity|].
    apply dict_get_set_other. now apply String.eqb_neq.
Qed.

Section AutoDetect.

Variable writes : nat -> list string -> (string -> fs_node) -> (string -> fs_node).

(** X22.  What [url --auto-detect] installs for a URL that is not on
    GitHub.  With the metadata fetched, the package installed is the
    detected name, or the URL itself when that name is empty; the
    arguments are those of the command line; and the variables are the
    detected ones updated with those of the command line, so that a
    variable given with [--env] replaces a detected one of the same
    name. *)
Theorem auto_detect_installs_detected (url name : string)
    (args words : option (list string)) (env_dict : envmap)
    (detected : list (string * pyval)) (strings : envmap) (w w1 : world) :
  contains "github.com" url = false ->
  fetch_package_metadata url w = (Ok (metadata (PStr name) detected), w1) ->
  env_of detected = Ok strings ->
  url_auto_detect writes (parse_args (RunUrl url args words true)) env_dict w
  = install_mcp_server (if String.eqb name "" then url else name)
      (Some (match args with Some (a :: rest) => a :: rest | _ => [] end))
      (Some (dict_update strings env_dict)) 3 w1
  /\ (NoDup (dict_keys env_dict) ->
      forall key,
        dict_get key (dict_update strings env_dict)
        = match dict_get key env_dict with
          | Some v => Some v
          | None => dict_get key strings
          end).
Proof.
  intros Hg Hfetch Henv. split.
  - unfold url_auto_detect. cbn [parse_args ns_url ns_args getattr].
    unfold bind at 1. cbn [ret]. rewrite (bind_ok _ _ _ _ _ Hfetch).
    unfold bind at 1. cbn [ret]. rewrite Hg.
    assert (Hargs : forall (k : list string -> M (option bool)),
              bind (match args with
                    | Some (a :: rest) => ret (a :: rest)
                    | _ => detected_args <- lift (py_subscript
                                                    (metadata (PStr name) detected)
                                                    "args") ;;
                           match detected_args with
                           | PList items => lift (strings_of items)
                           | _ => lift Unmodelled
                           end
                    end) k w1
              = k (match args with Some (a :: rest) => a :: rest | _ => [] end) w1).
    { intros k. destruct args as [[|a rest]|]; reflexivity. }
    rewrite Hargs. unfold bind at 1. cbn [lift py_subscript metadata dict_get String.eqb
      Ascii.eqb Bool.eqb].
    unfold bind at 1. cbn [lift py_items]. unfold bind at 1. unfold lift at 1.
    rewrite Henv. unfold bind at 1. cbn [lift py_subscript dict_get String.eqb
      Ascii.eqb Bool.eqb].
    unfold bind at 1. cbn [py_truthy]. destruct (String.eqb name ""); reflexivity.
  - intros Hnd key. now apply dict_get_update.
Qed.

(** X23.  [url --auto-detect] with a GitHub URL whose clone fails.  The
    [git clone] that follows the fetch is run with [check=True] outside
    any [try]: when it ends with a status other than 0, [main] does not
    return an exit status, it raises [CalledProcessError]. *)
Theorem auto_detect_clone_failure (url : string) (args words : option (list string))
    (env_dict : envmap) (name : pyval) (detected : list (string * pyval))
    (strings : envmap) (w w1 : world) (rc : Z) (out : string) :
  contains "github.com" url = true ->
  fetch_package_metadata url w = (Ok (metadata name detected), w1) ->
  env_of detected = Ok strings ->
  exec w1 (ticks w1) ["git"; "clone"; url; basename url] = Exited rc out ->
  rc <> 0%Z ->
  fst (url_auto_detect writes (parse_args (RunUrl url args words true)) env_dict w)
  = Raise (CalledProcessError rc)
  /\ fst (main_program writes (RunUrl url args None true) w)
     = Raise (CalledProcessError rc).
Proof.
  intros Hg Hfetch Henv Hexec Hrc. apply Z.eqb_neq in Hrc.
  assert (H : forall ws e,
            fst (url_auto_detect writes (parse_args (RunUrl url args ws true)) e w)
            = Raise (CalledProcessError rc)).
  { intros ws e. unfold url_auto_detect. cbn [parse_args ns_url ns_args getattr].
    unfold bind at 1. cbn [ret]. rewrite (bind_ok _ _ _ _ _ Hfetch).
    unfold bind at 1. cbn [ret]. rewrite Hg.
    assert (Hargs : forall (k : list string -> M (option bool)),
              bind (match args with
                    | Some (a :: rest) => ret (a :: rest)
                    | _ => detected_args <- lift (py_subscript
                                                    (metadata name detected) "args") ;;
                           match detected_args with
                           | PList items => lift (strings_of items)
                           | _ => lift Unmodelled
                           end
                    end) k w1
              = k (match args with Some (a :: rest) => a :: rest | _ => [] end) w1).
    { intros k. destruct args as [[|a rest]|]; reflexivity. }
    rewrite Hargs. unfold bind at 1. cbn [lift py_subscript metadata dict_get String.eqb
      Ascii.eqb Bool.eqb].
    unfold bind at 1. cbn [lift py_items]. unfold bind at 1. unfold lift at 1.
    rewrite Henv. unfold bind at 1. unfold subprocess_call. rewrite Hexec, Hrc.
    reflexivity. }
  split; [apply H|].
  unfold main_program, main, main_dispatch.
  cbn [parse_args process_env ns_env ns_command ns_auto_detect getattr].
  unfold bind at 1. cbn [ret String.eqb Ascii.eqb Bool.eqb].
  unfold bind at 1. cbn [ret]. unfold bind at 1.
  specialize (H None []). cbn [parse_args] in H.
  destruct (url_auto_detect writes _ [] w) as [[x|e|] w2]; cbn [fst] in H;
    try discriminate. now inversion H.
Qed.

End AutoDetect.

Lemma auto_detect_installs_detected_witness :
  url_auto_detect no_writes (parse_args (RunUrl "@scope/pkg" None None true))
                  [("X", "1")] w_installed
  = install_mcp_server (if String.eqb "example-pkg" "" then "@scope/pkg" else "example-pkg")
      (Some []) (Some (dict_update [] [("X", "1")])) 3
      (snd (fetch_package_metadata "@scope/pkg" w_installed))
  /\ (NoDup (dict_keys [("X", "1")]) ->
      forall key,
        dict_get key (dict_update [] [("X", "1")])
        = match dict_get key [("X", "1")] with
          | Some v => Some v
          | None => dict_get key []
          end).
Proof.
  apply (auto_detect_installs_detected no_writes "@scope/pkg" "example-pkg" None None
           [("X", "1")] [] [] w_installed
           (snd (fetch_package_metadata "@scope/pkg" w_installed))).
  - reflexivity.
  - apply run_result. vm_compute. reflexivity.
  - reflexivity.
Defined.

Lemma auto_detect_clone_failure_witness :
  fst (url_auto_detect no_writes
         (parse_args (RunUrl "https://github.com/owner/repo" None None true))
         [] w_git_fails)
  = Raise (CalledProcessError 128)
  /\ fst (main_program no_writes (RunUrl "https://github.com/owner/repo" None None true)
                       w_git_fails)
     = Raise (CalledProcessError 128).
Proof.
  apply (auto_detect_clone_failure no_writes "https://github.com/owner/repo" None None
           [] (PStr "") [] [] w_git_fails
           (snd (fetch_package_metadata "https://github.com/owner/repo" w_git_fails))
           128 "").
  - reflexivity.
  - apply run_result. vm_compute. reflexivity.
  - reflexivity.
  - reflexivity.
  - discriminate.
Defined.

(** ** Loading twice *)

Lemma mkdir_chain_again (ps : list string) :
  forall f r f', mkdir_chain ps f = (r, f') -> mkdir_chain ps f' = (r, f').
Proof.
  induction ps as [|q ps IH]; intros f r f' H; cbn [mkdir_chain] in *.
  - inversion H; subst. reflexivity.
  - destruct (f q) as [|content|] eqn:Eq.
    + assert (Hq : f' q = Dir).
      { destruct (mkdir_chain_creates _ _ _ _ H q) as [-> | [Hm _]];
          unfold fs_update in *; rewrite String.eqb_refl in *;
          [reflexivity | discriminate]. }
      rewrite Hq. exact (IH _ _ _ H).
    + inversion H; subst. now rewrite Eq.
    + assert (Hq : f' q = Dir).
      { destruct (mkdir_chain_creates _ _ _ _ H q) as [-> | [Hm _]];
          [exact Eq | congruence]. }
      rewrite Hq. exact (IH _ _ _ H).
Qed.

(** X24.  [load_config] is idempotent: loading again, in the world the
    first load left, gives the same result and changes nothing, whether
    the first load returned a registry, created the directories of a
    first run, or raised. *)
Theorem load_config_idempotent (w : world) :
  load_config (snd (load_config w)) = (fst (load_config w), snd (load_config w)).
Proof.
  destruct (load_config w) as [r w'] eqn:E. cbn [fst snd].
  pose proof (load_config_spec _ _ _ E) as (Hh & _ & _ & _ & Hf & _).
  assert (Hp : config_path w' = config_path w) by (unfold config_path; congruence).
  assert (Hc : fs w' (config_path w) = fs w (config_path w))
    by (apply Hf; apply config_path_not_dir).
  revert E. unfold load_config, bind, get_config_path, path_exists.
  fold (config_path_of (home w)). fold (config_path w).
  fold (config_path_of (home w')). fold (config_path w'). rewrite Hp, Hc.
  destruct (fs w (config_path w)) as [|text|] eqn:Ef; cbn [negb].
  - unfold mkdir_parents.
    destruct (mkdir_chain _ (fs w)) as [r0 f] eqn:Ec.
    intros H.
    assert (Hw : w' = set_fs f w) by (destruct r0 as [[]|e|]; now inversion H).
    subst w'. cbn [fs set_fs]. rewrite (mkdir_chain_again _ _ _ _ Ec).
    destruct r0 as [[]|e|]; inversion H; reflexivity.
  - unfold read_file, lift. rewrite Ef. intros H. inversion H; subst.
    now rewrite Ef.
  - unfold read_file. rewrite Ef. intros H. inversion H; subst. now rewrite Ef.
Qed.

(** ** The exit status of [main] *)

Lemma never_raises_ret {A : Type} (a : A) : never_raises (ret a).
Proof. intros w e. discriminate. Qed.

Lemma never_raises_bind {A B : Type} (m : M A) (k : A -> M B) :
  never_raises m -> (forall x, never_raises (k x)) -> never_raises (bind m k).
Proof.
  intros Hm Hk w e. unfold bind. specialize (Hm w).
  destruct (m w) as [[x|e'|] w1]; cbn in *.
  - apply Hk.
  - now contradiction (Hm e').
  - discriminate.
Qed.

Lemma never_raises_try_except {A : Type} (m : M A) (h : exn -> M A) :
  (forall e, never_raises (h e)) -> never_raises (try_except m h).
Proof.
  intros Hh w e. unfold try_except. destruct (m w) as [[x|e'|] w1]; cbn; try discriminate.
  apply Hh.
Qed.

Lemma never_raises_log (lvl : level) (msg : string) : never_raises (log lvl msg).
Proof. intros w e. discriminate. Qed.

Lemma never_raises_install_mcp_server (name : string) (args : option (list string))
    (env : option envmap) (max_retries : Z) :
  never_raises (install_mcp_server name args env max_retries).
Proof. intros w e. apply retry_loop_never_raises. Qed.

Lemma never_raises_install_local_mcp_server (path : string)
    (args : option (list string)) (env : option envmap) (max_retries : Z) :
  never_raises (install_local_mcp_server path args env max_retries).
Proof.
  apply never_raises_try_except. intros e.
  apply never_raises_bind; [apply never_raises_log | intros _; apply never_raises_ret].
Qed.

Lemma never_raises_generate_smithery_yaml (package_name command : string)
    (args : option (list string)) (env : option envmap) :
  never_raises (generate_smithery_yaml package_name command args env).
Proof.
  apply never_raises_try_except. intros e.
  apply never_raises_bind; [apply never_raises_log | intros _; apply never_raises_ret].
Qed.

Lemma never_raises_process_env (ns : namespace) : never_raises (process_env ns).
Proof.
  intros w e. unfold process_env.
  destruct (ns_env ns) as [[tokens|]|]; try discriminate.
  destruct (collect_env_spec tokens [] w) as (env_dict & -> & _). discriminate.
Qed.

Lemma never_raises_fetch_package_metadata (url : string) :
  never_raises (fetch_package_metadata url).
Proof.
  apply never_raises_try_except. intros e.
  apply never_raises_bind; [apply never_raises_log | intros _; apply never_raises_ret].
Qed.

Lemma env_of_never_raises (entries : list (string * pyval)) (e : exn) :
  env_of entries <> Raise e.
Proof.
  induction entries as [|[k v] rest IH]; cbn; [discriminate|].
  destruct v; try discriminate. destruct (env_of rest); congruence.
Qed.

Section ExitStatus.

Variable writes : nat -> list string -> (string -> fs_node) -> (string -> fs_node).

Lemma never_raises_url_auto_detect (url : string) (args words : option (list string))
    (env_dict : envmap) :
  contains "github.com" url = false ->
  never_raises (url_auto_detect writes (parse_args (RunUrl url args words true)) env_dict).
Proof.
  intros Hg w e. unfold url_auto_detect. cbn [parse_args ns_url ns_args getattr].
  unfold bind at 1. cbn [ret]. unfold bind at 1.
  pose proof (never_raises_fetch_package_metadata url w) as Hnr.
  destruct (fetch_package_metadata url w) as [[found|e'|] w1] eqn:Ef; cbn [fst] in *;
    [|now contradiction (Hnr e') | discriminate].
  destruct (yields_fetch_package_metadata url _ _ _ Ef) as (name & detected & ->).
  unfold bind at 1. cbn [ret]. rewrite Hg.
  assert (Hargs : forall (k : list string -> M (option bool)),
            bind (match args with
                  | Some (a :: rest) => ret (a :: rest)
                  | _ => detected_args <- lift (py_subscript (metadata name detected)
                                                             "args") ;;
                         match detected_args with
                         | PList items => lift (strings_of items)
                         | _ => lift Unmodelled
                         end
                  end) k w1
            = k (match args with Some (a :: rest) => a :: rest | _ => [] end) w1).
  { intros k. destruct args as [[|a rest]|]; reflexivity. }
  rewrite Hargs. unfold bind at 1. cbn [lift py_subscript metadata dict_get String.eqb
    Ascii.eqb Bool.eqb].
  unfold bind at 1. cbn [lift py_items]. unfold bind at 1. unfold lift at 1.
  pose proof (env_of_never_raises detected) as Hne.
  destruct (env_of detected) as [strings|e'|]; [|now contradiction (Hne e') | discriminate].
  unfold bind at 1. cbn [lift py_subscript dict_get String.eqb Ascii.eqb Bool.eqb].
  unfold bind at 1.
  destruct (py_truthy name); [destruct name|]; cbn [lift ret fst]; try discriminate;
    apply never_raises_install_mcp_server.
Qed.

Lemma yields_main_dispatch (ns : namespace) :
  yields (fun z => z = 0%Z \/ z = 1%Z)
         (main_dispatch (url_auto_detect writes) (install_supabase_mcp writes) ns).
Proof.
  assert (Hcode : forall s, exit_code s = 0%Z \/ exit_code s = 1%Z).
  { intros s. unfold exit_code. destruct (truthy s); auto. }
  unfold main_dispatch.
  apply (yields_bind (fun _ => True)); [apply yields_any | intros env_dict _].
  destruct (ns_command ns) as [command|].
  2:{ apply (yields_bind (fun _ => True)); [apply yields_any | intros _ _].
      apply yields_ret. now right. }
  repeat match goal with
         | |- yields _ (if ?c then _ else _) => destruct c
         | |- yields _ (bind _ _) =>
             apply (yields_bind (fun _ => True)); [apply yields_any | intros ? _]
         | |- yields _ (ret (exit_code _)) => apply yields_ret; apply Hcode
         | |- yields _ (ret (if ?b then _ else _)) => apply yields_ret; destruct b; auto
         | |- yields _ (ret 1%Z) => apply yields_ret; now right
         end.
Qed.

Lemma never_raises_bind_ret {A B : Type} (a : A) (k : A -> M B) :
  never_raises (k a) -> never_raises (bind (ret a) k).
Proof. intros H. exact H. Qed.

Lemma never_raises_exit {A : Type} (m : M A) (code : A -> Z) :
  never_raises m -> never_raises (bind m (fun success => ret (code success))).
Proof.
  intros H. apply never_raises_bind; [exact H | intros ?; apply never_raises_ret].
Qed.

(** X25.  When [main] comes to [sys.exit].  For the subcommands
    [install] and [local], for [url] without [--auto-detect] or with a URL
    that is not on GitHub, for [smithery] unless its [--command] is
    [local], [url] or [supabase], and for a command line without
    subcommand, [main] never raises: it ends with exit status 0 or 1. *)
Theorem main_returns_exit_status (inv : invocation) (w : world) :
  returns_status inv = true ->
  is_exit_status (fst (main_program writes inv w)).
Proof.
  intros Hinv.
  assert (Hnr : never_raises (main_program writes inv)).
  { unfold main_program, main, main_dispatch.
    apply never_raises_bind; [apply never_raises_process_env | intros env_dict].
    destruct inv as [name args env | path args env | url args env auto
                    | url key ref api | name command args env | ];
      cbn [parse_args ns_command ns_name ns_path ns_url ns_args ns_auto_detect getattr
           String.eqb Ascii.eqb Bool.eqb]; try discriminate.
    - do 2 apply never_raises_bind_ret.
      apply never_raises_exit, never_raises_install_mcp_server.
    - do 2 apply never_raises_bind_ret.
      apply never_raises_exit, never_raises_install_local_mcp_server.
    - apply never_raises_bind_ret. destruct auto; cbn [returns_status] in Hinv.
      + apply negb_true_iff in Hinv.
        apply never_raises_exit.
        apply (never_raises_url_auto_detect url args env env_dict Hinv).
      + do 2 apply never_raises_bind_ret.
        apply never_raises_exit, never_raises_install_mcp_server.
    - destruct command as [c|]; cbn [returns_status] in Hinv.
      + apply negb_true_iff, orb_false_iff in Hinv. destruct Hinv as [Hc Hs].
        apply orb_false_iff in Hc. destruct Hc as [Hl Hu]. rewrite Hl, Hu, Hs.
        destruct (String.eqb c "install").
        * do 2 apply never_raises_bind_ret.
          apply never_raises_exit, never_raises_install_mcp_server.
        * destruct (String.eqb c "smithery").
          -- do 2 apply never_raises_bind_ret.
             apply never_raises_exit, never_raises_generate_smithery_yaml.
          -- discriminate.
      + cbn [String.eqb Ascii.eqb Bool.eqb]. discriminate. }
  pose proof (Hnr w) as Hw. pose proof (yields_main_dispatch (parse_args inv)) as Hy.
  unfold main_program, main in *.
  destruct (main_dispatch _ _ (parse_args inv) w) as [[z|e|] w'] eqn:E; cbn [fst] in *.
  - exact (Hy _ _ _ E).
  - now contradiction (Hw e).
  - exact I.
Qed.

(** X26.  What [smithery --command] selects.  The option [--command]
    is stored where the name of the subcommand is, so its value chooses
    the branch of [main]: with [--command install] the package is
    installed as by the subcommand [install]; with [--command smithery],
    and only then, [generate_smithery_yaml] is called, with [smithery] as
    the command of the manifest; with [--command local], [url] or
    [supabase], [main] reads an attribute the namespace does not have and
    raises [AttributeError]. *)
Theorem smithery_command_selects_branch (name : string) (args words : option (list string))
    (w : world) :
  main_program writes (RunSmithery name (Some "install") args words) w
  = main_program writes (RunInstall name args words) w
  /\ main_program writes (RunSmithery name (Some "smithery") args words) w
     = (env_dict <- process_env (parse_args (RunSmithery name (Some "smithery") args words)) ;;
        success <- generate_smithery_yaml name "smithery" args (Some env_dict) ;;
        ret (if success then 0%Z else 1%Z)) w
  /\ (forall c,
        In c ["local"; "url"; "supabase"] ->
        fst (main_program writes (RunSmithery name (Some c) args words) w)
        = Raise AttributeError).
Proof.
  split; [reflexivity|]. split; [reflexivity|].
  intros c Hc. unfold main_program, main, main_dispatch.
  pose proof (never_raises_process_env
                (parse_args (RunSmithery name (Some c) args words)) w) as Hnr.
  unfold bind at 1.
  destruct (process_env (parse_args (RunSmithery name (Some c) args words)) w)
    as [[env_dict|e|] w1] eqn:E; cbn [fst] in Hnr.
  - destruct Hc as [<- | [<- | [<- | []]]]; reflexivity.
  - now contradiction (Hnr e).
  - exfalso. revert E. unfold process_env.
    cbn [parse_args ns_env]. destruct words as [tokens|]; [|discriminate].
    destruct (collect_env_spec tokens [] w) as (env_dict & -> & _). discriminate.
Qed.

End ExitStatus.

Lemma main_returns_exit_status_witness :
  is_exit_status (fst (main_program no_writes RunBare w_offline)).
Proof.
  apply (main_returns_exit_status no_writes RunBare w_offline).
  reflexivity.
Defined.



(** ** What an install costs *)

Lemma costs_spends {A : Type} (runs sleeps : nat) (m : M A) :
  spends runs sleeps m -> costs runs sleeps m.
Proof.
  intros Hm w r w' H. destruct (Hm _ _ _ H) as (_ & _ & _ & Ht & Hn). now split.
Qed.

Lemma costs_weaken {A : Type} (runs sleeps runs' sleeps' : nat) (m : M A) :
  (runs <= runs')%nat -> (sleeps <= sleeps')%nat ->
  costs runs sleeps m -> costs runs' sleeps' m.
Proof.
  intros Hr Hs Hm w r w' H. destruct (Hm _ _ _ H) as (Ht & new & Hn & Hl).
  split; [lia|]. exists new. split; [exact Hn | lia].
Qed.

Lemma costs_bind {A B : Type} (a b c d : nat) (m : M A) (k : A -> M B) :
  costs a b m ->
  (forall x, costs c d (k x)) ->
  costs (a + c) (b + d) (bind m k).
Proof.
  intros Hm Hk w r w' H. unfold bind in H.
  destruct (m w) as [[x|e|] w1] eqn:Em;
    destruct (Hm _ _ _ Em) as (Ht & new & Hn & Hl).
  - destruct (Hk x _ _ _ H) as (Ht' & new' & Hn' & Hl').
    split; [lia|]. exists (new ++ new')%list. rewrite Hn', Hn, List.app_assoc.
    split; [reflexivity|]. rewrite filter_app, List.length_app. lia.
  - inversion H; subst. split; [lia|]. exists new. split; [exact Hn | lia].
  - inversion H; subst. split; [lia|]. exists new. split; [exact Hn | lia].
Qed.

Lemma costs_try_except {A : Type} (a b c d : nat) (m : M A) (h : exn -> M A) :
  costs a b m ->
  (forall e, costs c d (h e)) ->
  costs (a + c) (b + d) (try_except m h).
Proof.
  intros Hm Hh w r w' H. unfold try_except in H.
  destruct (m w) as [[x|e|] w1] eqn:Em;
    destruct (Hm _ _ _ Em) as (Ht & new & Hn & Hl).
  - inversion H; subst. split; [lia|]. exists new. split; [exact Hn | lia].
  - destruct (Hh e _ _ _ H) as (Ht' & new' & Hn' & Hl').
    split; [lia|]. exists (new ++ new')%list. rewrite Hn', Hn, List.app_assoc.
    split; [reflexivity|]. rewrite filter_app, List.length_app. lia.
  - inversion H; subst. split; [lia|]. exists new. split; [exact Hn | lia].
Qed.

(** A step that neither runs a program nor adds to the trace. *)
Lemma costs_silent {A : Type} (m : M A) :
  (forall w r w', m w = (r, w') -> ticks w' = ticks w /\ trace w' = trace w) ->
  costs 0 0 m.
Proof.
  intros Hm w r w' H. destruct (Hm _ _ _ H) as [Ht Htr]. split; [lia|].
  exists []. rewrite List.app_nil_r. split; [exact Htr | simpl; lia].
Qed.

Lemma costs_load_config : costs 0 0 load_config.
Proof.
  apply costs_silent. intros w r w' H.
  destruct (load_config_spec _ _ _ H) as (_ & _ & Ht & Htr & _). now split.
Qed.

Lemma costs_save_config (config : pyval) : costs 0 0 (save_config config).
Proof.
  apply costs_silent. intros w r w' H.
  destruct (save_config_spec _ _ _ _ H) as [[_ ->] | [_ ->]]; now split.
Qed.

Lemma costs_generate_smithery_yaml (package_name command : string)
    (args : option (list string)) (env : option envmap) :
  costs 0 0 (generate_smithery_yaml package_name command args env).
Proof.
  intros w r w' H.
  unfold generate_smithery_yaml, try_except, bind, log, write_file in H.
  change (parent_error (fs (add_event (Log INFO "Generating smithery.yaml for {package_name}") w))
                       "smithery.yaml") with (@None exn) in H.
  cbn [fst snd fs add_event] in H.
  destruct (fs w "smithery.yaml"); inversion H; subst; cbn [ticks trace add_event set_fs];
    (split; [lia|]); eexists; rewrite <- ?List.app_assoc; (split; [reflexivity|]);
    simpl; lia.
Qed.

Lemma costs_log (lvl : level) (msg : string) : costs 0 0 (log lvl msg).
Proof. apply costs_spends, spends_log. Qed.

Lemma costs_ret {A : Type} (a : A) : costs 0 0 (ret a).
Proof. apply costs_spends, spends_ret. Qed.

Lemma costs_lift {A : Type} (o : outcome A) : costs 0 0 (lift o).
Proof. apply costs_spends, spends_lift. Qed.

Lemma costs_check_environment : costs 3 0 check_environment.
Proof.
  unfold check_environment.
  assert (Hp : forall tool label, costs 1 0 (probe tool label)).
  { intros tool label w r w' H. rewrite probe_spec in H. inversion H; subst.
    cbn [ticks trace]. split; [lia|]. eexists. split; [reflexivity|].
    unfold probe_events. destruct (succeeds _ _ _); simpl; lia. }
  apply (costs_bind 1 0 2 0); [apply Hp | intros ?].
  apply (costs_bind 1 0 1 0); [apply Hp | intros ?].
  apply (costs_bind 1 0 0 0); [apply Hp | intros ?].
  apply costs_ret.
Qed.

Lemma spends_is_mcp_compliant (package_name : string) (local_path : option string) :
  spends 3 2 (is_mcp_compliant package_name local_path 3).
Proof.
  unfold is_mcp_compliant. change (Z.to_nat 3) with 3%nat.
  apply (spends_retry_loop _ 3 1 ) with (remaining := 3%nat) (attempt := 0%Z);
    [|reflexivity].
  apply (spends_bind 1 0 0 0); [apply spends_compliance_attempt | intros ?].
  apply spends_ret.
Qed.

(** The check of a local package reads a file and runs no program. *)
Lemma spends_local_compliance (package_name : string) (c : ascii) (p : string) :
  spends 0 2 (is_mcp_compliant package_name (Some (String c p)) 3).
Proof.
  unfold is_mcp_compliant. change (Z.to_nat 3) with 3%nat.
  apply (spends_retry_loop _ 3 0) with (remaining := 3%nat) (attempt := 0%Z);
    [|reflexivity].
  apply (spends_bind 0 0 0 0); [|intros ?; apply spends_ret].
  unfold compliance_attempt.
  apply (spends_bind 0 0 0 0); [apply spends_log | intros _].
  apply (spends_bind 0 0 0 0); [apply spends_check_package_json | intros info].
  apply (spends_bind 0 0 0 0); [apply spends_compliance_indicators | intros ?].
  spends_free.
Qed.

Lemma costs_install_attempt (name : string) (args : option (list string))
    (env : option envmap) :
  costs 6 2 (install_attempt name args env).
Proof.
  unfold install_attempt.
  apply (costs_bind 0 0 6 2); [apply costs_log | intros _].
  apply (costs_bind 3 0 3 2); [apply costs_check_environment | intros status].
  destruct (negb (st_node status) || negb (st_npm status)).
  { apply (costs_weaken 0 0); [lia | lia |].
    apply (costs_bind 0 0 0 0); [apply costs_log | intros _; apply costs_ret]. }
  apply (costs_bind 3 2 0 0);
    [apply costs_spends, spends_is_mcp_compliant | intros compliant].
  destruct (negb (truthy compliant)).
  { apply (costs_bind 0 0 0 0); [apply costs_log | intros _; apply costs_ret]. }
  apply (costs_bind 0 0 0 0); [apply costs_load_config | intros config].
  apply (costs_bind 0 0 0 0); [apply costs_lift | intros config'].
  apply (costs_bind 0 0 0 0); [apply costs_save_config | intros _].
  apply (costs_bind 0 0 0 0); [apply costs_generate_smithery_yaml | intros _].
  apply (costs_bind 0 0 0 0); [apply costs_log | intros _; apply costs_ret].
Qed.

(** The loop around a body that may itself sleep. *)
Lemma costs_retry_loop (body : M (option bool)) (max_retries : Z) (runs sleeps : nat) :
  costs runs sleeps body ->
  forall (remaining : nat) (attempt : Z),
    (attempt + Z.of_nat remaining = max_retries)%Z ->
    costs (remaining * runs) (remaining * sleeps + (remaining - 1))
          (retry_loop body max_retries attempt remaining).
Proof.
  intros Hbody. induction remaining as [|n IH]; intros attempt Hinv; cbn [retry_loop].
  - apply costs_ret.
  - replace (S n * runs)%nat with (runs + n * runs)%nat by lia.
    replace (S n * sleeps + (S n - 1))%nat with (sleeps + (n * sleeps + n))%nat by lia.
    apply costs_try_except; [exact Hbody | intros _].
    apply (costs_bind 0 0 (n * runs) (n * sleeps + n)); [apply costs_log | intros _].
    destruct (attempt <? max_retries - 1)%Z eqn:E.
    + apply Z.ltb_lt in E. destruct n as [|n']; [lia|].
      apply (costs_bind 0 0 (S n' * runs) (S n' * sleeps + S n'));
        [apply costs_log | intros _].
      replace (S n' * sleeps + S n')%nat
        with (1 + (S n' * sleeps + (S n' - 1)))%nat by lia.
      apply (costs_bind 0 1 (S n' * runs) (S n' * sleeps + (S n' - 1)));
        [apply costs_spends, spends_sleep | intros _].
      apply IH. lia.
    + apply (costs_weaken 0 0); [lia | lia |].
      apply (costs_bind 0 0 0 0); [apply costs_log | intros _; apply costs_ret].
Qed.

(** X27.  What a registry-package install can cost.  For every package
    and world, [install_mcp_server] with [max_retries] attempts starts at
    most [6 * max_retries] programs (three probes and up to three
    [npm view] per attempt) and sleeps at most [3 * max_retries - 1]
    times: with the default of three attempts, at most 18 programs and
    8 seconds of waiting. *)
Theorem install_cost_bounded (name : string) (args : option (list string))
    (env : option envmap) (max_retries : Z) (w : world) :
  (ticks w
   <= ticks (snd (install_mcp_server name args env max_retries w))
   <= ticks w + 6 * Z.to_nat max_retries)%nat
  /\ exists new,
       trace (snd (install_mcp_server name args env max_retries w))
       = (trace w ++ new)%list
       /\ (List.length (filter is_sleep new) <= 3 * Z.to_nat max_retries - 1)%nat.
Proof.
  destruct (Z_le_gt_dec max_retries 0) as [Hz | Hz].
  - unfold install_mcp_server. replace (Z.to_nat max_retries) with 0%nat by lia.
    cbn. split; [lia|]. exists []. rewrite List.app_nil_r. split; [reflexivity | simpl; lia].
  - destruct (install_mcp_server name args env max_retries w) as [r w'] eqn:E.
    unfold install_mcp_server in E.
    eapply (costs_retry_loop _ max_retries 6 2) in E.
    + destruct E as (Ht & new & Hn & Hl). cbn [snd].
      split; [lia|]. exists new. split; [exact Hn | lia].
    + apply costs_install_attempt.
    + lia.
Qed.

(** X28.  A local install needs no tool: for a non-empty path,
    [install_local_mcp_server] starts no program at all (the manifest is
    read from the directory, and neither [node] nor [npm] is probed), and
    it sleeps at most twice. *)
Theorem local_install_runs_nothing (path : string) (args : option (list string))
    (env : option envmap) (max_retries : Z) (w : world) :
  path <> "" ->
  ticks (snd (install_local_mcp_server path args env max_retries w)) = ticks w
  /\ exists new,
       trace (snd (install_local_mcp_server path args env max_retries w))
       = (trace w ++ new)%list
       /\ (List.length (filter is_sleep new) <= 2)%nat.
Proof.
  intros Hne. destruct path as [|c p]; [congruence|].
  assert (Hc : costs 0 2 (install_local_mcp_server (String c p) args env max_retries)).
  { unfold install_local_mcp_server.
    apply (costs_try_except 0 2 0 0).
    - unfold install_local_body.
      apply (costs_bind 0 0 0 2); [apply costs_log | intros _].
      apply (costs_bind 0 0 0 2);
        [apply costs_spends, spends_same; reflexivity | intros present].
      destruct (negb present).
      { apply (costs_weaken 0 0); [lia | lia |].
        apply (costs_bind 0 0 0 0); [apply costs_log | intros _; apply costs_ret]. }
      apply (costs_bind 0 2 0 0);
        [apply costs_spends, spends_local_compliance | intros compliant].
      destruct (negb (truthy compliant)).
      { apply (costs_bind 0 0 0 0); [apply costs_log | intros _; apply costs_ret]. }
      apply (costs_bind 0 0 0 0); [apply costs_load_config | intros config].
      apply (costs_bind 0 0 0 0);
        [apply costs_spends, spends_check_package_json | intros info].
      apply (costs_bind 0 0 0 0); [apply costs_lift | intros nm].
      apply (costs_bind 0 0 0 0); [apply costs_lift | intros named].
      apply (costs_bind 0 0 0 0); [apply costs_save_config | intros _].
      apply (costs_bind 0 0 0 0); [apply costs_generate_smithery_yaml | intros _].
      apply (costs_bind 0 0 0 0); [apply costs_log | intros _; apply costs_ret].
    - intros e. apply (costs_bind 0 0 0 0); [apply costs_log | intros _; apply costs_ret]. }
  destruct (install_local_mcp_server (String c p) args env max_retries w)
    as [r w'] eqn:E.
  destruct (Hc _ _ _ E) as (Ht & new & Hn & Hl). cbn [snd].
  split; [lia|]. exists new. now split.
Qed.

Lemma local_install_runs_nothing_witness :
  ticks (snd (install_local_mcp_server "/srv/demo" None None 3
                (w_local compliant_manifest)))
  = ticks (w_local compliant_manifest)
  /\ exists new,
       trace (snd (install_local_mcp_server "/srv/demo" None None 3
                     (w_local compliant_manifest)))
       = (trace (w_local compliant_manifest) ++ new)%list
       /\ (List.length (filter is_sleep new) <= 2)%nat.
Proof.
  apply (local_install_runs_nothing "/srv/demo" None None 3 (w_local compliant_manifest)).
  discriminate.
Defined.

(** ** A local manifest that is not an object *)

(** A loop whose body raises in every world it is run in. *)
Lemma retry_loop_all_raise (body : M (option bool)) (max_retries : Z)
    (P : world -> Prop) :
  (forall w, P w ->
             exists e, body w = (Raise e, add_event (Log INFO msg_checking) w)) ->
  (forall w es, P w -> P (add_events es w)) ->
  forall (remaining : nat) (attempt : Z) (w : world),
    (attempt + Z.of_nat remaining = max_retries)%Z ->
    P w ->
    retry_loop body max_retries attempt remaining w
    = (Ok (match remaining with O => None | S _ => Some false end),
       add_events (failed_attempts_trace [] remaining) w).
Proof.
  intros Hbody Hstable. induction remaining as [|n IH]; intros attempt w Hinv Hw;
    cbn [retry_loop failed_attempts_trace].
  - now rewrite add_events_nil.
  - destruct (Hbody w Hw) as (e & He). unfold try_except. rewrite He.
    unfold bind at 1. cbn [log].
    destruct n as [|n'].
    + assert (E : (attempt <? max_retries - 1)%Z = false) by (apply Z.ltb_ge; lia).
      rewrite E. cbn. unfold add_event, add_events. cbn.
      now rewrite <- !List.app_assoc.
    + assert (E : (attempt <? max_retries - 1)%Z = true) by (apply Z.ltb_lt; lia).
      rewrite E. unfold bind at 1. cbn [log]. unfold bind at 1. cbn [sleep].
      rewrite IH.
      * f_equal. unfold add_event, add_events. cbn [home fs exec ticks trace].
        f_equal. cbn [app]. now rewrite <- !List.app_assoc.
      * lia.
      * rewrite !add_event_events. now repeat apply Hstable.
Qed.

(** X29.  A local [package.json] that is valid JSON but not an object
    (a list, a string, a number, [null]) is never compliant, whatever its
    text mentions: every attempt of the check raises on it, so
    [is_mcp_compliant] makes all [max_retries] attempts, sleeping between
    them, runs no program and returns [False]. *)
Theorem non_object_manifest_not_compliant (package_name path text : string)
    (v : pyval) (max_retries : Z) (w : world) :
  path <> "" ->
  (1 <= max_retries)%Z ->
  fs w (path_join path "package.json") = File text ->
  json_loads text = Ok v ->
  (forall d, v <> PDict d) ->
  is_mcp_compliant package_name (Some path) max_retries w
  = (Ok (Some false),
     add_events (failed_attempts_trace [] (Z.to_nat max_retries)) w).
Proof.
  intros Hne Hmr Hfile Hjson Hv. destruct path as [|c p]; [congruence|].
  unfold is_mcp_compliant.
  rewrite (retry_loop_all_raise _ max_retries (fun w' => fs w' = fs w)).
  - destruct (Z.to_nat max_retries) eqn:E; [lia | reflexivity].
  - intros w' Hw'. exists AttributeError.
    unfold compliance_attempt. unfold bind at 1. unfold bind at 1. cbn [log].
    unfold bind at 1. unfold resolve_manifest, check_package_json, try_except.
    unfold bind at 1. unfold read_file. cbn [fs add_event]. rewrite Hw', Hfile.
    unfold lift at 1. rewrite Hjson. unfold bind at 1.
    unfold compliance_indicators. unfold bind at 1. unfold lift at 1.
    destruct v as [| | | | |d]; try reflexivity. now contradiction (Hv d).
  - intros w' es Hw'. exact Hw'.
  - lia.
  - reflexivity.
Qed.

Lemma non_object_manifest_not_compliant_witness :
  is_mcp_compliant "demo" (Some "/srv/demo") 3
                   (w_local (PList [PStr "modelcontextprotocol"]))
  = (Ok (Some false),
     add_events (failed_attempts_trace [] (Z.to_nat 3))
                (w_local (PList [PStr "modelcontextprotocol"]))).
Proof.
  apply (non_object_manifest_not_compliant "demo" "/srv/demo"
           (json_dumps (PList [PStr "modelcontextprotocol"]))
           (PList [PStr "modelcontextprotocol"]) 3
           (w_local (PList [PStr "modelcontextprotocol"]))).
  - discriminate.
  - lia.
  - reflexivity.
  - vm_compute. reflexivity.
  - discriminate.
Defined.

(** ** A local path that is a regular file *)

Lemma rsplit_slash_app_slash (y : string) : rsplit_slash (y ++ "/") = Some (y, "").
Proof.
  induction y as [|c y IH]; [reflexivity|].
  cbn [append rsplit_slash]. now rewrite IH.
Qed.

(** Where the manifest of a path without a final slash is looked for. *)
Lemma manifest_path (path : string) :
  path <> "" ->
  ends_with_slash path = false ->
  path_join path "package.json" = path ++ "/package.json"
  /\ dirname (path_join path "package.json") = path.
Proof.
  intros Hne Hslash.
  assert (Hj : path_join path "package.json" = path ++ "/package.json").
  { unfold path_join. change (String.prefix "/" "package.json") with false. cbv iota.
    apply String.eqb_neq in Hne. now rewrite Hne, Hslash. }
  split; [exact Hj|]. rewrite Hj. unfold dirname.
  change (path ++ "/package.json") with (path ++ "/" ++ "package.json").
  rewrite <- string_app_assoc, rsplit_slash_app_tail by reflexivity.
  rewrite rsplit_slash_app_slash. destruct path; [congruence | reflexivity].
Qed.

(** X30.  A local path that is a regular file.  [os.path.exists] holds of
    it, but opening [<path>/package.json] raises [NotADirectoryError],
    which [check_package_json] does not catch: every attempt of the
    compliance check raises, so the check makes its three attempts,
    sleeping twice, and the install returns [False], with no file changed
    and no program run. *)
Theorem local_install_of_a_file (path content : string) (args : option (list string))
    (env : option envmap) (max_retries : Z) (w : world) :
  path <> "" ->
  ends_with_slash path = false ->
  fs w path = File content ->
  fs w (path_join path "package.json") = Missing ->
  exists w',
    install_local_mcp_server path args env max_retries w = (Ok (Some false), w')
    /\ fs w' = fs w
    /\ ticks w' = ticks w
    /\ trace w'
       = (trace w
          ++ [Log INFO msg_installing_local]
          ++ failed_attempts_trace [] 3
          ++ [Log ERROR "Local package at {path} is not MCP-compliant"])%list
    /\ filter is_sleep (failed_attempts_trace [] 3) = [Sleep 1; Sleep 1]
    /\ occurrences (Log INFO msg_checking) (failed_attempts_trace [] 3) = 3%nat.
Proof.
  intros Hne Hslash Hfile Hmissing.
  destruct (manifest_path path Hne Hslash) as [_ Hdir].
  destruct path as [|c p]; [congruence|].
  set (path := String c p) in *.
  assert (Hcompliant : forall w0, fs w0 = fs w ->
            is_mcp_compliant (basename path) (Some path) 3 w0
            = (Ok (Some false), add_events (failed_attempts_trace [] 3) w0)).
  { intros w0 Hw0. unfold is_mcp_compliant. change (Z.to_nat 3) with 3%nat.
    apply (retry_loop_all_raise _ 3 (fun w' => fs w' = fs w)).
    - intros w' Hw'. exists NotADirectoryError.
      unfold compliance_attempt. unfold bind at 1. unfold bind at 1. cbn [log].
      unfold bind at 1. unfold resolve_manifest. subst path.
      unfold check_package_json, try_except.
      unfold bind at 1. unfold read_file, parent_error. cbn [fs add_event].
      rewrite Hw', Hmissing, Hdir, Hfile.
      change (String.eqb (String c p) "") with false. reflexivity.
    - intros w' es Hw'. exact Hw'.
    - reflexivity.
    - exact Hw0. }
  eexists.
  unfold install_local_mcp_server, install_local_body, try_except, bind at 1.
  unfold log at 1. unfold bind at 1. unfold path_exists at 1.
  cbn [fs add_event]. rewrite Hfile. cbn [negb fst snd].
  unfold bind at 1. rewrite Hcompliant by reflexivity.
  cbn [truthy negb]. unfold bind, log, ret.
  split; [reflexivity|]. split; [reflexivity|]. split; [reflexivity|].
  split; [|split; reflexivity].
  unfold add_event, add_events. cbn [trace]. now rewrite <- !List.app_assoc.
Qed.

Lemma local_install_of_a_file_witness :
  exists w',
    install_local_mcp_server "/srv/demo/package.json" None None 3
                             (w_local compliant_manifest)
    = (Ok (Some false), w')
    /\ fs w' = fs (w_local compliant_manifest)
    /\ ticks w' = ticks (w_local compliant_manifest)
    /\ trace w'
       = (trace (w_local compliant_manifest)
          ++ [Log INFO msg_installing_local]
          ++ failed_attempts_trace [] 3
          ++ [Log ERROR "Local package at {path} is not MCP-compliant"])%list
    /\ filter is_sleep (failed_attempts_trace [] 3) = [Sleep 1; Sleep 1]
    /\ occurrences (Log INFO msg_checking) (failed_attempts_trace [] 3) = 3%nat.
Proof.
  apply (local_install_of_a_file "/srv/demo/package.json"
           (json_dumps compliant_manifest) None None 3 (w_local compliant_manifest)).
  - discriminate.
  - reflexivity.
  - reflexivity.
  - reflexivity.
Defined.
